(** * rpdk.core.project: a shallow embedding of the project lifecycle core

    The development follows [src/rpdk/core/project.py]: the IAM role
    template synthesis of [generate], the packaging and registration
    pipeline of [submit], [_upload] and [_wait_for_registration], the
    guarded file writer [safewrite], and the documentation generator
    ([generate_docs], [_set_docs_properties],
    [_get_docs_primary_identifier], [_get_docs_gettable_atts]), and the
    settings and schema files of [load_settings], [load_schema], [load]
    and [write_settings].

    Python objects live in an explicit store: a dict or a list is an
    address into a heap, so that the in-place updates the documentation
    walker performs are visible through every alias, as in the source. *)

From Stdlib Require Import ZArith Ascii String List Lia Bool.
From Stdlib Require Import Structures.OrdersEx Sorting.Sorted.
From stdpp Require Import base option list strings gmap sorting.

Set Warnings "-register-all".

Local Open Scope string_scope.
Local Open Scope Z_scope.
Local Open Scope list_scope.

(** ** Strings, as Python's [str] restricted to byte strings *)
Module Str.

(** [sep.join(parts)] *)
Definition join (sep : string) (parts : list string) : string :=
  String.concat sep parts.

Definition lower_ascii (c : ascii) : ascii :=
  let n := nat_of_ascii c in
  if (Nat.leb 65 n && Nat.leb n 90)%bool then ascii_of_nat (n + 32) else c.

(** [s.lower()]; only the letters A-Z have a lowercase form here, bytes
    outside ASCII are left as they are. *)
Fixpoint lower (s : string) : string :=
  match s with
  | EmptyString => EmptyString
  | String c r => String (lower_ascii c) (lower r)
  end.

(** [s.split(c)] for a one-character separator: never empty. *)
Fixpoint split (c : ascii) (s : string) : list string :=
  match s with
  | EmptyString => [EmptyString]
  | String d r =>
      if Ascii.eqb d c then EmptyString :: split c r
      else match split c r with
           | [] => [String d EmptyString]
           | w :: ws => String d w :: ws
           end
  end.

(** [s.replace(a ++ b, by)] for a two-character pattern: leftmost
    matches, not overlapping. *)
Fixpoint replace2 (a b : ascii) (by_ : string) (s : string) : string :=
  match s with
  | EmptyString => EmptyString
  | String c r =>
      match r with
      | EmptyString => s
      | String d r' =>
          if (Ascii.eqb c a && Ascii.eqb d b)%bool
          then by_ +:+ replace2 a b by_ r'
          else String c (replace2 a b by_ r)
      end
  end.

(** [s.replace(a, by)] for a one-character pattern. *)
Fixpoint replace1 (a : ascii) (by_ : string) (s : string) : string :=
  match s with
  | EmptyString => EmptyString
  | String c r =>
      if Ascii.eqb c a then by_ +:+ replace1 a by_ r
      else String c (replace1 a by_ r)
  end.

(** [sub in s] *)
Fixpoint contains (sub s : string) : bool :=
  String.prefix sub s ||
  match s with
  | EmptyString => false
  | String _ r => contains sub r
  end.

(** [c in s] for a character. *)
Fixpoint has_char (c : ascii) (s : string) : bool :=
  match s with
  | EmptyString => false
  | String d r => Ascii.eqb d c || has_char c r
  end.

End Str.

(** ** Exceptions and outcomes *)

(** The exceptions the modelled code raises, catches or lets through.
    [DownstreamError msg cause] is [raise DownstreamError(msg) from cause]. *)
Inductive exn :=
| KeyError
| IndexError
| ValueError
| TypeError
| AttributeError
| RuntimeError
| FileNotFoundError
| FileExistsError
| RefResolutionError
| ClientError (detail : string)
| WaiterError (detail : string)
| OtherError (name : string)
| DownstreamError (msg : string) (cause : exn).

(** A call returns, raises, or leaves the model ([Stuck]: the recursion
    budget ran out, or the input is outside what the embedding covers). *)
Inductive outcome (A : Type) :=
| Ok (a : A)
| Raise (e : exn)
| Stuck.
Arguments Ok {A} a.
Arguments Raise {A} e.
Arguments Stuck {A}.

(** ** JSON pointers *)
Module Pointer.

(** Modelled from the spec: [jsonutils/pointer.py] is not among the
    sources.  A segment is escaped by the JSON-Pointer rules: [~] becomes
    [~0] and [/] becomes [~1]. *)
Definition part_encode (part : string) : string :=
  Str.replace1 "/" "~1" (Str.replace1 "~" "~0" part).

(** Modelled from the spec: [jsonutils/pointer.py] is not among the
    sources.  The inverse of [part_encode]: [~1] back to [/], then [~0]
    back to [~]. *)
Definition part_decode (part : string) : string :=
  Str.replace2 "~" "0" "~" (Str.replace2 "~" "1" "/" part).

(** Modelled from the spec: [jsonutils/pointer.py] is not among the
    sources.  The pointer string of a sequence of segments, after the
    configured prefix. *)
Definition fragment_encode (parts : list string) (prefix : string) : string :=
  Str.join "/" (prefix :: map part_encode parts).

(** Modelled from the spec: [jsonutils/pointer.py] is not among the
    sources.  The segments of a pointer; a decoding error ([ValueError])
    when the pointer does not begin with the configured prefix. *)
Definition fragment_decode (pointer : string) (prefix : string) : outcome (list string) :=
  match Str.split "/" pointer with
  | [] => Raise ValueError
  | p :: parts =>
      if String.eqb p prefix then Ok (map part_decode parts) else Raise ValueError
  end.

End Pointer.

(** ** Python values and the object store *)

(** A value is an immediate or the address of a dict or list object. *)
Inductive val :=
| VNone
| VBool (b : bool)
| VInt (n : Z)
| VStr (s : string)
| VRef (a : nat).

(** A dict keeps its entries in insertion order; only the first binding
    of a key is ever read or updated. *)
Inductive obj :=
| ODict (items : list (string * val))
| OList (elems : list val).

(** A JSON document, as [json.loads] reads it and [json.dumps] writes it
    (numbers are integers). *)
Inductive json :=
| JNull
| JBool (b : bool)
| JNum (n : Z)
| JStr (s : string)
| JArr (elems : list json)
| JObj (members : list (string * json)).

Global Instance val_eq_dec : EqDecision val.
Proof. solve_decision. Defined.
Global Instance obj_eq_dec : EqDecision obj.
Proof. solve_decision. Defined.

Module Dict.

(** [d.get(k)] *)
Fixpoint get (k : string) (d : list (string * val)) : option val :=
  match d with
  | [] => None
  | (k', v) :: r => if String.eqb k' k then Some v else get k r
  end.

(** [d[k] = v]: a bound key keeps its position, a new key goes last. *)
Fixpoint set (k : string) (v : val) (d : list (string * val)) : list (string * val) :=
  match d with
  | [] => [(k, v)]
  | (k', v') :: r =>
      if String.eqb k' k then (k, v) :: r else (k', v') :: set k v r
  end.

(** [d.items()]: each key once, under its first binding. *)
Fixpoint items_from (seen : list string) (d : list (string * val)) : list (string * val) :=
  match d with
  | [] => []
  | (k, v) :: r =>
      if existsb (String.eqb k) seen then items_from seen r
      else (k, v) :: items_from (k :: seen) r
  end.

Definition items (d : list (string * val)) : list (string * val) :=
  items_from [] d.

End Dict.

(** ** Files, log records and remote calls *)

(** A path is its sequence of components, from the file system root. *)
Abbreviation path := (list string).

(** What a file holds.  A rendered template is kept as the template's
    name and arguments; an argument that is a live object ([schema]) comes
    with the store as it stands when the template is rendered. *)
Inductive data :=
| ResourceRoleYml (type_name : string) (actions : list string)
    (permission : string) (role_session_timeout : Z)
| DocsSubpropertyMd (type_name subproperty_name : string) (schema : val) (store : list obj)
| DocsReadmeMd (type_name : string) (schema : val) (ref : option string)
    (getatt : list (string * val)) (store : list obj)
| Text (contents : string)
| ZipFile (entries : list (string * data)).

Inductive level := DEBUG | INFO | WARNING | ERROR | CRITICAL.

(** A service response: a flat document of strings. *)
Abbreviation response := (list (string * string)).

Inductive logarg :=
| AStr (s : string)
| APath (p : path)
| AVal (v : val)
| AResponse (r : response)
| AExcInfo (e : exn).

(** [LOG.<level>(fmt, *args)] *)
Record logrec := Log { lvl : level; fmt : string; args : list logarg }.

(** The keyword arguments of [register_type]. *)
Record register_kwargs := RegisterKwargs {
  kw_Type : string;
  kw_TypeName : string;
  kw_SchemaHandlerPackage : string;
  kw_ClientRequestToken : string;
  kw_LogRoleArn : string;
  kw_LogGroupName : string;
  kw_ExecutionRoleArn : option string
}.

(** The calls that leave the process, in the order they are made. *)
Inductive call :=
| CreateSdkSession (region_name : option string)
| CreateOrUpdateRole (template_path : path) (resource_name : string)
| UploaderUpload (resource_name : string) (archive : list (string * data))
| GetLogDeliveryRoleArn
| RegisterType (kwargs : register_kwargs)
| WaiterWait (registration_token : string)
| DescribeTypeRegistration (registration_token : string)
| SetTypeDefaultVersion (arn : string).

(** What the collaborators answer: the storage and registry clients, the
    identifier generator and the language plugin.  Each answer is a
    result or an exception. *)
Record services := Services {
  create_sdk_session : option string → outcome string;
  create_or_update_role : path → string → outcome string;
  uploader_upload : string → list (string * data) → outcome string;
  get_log_delivery_role_arn : outcome string;
  uuid4 : string;
  register_type : register_kwargs → outcome response;
  waiter_wait : string → outcome unit;
  describe_type_registration : string → outcome response;
  set_type_default_version : string → outcome unit;
  plugin_package : outcome (list (string * data));
  plugin_generate : outcome unit
}.

(** ** The state the code runs in *)
Record world := World {
  heap : list obj;
  fs : gmap path data;
  log : list logrec;
  calls : list call;
  (** Ghost: the property path and the file of every side artifact the
      documentation walker hands to [safewrite], oldest first. *)
  side_artifacts : list (list string * path)
}.

Definition M (A : Type) : Type := world → outcome A * world.

Global Instance M_ret : MRet M := λ A a w, (Ok a, w).
Global Instance M_bind : MBind M := λ A B k m w,
  match m w with
  | (Ok a, w') => k a w'
  | (Raise e, w') => (Raise e, w')
  | (Stuck, w') => (Stuck, w')
  end.

Global Instance M_fmap : FMap M := λ A B f m, a ← m; mret (f a).

Definition raise {A} (e : exn) : M A := λ w, (Raise e, w).
Definition stuck {A} : M A := λ w, (Stuck, w).
Definition lift {A} (o : outcome A) : M A := λ w, (o, w).

(** [try: body  except <caught>: handler] *)
Definition try_except {A} (body : M A) (handler : exn → option (M A)) : M A := λ w,
  match body w with
  | (Raise e, w') =>
      match handler e with
      | Some h => h w'
      | None => (Raise e, w')
      end
  | r => r
  end.

Definition get_heap : M (list obj) := λ w, (Ok (heap w), w).
Definition get_fs : M (gmap path data) := λ w, (Ok (fs w), w).

(** The world after one change. *)
Definition with_heap (h : list obj) (w : world) : world :=
  World h (fs w) (log w) (calls w) (side_artifacts w).
Definition with_fs (f : gmap path data) (w : world) : world :=
  World (heap w) f (log w) (calls w) (side_artifacts w).
Definition logged (r : logrec) (w : world) : world :=
  World (heap w) (fs w) (log w ++ [r]) (calls w) (side_artifacts w).
Definition called (c : call) (w : world) : world :=
  World (heap w) (fs w) (log w) (calls w ++ [c]) (side_artifacts w).
Definition emitted (proppath : list string) (p : path) (w : world) : world :=
  World (heap w) (fs w) (log w) (calls w) (side_artifacts w ++ [(proppath, p)]).

Definition set_heap (h : list obj) : M unit := λ w, (Ok tt, with_heap h w).
Definition set_fs (f : gmap path data) : M unit := λ w, (Ok tt, with_fs f w).
Definition LOG (l : level) (f : string) (a : list logarg) : M unit := λ w,
  (Ok tt, logged (Log l f a) w).
Definition record_call (c : call) : M unit := λ w, (Ok tt, called c w).
Definition record_side_artifact (proppath : list string) (p : path) : M unit := λ w,
  (Ok tt, emitted proppath p w).

(** A call to a collaborator: noted, then answered. *)
Definition remote {A} (c : call) (answer : outcome A) : M A :=
  record_call c;; lift answer.

(** ** Operations on Python values *)
Module Py.

Definition alloc (o : obj) : M val :=
  h ← get_heap; set_heap (h ++ [o]);; mret (VRef (length h)).

Definition deref (a : nat) : M obj :=
  h ← get_heap;
  match h !! a with
  | Some o => mret o
  | None => stuck
  end.

(** [bool(v)] *)
Definition truthy (v : val) : M bool :=
  match v with
  | VNone => mret false
  | VBool b => mret b
  | VInt n => mret (negb (n =? 0))
  | VStr s => mret (negb (String.eqb s EmptyString))
  | VRef a =>
      o ← deref a;
      match o with
      | ODict [] | OList [] => mret false
      | _ => mret true
      end
  end.

(** [s in container] for a string [s]: a key of a dict, an element of
    a list, a substring of a string. *)
Definition str_in (s : string) (container : val) : M bool :=
  match container with
  | VRef a =>
      o ← deref a;
      match o with
      | ODict d => mret (bool_decide (is_Some (Dict.get s d)))
      | OList l => mret (bool_decide (VStr s ∈ l))
      end
  | VStr t => mret (Str.contains s t)
  | _ => raise TypeError
  end.

(** [container[k]] for a string [k] *)
Definition getitem (container : val) (k : string) : M val :=
  match container with
  | VRef a =>
      o ← deref a;
      match o with
      | ODict d =>
          match Dict.get k d with
          | Some v => mret v
          | None => raise KeyError
          end
      | OList _ => raise TypeError
      end
  | _ => raise TypeError
  end.

(** [container.get(k)], [None] when the key is not bound *)
Definition get (container : val) (k : string) : M val :=
  match container with
  | VRef a =>
      o ← deref a;
      match o with
      | ODict d => mret (default VNone (Dict.get k d))
      | OList _ => raise AttributeError
      end
  | _ => raise AttributeError
  end.

(** [container.get(k, dflt)] *)
Definition get_default (container : val) (k : string) (dflt : val) : M val :=
  match container with
  | VRef a =>
      o ← deref a;
      match o with
      | ODict d => mret (default dflt (Dict.get k d))
      | OList _ => raise AttributeError
      end
  | _ => raise AttributeError
  end.

(** [container[k] = v] for a string [k]: the object is updated in place. *)
Definition setitem (container : val) (k : string) (v : val) : M unit :=
  match container with
  | VRef a =>
      o ← deref a;
      match o with
      | ODict d => h ← get_heap; set_heap (<[a := ODict (Dict.set k v d)]> h)
      | OList _ => raise TypeError
      end
  | _ => raise TypeError
  end.

(** [container.items()] *)
Definition items (container : val) : M (list (string * val)) :=
  match container with
  | VRef a =>
      o ← deref a;
      match o with
      | ODict d => mret (Dict.items d)
      | OList _ => raise AttributeError
      end
  | _ => raise AttributeError
  end.

(** [{name: f(name, value) for name, value in container.items()}],
    before the new dict is allocated.  Python walks the live dict; the
    embedding walks the entries read at the start and leaves the model
    when a call of [f] has changed the dict under the loop. *)
Fixpoint comprehension_from (f : string → val → M val) (container : val)
    (all todo : list (string * val)) : M (list (string * val)) :=
  match todo with
  | [] => mret []
  | (name, value) :: rest =>
      v ← f name value;
      now ← items container;
      if decide (now = all)
      then vs ← comprehension_from f container all rest; mret ((name, v) :: vs)
      else stuck
  end.

Definition comprehension (f : string → val → M val) (container : val) : M val :=
  all ← items container;
  vs ← comprehension_from f container all all;
  alloc (ODict vs).

(** [len(v)] *)
Definition len (v : val) : M nat :=
  match v with
  | VRef a =>
      o ← deref a;
      match o with
      | ODict d => mret (length (Dict.items d))
      | OList l => mret (length l)
      end
  | VStr s => mret (String.length s)
  | _ => raise TypeError
  end.

(** [container[0]] *)
Definition first (container : val) : M val :=
  match container with
  | VRef a =>
      o ← deref a;
      match o with
      | ODict _ => raise KeyError
      | OList l =>
          match l with
          | v :: _ => mret v
          | [] => raise IndexError
          end
      end
  | VStr (String c _) => mret (VStr (String c EmptyString))
  | VStr EmptyString => raise IndexError
  | _ => raise TypeError
  end.

(** [for x in container]: the elements of a list, the keys of a dict,
    the characters of a string. *)
Definition iterate (container : val) : M (list val) :=
  match container with
  | VRef a =>
      o ← deref a;
      match o with
      | ODict d => mret (map (λ kv, VStr kv.1) (Dict.items d))
      | OList l => mret l
      end
  | VStr s => mret (map (λ c, VStr (String c EmptyString)) (list_ascii_of_string s))
  | _ => raise TypeError
  end.

(** [f'{v}'] for a value that is a string *)
Definition as_str (v : val) : M string :=
  match v with
  | VStr s => mret s
  | _ => stuck
  end.

(** The elements of an array, read one after the other by [loads]. *)
Definition loads_elems (loads : json → list obj → val * list obj) :=
  fix go (l : list json) (h : list obj) : list val * list obj :=
    match l with
    | [] => ([], h)
    | x :: r =>
        let '(v, h1) := loads x h in
        let '(vs, h2) := go r h1 in
        (v :: vs, h2)
    end.

(** The members of an object, read one after the other by [loads] into
    the dict [d]. *)
Definition loads_members (loads : json → list obj → val * list obj) :=
  fix go (l : list (string * json)) (d : list (string * val)) (h : list obj)
      : list (string * val) * list obj :=
    match l with
    | [] => (d, h)
    | (k, x) :: r =>
        let '(v, h1) := loads x h in
        go r (Dict.set k v d) h1
    end.

(** [json.loads(text)], from the parsed document: every array and
    object is a new object in the store; of a repeated member name the
    last value is kept. *)
Fixpoint loads (j : json) (h : list obj) : val * list obj :=
  match j with
  | JNull => (VNone, h)
  | JBool b => (VBool b, h)
  | JNum n => (VInt n, h)
  | JStr s => (VStr s, h)
  | JArr elems =>
      let '(vs, h') := loads_elems loads elems h in
      (VRef (length h'), (h' ++ [OList vs])%list)
  | JObj members =>
      let '(d, h') := loads_members loads members [] h in
      (VRef (length h'), (h' ++ [ODict d])%list)
  end.

(** [json.dumps(v)], as the document written.  [None] when the budget
    runs out, which it does on a cyclic value. *)
Fixpoint dumps (fuel : nat) (h : list obj) (v : val) : option json :=
  match v with
  | VNone => Some JNull
  | VBool b => Some (JBool b)
  | VInt n => Some (JNum n)
  | VStr s => Some (JStr s)
  | VRef a =>
      match fuel with
      | O => None
      | S fuel' =>
          match h !! a with
          | None => None
          | Some (OList l) => JArr <$> mapM (dumps fuel' h) l
          | Some (ODict d) =>
              JObj <$> mapM (λ kv, pair kv.1 <$> dumps fuel' h kv.2) (Dict.items d)
          end
      end
  end.

End Py.

(** ** The project *)

Definition SETTINGS_FILENAME := ".rpdk-config".
Definition SCHEMA_UPLOAD_FILENAME := "schema.json".
Definition OVERRIDES_FILENAME := "overrides.json".
Definition ROLE_TEMPLATE_FILENAME := "resource-role.yaml".

Definition DEFAULT_ROLE_TIMEOUT_MINUTES : Z := 120.
Definition MIN_ROLE_TIMEOUT_SECONDS : Z := 3600.
Definition MAX_ROLE_TIMEOUT_SECONDS : Z := 43200.

Definition BASIC_TYPE_MAPPINGS (t : string) : option string :=
  if String.eqb t "string" then Some "String"
  else if String.eqb t "number" then Some "Double"
  else if String.eqb t "integer" then Some "Double"
  else if String.eqb t "boolean" then Some "Boolean"
  else None.

(** The attributes of [Project] the modelled methods read.  [schema] is
    [VNone] or the address of the loaded schema; [cwd] is the working
    directory relative paths are resolved against. *)
Record Project := {
  overwrite_enabled : bool;
  root : path;
  cwd : path;
  type_info : option (list string);
  schema : val
}.

(** What [safewrite] and [overwrite] are given: the text itself, or a
    callable that writes [written] to the open file and then returns or
    raises. *)
Inductive contents :=
| Contents (d : data)
| Callable (written : data) (failure : option exn).

Section Methods.

Variable self : Project.
Variable sv : services.

Definition type_name : M string :=
  match type_info self with
  | Some parts => mret (Str.join "::" parts)
  | None => raise TypeError
  end.

Definition hypenated_name : M string :=
  match type_info self with
  | Some parts => mret (Str.lower (Str.join "-" parts))
  | None => raise TypeError
  end.

Definition schema_filename : M string :=
  n ← hypenated_name; mret (n +:+ ".json").

Definition schema_path : M path :=
  f ← schema_filename; mret (root self ++ [f]).

Definition settings_path : path := root self ++ [SETTINGS_FILENAME].

Definition overrides_path : path := root self ++ [OVERRIDES_FILENAME].

(** The body of [with path.open(...) as f]: the text or the callable's
    output ends up in the file. *)
Definition write_contents (p : path) (c : contents) : M unit :=
  f ← get_fs;
  match c with
  | Contents d => set_fs (<[p := d]> f)
  | Callable d failure =>
      set_fs (<[p := d]> f);;
      match failure with
      | Some e => raise e
      | None => mret tt
      end
  end.

Definition overwrite (p : path) (c : contents) : M unit :=
  LOG DEBUG "Overwriting '%s'" [APath p];;
  write_contents p c.

(** Mode ["x"] refuses a path that exists. *)
Definition safewrite (p : path) (c : contents) : M unit :=
  if overwrite_enabled self then overwrite p c
  else
    try_except
      (f ← get_fs;
       match f !! p with
       | Some _ => raise FileExistsError
       | None => write_contents p c
       end)
      (λ e, match e with
            | FileExistsError =>
                Some (LOG WARNING "File already exists, not overwriting '%s'" [APath p])
            | _ => None
            end).

End Methods.

(** ** Reference resolution

    [jsonschema.RefResolver.from_schema(root).resolve(ref)[1]] for a
    reference into the root document itself ([#] followed by a JSON
    pointer).  The object found is returned as it is, not copied.
    References to other documents and percent-escapes leave the model. *)
Module RefResolver.

Fixpoint lstrip (c : ascii) (s : string) : string :=
  match s with
  | String d r => if Ascii.eqb d c then lstrip c r else s
  | EmptyString => s
  end.

Definition digit (c : ascii) : option nat :=
  let n := nat_of_ascii c in
  if (Nat.leb 48 n && Nat.leb n 57)%bool then Some (n - 48)%nat else None.

Fixpoint parse_digits (acc : nat) (s : string) : option nat :=
  match s with
  | EmptyString => Some acc
  | String c r =>
      match digit c with
      | Some d => parse_digits (10 * acc + d)%nat r
      | None => None
      end
  end.

(** [int(part)] for a string of decimal digits *)
Definition parse_index (s : string) : option nat :=
  match s with
  | EmptyString => None
  | _ => parse_digits 0%nat s
  end.

Fixpoint resolve_fragment (parts : list string) (document : val) : M val :=
  match parts with
  | [] => mret document
  | part :: rest =>
      let part := Str.replace2 "~" "0" "~" (Str.replace2 "~" "1" "/" part) in
      match document with
      | VRef a =>
          o ← Py.deref a;
          match o with
          | ODict d =>
              match Dict.get part d with
              | Some v => resolve_fragment rest v
              | None => raise RefResolutionError
              end
          | OList l =>
              match parse_index part with
              | Some i =>
                  match l !! i with
                  | Some v => resolve_fragment rest v
                  | None => raise RefResolutionError
                  end
              | None => stuck
              end
          end
      | VStr _ => stuck
      | _ => raise RefResolutionError
      end
  end.

Definition resolve (root : val) (ref : val) : M val :=
  match ref with
  | VStr (String "#" fragment) =>
      if Str.has_char "%" fragment then stuck
      else
        let fragment := lstrip "/" fragment in
        resolve_fragment
          (match fragment with
           | EmptyString => []
           | _ => Str.split "/" fragment
           end) root
  | _ => stuck
  end.

End RefResolver.

(** ** The documentation generator *)

Definition dquote : string := String "034"%char EmptyString.
Definition newline : string := String "010"%char EmptyString.

Section Docs.

Variable self : Project.

Definition docs_path : path := root self ++ ["docs"].

(** [key in self.schema and ptr in self.schema[key]] *)
Definition listed_in (key ptr : string) : M bool :=
  present ← Py.str_in key (schema self);
  if present : bool then
    l ← Py.getitem (schema self) key;
    Py.str_in ptr l
  else mret false.

Definition subproperty_filename (proppath : list string) : string :=
  Str.lower (Str.join "-" proppath) +:+ ".md".

Definition href (filename propname : string) : string :=
  "<a href=" +:+ dquote +:+ filename +:+ dquote +:+ ">" +:+ propname +:+ "</a>".

Fixpoint _set_docs_properties (fuel : nat) (propname : string) (prop : val)
    (proppath : list string) {struct fuel} : M val :=
  match fuel with
  | O => stuck
  | S fuel =>
      has_ref ← Py.str_in "$ref" prop;
      prop ← (if has_ref : bool
              then r ← Py.getitem prop "$ref"; RefResolver.resolve (schema self) r
              else mret prop);
      let proppath_ptr := Pointer.fragment_encode ("properties" :: proppath) EmptyString in
      createonly ← listed_in "createOnlyProperties" proppath_ptr;
      (if createonly : bool then Py.setitem prop "createonly" (VBool true) else mret tt);;
      readonly ← listed_in "readOnlyProperties" proppath_ptr;
      (if readonly : bool then Py.setitem prop "readonly" (VBool true) else mret tt);;
      prop_type ← Py.get_default prop "type" (VStr "object");
      match prop_type with
      | VRef _ => raise TypeError
      | _ =>
          match (match prop_type with VStr t => BASIC_TYPE_MAPPINGS t | _ => None end) with
          | Some mapped =>
              Py.setitem prop "jsontype" (VStr mapped);;
              Py.setitem prop "yamltype" (VStr mapped);;
              Py.setitem prop "longformtype" (VStr mapped)
          | None =>
              if decide (prop_type = VStr "array") then
                items ← Py.getitem prop "items";
                arrayitems ← _set_docs_properties fuel propname items proppath;
                Py.setitem prop "arrayitems" arrayitems;;
                j ← Py.getitem arrayitems "jsontype";
                j ← Py.as_str j;
                Py.setitem prop "jsontype" (VStr ("[ " +:+ j +:+ ", ... ]"));;
                l ← Py.getitem arrayitems "longformtype";
                l ← Py.as_str l;
                Py.setitem prop "yamltype" (VStr (newline +:+ "      - " +:+ l));;
                l ← Py.getitem arrayitems "longformtype";
                l ← Py.as_str l;
                Py.setitem prop "longformtype" (VStr ("List of " +:+ l))
              else if decide (prop_type = VStr "object") then
                p ← Py.get prop "properties";
                t ← Py.truthy p;
                object_properties ←
                  (if t : bool then mret p
                   else
                     p ← Py.get prop "patternProperties";
                     t ← Py.truthy p;
                     if t : bool then mret p else Py.alloc (ODict []));
                members ← Py.comprehension
                  (λ name value, _set_docs_properties fuel name value (proppath ++ [name]))
                  object_properties;
                Py.setitem prop "properties" members;;
                let subproperty_name := Str.join " " proppath in
                let subproperty_filename := subproperty_filename proppath in
                let subproperty_path := docs_path ++ [subproperty_filename] in
                LOG DEBUG "Writing docs %s: %s" [AStr subproperty_filename; APath subproperty_path];;
                tn ← type_name self;
                h ← get_heap;
                let contents := DocsSubpropertyMd tn subproperty_name prop h in
                record_side_artifact proppath subproperty_path;;
                safewrite self subproperty_path (Contents contents);;
                let href := href subproperty_filename propname in
                Py.setitem prop "jsontype" (VStr href);;
                Py.setitem prop "yamltype" (VStr href);;
                Py.setitem prop "longformtype" (VStr href)
              else
                Py.setitem prop "jsontype" (VStr "Unknown");;
                Py.setitem prop "yamltype" (VStr "Unknown");;
                Py.setitem prop "longformtype" (VStr "Unknown")
          end
      end;;
      has_enum ← Py.str_in "enum" prop;
      (if has_enum : bool
       then e ← Py.getitem prop "enum"; Py.setitem prop "allowedvalues" e
       else mret tt);;
      mret prop
  end.

End Docs.

(** Modelled from the spec: [jsonutils/utils.py] is not among the sources.
    [traverse(document, path_parts)] follows the segments from the
    document: a dict by key, a list by position.  Only the value reached
    is kept.  A segment that is not a plain decimal, applied to a list,
    leaves the model. *)
Fixpoint traverse (document : val) (path_parts : list string) : M val :=
  match path_parts with
  | [] => mret document
  | part :: rest =>
      match document with
      | VRef a =>
          o ← Py.deref a;
          match o with
          | ODict d =>
              match Dict.get part d with
              | Some v => traverse v rest
              | None => raise KeyError
              end
          | OList l =>
              match RefResolver.parse_index part with
              | Some i =>
                  match l !! i with
                  | Some v => traverse v rest
                  | None => raise IndexError
                  end
              | None => stuck
              end
          end
      | VStr _ => stuck
      | _ => raise TypeError
      end
  end.

Section DocsTop.

Variable self : Project.

Definition _get_docs_primary_identifier (docs_schema : val) : M (option string) :=
  try_except
    (primary_id ← Py.getitem docs_schema "primaryIdentifier";
     n ← Py.len primary_id;
     if decide (n = 1%nat) then
       entry ← Py.first primary_id;
       match entry with
       | VStr pointer =>
           decoded ← lift (Pointer.fragment_decode pointer EmptyString);
           (* drop /properties *)
           let primary_id_path := tail decoded in
           match primary_id_path with
           | [name] => mret (Some name)
           | _ => LOG WARNING "Nested primaryIdentifier found" [];; mret None
           end
       | _ => raise AttributeError
       end
     else mret None)
    (λ e, match e with
          | KeyError | ValueError => Some (mret None)
          | _ => None
          end).

Definition _get_property_description (docs_schema : val) (prop : val) : M (string * val) :=
  match prop with
  | VStr pointer =>
      path ← lift (Pointer.fragment_decode pointer EmptyString);
      match last path with
      | None => raise IndexError
      | Some name =>
          desc ← try_except
            (traverse docs_schema (path ++ ["description"]))
            (λ e, match e with
                  | KeyError | IndexError | ValueError =>
                      Some (mret (VStr ("Returns the <code>" +:+ name +:+ "</code> value.")))
                  | _ => None
                  end);
          mret (name, desc)
      end
  | _ => raise AttributeError
  end.

Fixpoint for_each {A B} (f : A → M B) (l : list A) : M (list B) :=
  match l with
  | [] => mret []
  | x :: r => y ← f x; ys ← for_each f r; mret (y :: ys)
  end.

Definition _get_docs_gettable_atts (docs_schema : val) : M (list (string * val)) :=
  empty ← Py.alloc (OList []);
  props ← Py.get_default docs_schema "readOnlyProperties" empty;
  props ← Py.iterate props;
  for_each (_get_property_description docs_schema) props.

(** [shutil.rmtree(dir, ignore_errors=True)]: what lies below [dir] goes;
    a plain file at [dir] itself is an error, which is ignored. *)
Definition rmtree (dir : path) : M unit :=
  f ← get_fs;
  set_fs (filter (λ kv, ¬ (dir `prefix_of` kv.1 ∧ kv.1 ≠ dir)) f).

(** [dir.mkdir(exist_ok=True)]: directories are implicit in the file
    system; a plain file in the way is refused. *)
Definition mkdir_exist_ok (dir : path) : M unit :=
  f ← get_fs;
  match f !! dir with
  | Some _ => raise FileExistsError
  | None => mret tt
  end.

Definition generate_docs (fuel : nat) : M unit :=
  let docs_path := docs_path self in
  let no_type_info := match type_info self with None | Some [] => true | _ => false end in
  missing ← (if no_type_info : bool then mret true
             else
               has_schema ← Py.truthy (schema self);
               if negb has_schema then mret true
               else negb <$> Py.str_in "properties" (schema self));
  if missing : bool then
    LOG WARNING "Could not generate schema docs due to missing type info or schema" []
  else
    LOG DEBUG "Removing generated docs: %s" [APath docs_path];;
    rmtree docs_path;;
    mkdir_exist_ok docs_path;;
    LOG DEBUG "Writing generated docs" [];;
    (* take care not to modify the master schema *)
    h ← get_heap;
    docs_schema ← match Py.dumps (S (length h)) h (schema self) with
                  | Some j =>
                      let '(v, h') := Py.loads j h in
                      set_heap h';; mret v
                  | None => stuck
                  end;
    properties ← Py.getitem docs_schema "properties";
    documented ← Py.comprehension
      (λ name value, _set_docs_properties self fuel name value [name])
      properties;
    Py.setitem docs_schema "properties" documented;;
    LOG DEBUG "Finished documenting nested properties" [];;
    ref ← _get_docs_primary_identifier docs_schema;
    getatt ← _get_docs_gettable_atts docs_schema;
    let readme_path := docs_path ++ ["README.md"] in
    LOG DEBUG "Writing docs README: %s" [APath readme_path];;
    tn ← type_name self;
    h ← get_heap;
    safewrite self readme_path (Contents (DocsReadmeMd tn docs_schema ref getatt h)).

End DocsTop.

(** ** The IAM role template *)

(** Python orders strings by code point; on UTF-8 bytes that is the
    order of the bytes. *)
Definition str_le (a b : string) : Prop := String_as_OT.compare a b ≠ Gt.

Global Instance str_le_dec : RelDecision str_le.
Proof. intros a b. unfold str_le. apply _. Defined.

(** [sorted(s)] for a set of strings *)
Definition sorted (s : gset string) : list string :=
  merge_sort str_le (elements s).

(** A handler of the schema, as the resource schema admits it: the
    permissions are strings and the timeout is an integer. *)
Record Handler := {
  permissions : option (list string);
  timeoutInMinutes : option Z
}.

Definition as_strings (l : list val) : option (list string) :=
  mapM (λ v, match v with VStr s => Some s | _ => None end) l.

Definition handler_of (h : list obj) (v : val) : option Handler :=
  match v with
  | VRef a =>
      match h !! a with
      | Some (ODict d) =>
          perms ← match Dict.get "permissions" d with
                  | None => Some None
                  | Some (VRef l) =>
                      match h !! l with
                      | Some (OList vs) => Some <$> as_strings vs
                      | _ => None
                      end
                  | Some _ => None
                  end;
          timeout ← match Dict.get "timeoutInMinutes" d with
                    | None => Some None
                    | Some (VInt n) => Some (Some n)
                    | Some _ => None
                    end;
          Some {| permissions := perms; timeoutInMinutes := timeout |}
      | _ => None
      end
  | _ => None
  end.

(** The handlers of the schema in the order of the dict; [None] when the
    value is not a handler map of the resource schema. *)
Definition handlers_of (h : list obj) (v : val) : option (list (string * Handler)) :=
  match v with
  | VRef a =>
      match h !! a with
      | Some (ODict d) =>
          mapM (λ kv, pair kv.1 <$> handler_of h kv.2) (Dict.items d)
      | _ => None
      end
  | _ => None
  end.

(** [{action for handler in handlers.values()
             for action in handler.get("permissions", [])}] *)
Definition handler_actions (handlers : list (string * Handler)) : gset string :=
  list_to_set (handlers ≫= λ oh, default [] (permissions oh.2)).

(** [max((handler.get("timeoutInMinutes", DEFAULT) ...), default=DEFAULT)] *)
Definition max_handler_timeout (handlers : list (string * Handler)) : Z :=
  match map (λ oh, default DEFAULT_ROLE_TIMEOUT_MINUTES (timeoutInMinutes oh.2)) handlers with
  | [] => DEFAULT_ROLE_TIMEOUT_MINUTES
  | t :: ts => foldl Z.max t ts
  end.

Definition role_session_timeout (handlers : list (string * Handler)) : Z :=
  Z.min MAX_ROLE_TIMEOUT_SECONDS
    (Z.max MIN_ROLE_TIMEOUT_SECONDS (70 * max_handler_timeout handlers)).

(** The sorted actions and the permission handed to the template. *)
Definition role_statement (handlers : list (string * Handler)) : list string * string :=
  let actions := handler_actions handlers in
  (* gets rid of any empty string actions *)
  let actions := actions ∖ {[ EmptyString ]} in
  if decide (actions = ∅) then (sorted {[ "*" ]}, "Deny")
  else (sorted actions, "Allow").

Section Generate.

Variable self : Project.
Variable sv : services.

Definition generate : M unit :=
  has_handlers ← Py.str_in "handlers" (schema self);
  (if has_handlers : bool then
     handlers ← Py.getitem (schema self) "handlers";
     let path := root self ++ [ROLE_TEMPLATE_FILENAME] in
     LOG DEBUG "Writing Resource Role CloudFormation template: %s" [APath path];;
     h ← get_heap;
     match handlers_of h handlers with
     | None => stuck
     | Some handlers =>
         let role_session_timeout := role_session_timeout handlers in
         let '(actions, permission) := role_statement handlers in
         name ← hypenated_name self;
         overwrite path
           (Contents (ResourceRoleYml name actions permission role_session_timeout))
     end
   else mret tt);;
  lift (plugin_generate sv).

End Generate.

(** ** Packaging and registration *)

(** [response[k]] *)
Fixpoint response_get (k : string) (r : response) : option string :=
  match r with
  | [] => None
  | (k', v) :: r => if String.eqb k' k then Some v else response_get k r
  end.

Section Submit.

Variable self : Project.
Variable sv : services.

Definition _wait_for_registration (registration_token : string) (set_default : bool)
    : M unit :=
  try_except
    (LOG WARNING
       "Successfully submitted type. Waiting for registration with token '%s' to complete."
       [AStr registration_token];;
     remote (WaiterWait registration_token) (waiter_wait sv registration_token))
    (λ e, match e with
          | WaiterError _ => Some (
              LOG WARNING "Failed to register the type with registration token '%s'."
                [AStr registration_token];;
              response ← try_except
                (remote (DescribeTypeRegistration registration_token)
                   (describe_type_registration sv registration_token))
                (λ describe_error,
                   match describe_error with
                   | ClientError _ => Some (
                       LOG DEBUG "Describing type registration resulted in unknown ClientError"
                         [AExcInfo e];;
                       raise (DownstreamError "Error describing type registration"
                                describe_error))
                   | _ => None
                   end);
              LOG WARNING "Please see response for additional information: '%s'"
                [AResponse response];;
              raise (DownstreamError "Type registration error" e))
          | _ => None
          end);;
  LOG WARNING "Registration complete." [];;
  response ← remote (DescribeTypeRegistration registration_token)
               (describe_type_registration sv registration_token);
  (* [LOG.warning(response)]: the response is the message itself *)
  LOG WARNING "%s" [AResponse response];;
  if set_default then
    match response_get "TypeVersionArn" response with
    | Some arn =>
        try_except
          (remote (SetTypeDefaultVersion arn) (set_type_default_version sv arn))
          (λ e, match e with
                | ClientError _ => Some (
                    LOG DEBUG "Setting default version resulted in unknown ClientError"
                      [AExcInfo e];;
                    raise (DownstreamError "Error setting default version" e))
                | _ => None
                end);;
        LOG WARNING "Set default version to '%s" [AStr arn]
    | None => raise KeyError
    end
  else mret tt.

(** [bool(role_arn)] *)
Definition supplied (role_arn : option string) : bool :=
  match role_arn with
  | None => false
  | Some arn => negb (String.eqb arn EmptyString)
  end.

(** [fileobj] is given by the entries of the archive it holds.  The
    clients and the uploader are built in the process once the session
    exists. *)
Definition _upload (fileobj : list (string * data))
    (endpoint_url region_name role_arn : option string) (use_role set_default : bool)
    : M unit :=
  LOG DEBUG "Packaging complete, uploading..." [];;
  session_region ← remote (CreateSdkSession region_name) (create_sdk_session sv region_name);
  LOG DEBUG "Uploading to region '%s'" [AStr session_region];;
  provision ← (if (use_role && negb (supplied role_arn))%bool
               then Py.str_in "handlers" (schema self)
               else mret false);
  role_arn ← (if provision : bool then
                LOG DEBUG "Creating execution role for provider to use" [];;
                name ← hypenated_name self;
                let template_path := root self ++ [ROLE_TEMPLATE_FILENAME] in
                arn ← remote (CreateOrUpdateRole template_path name)
                        (create_or_update_role sv template_path name);
                mret (Some arn)
              else mret role_arn);
  name ← hypenated_name self;
  s3_url ← remote (UploaderUpload name fileobj) (uploader_upload sv name fileobj);
  LOG DEBUG "Got S3 URL: %s" [AStr s3_url];;
  log_delivery_role ← remote GetLogDeliveryRoleArn (get_log_delivery_role_arn sv);
  LOG DEBUG "Got Log Role: %s" [AStr log_delivery_role];;
  tn ← type_name self;
  name ← hypenated_name self;
  let kwargs := {|
    kw_Type := "RESOURCE";
    kw_TypeName := tn;
    kw_SchemaHandlerPackage := s3_url;
    kw_ClientRequestToken := uuid4 sv;
    kw_LogRoleArn := log_delivery_role;
    kw_LogGroupName := name +:+ "-logs";
    kw_ExecutionRoleArn := if (supplied role_arn && use_role)%bool then role_arn else None
  |} in
  response ← try_except
    (remote (RegisterType kwargs) (register_type sv kwargs))
    (λ e, match e with
          | ClientError _ => Some (
              LOG DEBUG "Registering type resulted in unknown ClientError" [AExcInfo e];;
              raise (DownstreamError "Unknown CloudFormation error" e))
          | _ => None
          end);
  match response_get "RegistrationToken" response with
  | Some token => _wait_for_registration token set_default
  | None => raise KeyError
  end.

(** [zip_file.write(src, arcname)]; [target] is the named file the
    archive is written through to, if there is one. *)
Definition zip_write (target : option path) (entries : list (string * data))
    (src : path) (arcname : string) : M (list (string * data)) :=
  f ← get_fs;
  match f !! src with
  | None => raise FileNotFoundError
  | Some d =>
      let entries := entries ++ [(arcname, d)] in
      match target with
      | Some p => set_fs (<[p := ZipFile entries]> f)
      | None => mret tt
      end;;
      mret entries
  end.

(** The language plugin adds its entries to the archive, or raises. *)
Definition package (target : option path) (entries : list (string * data))
    : M (list (string * data)) :=
  added ← lift (plugin_package sv);
  let entries := entries ++ added in
  f ← get_fs;
  match target with
  | Some p => set_fs (<[p := ZipFile entries]> f)
  | None => mret tt
  end;;
  mret entries.

Definition submit (dry_run : bool) (endpoint_url region_name role_arn : option string)
    (use_role set_default : bool) : M unit :=
  (* if it's a dry run, keep the file; otherwise can delete after upload *)
  target ← (if dry_run then
              name ← hypenated_name self;
              let path := cwd self ++ [name +:+ ".zip"] in
              f ← get_fs;
              set_fs (<[path := ZipFile []]> f);;
              mret (Some path)
            else mret None);
  schema_path ← schema_path self;
  entries ← zip_write target [] schema_path SCHEMA_UPLOAD_FILENAME;
  entries ← zip_write target entries (settings_path self) SETTINGS_FILENAME;
  entries ← try_except
    (entries ← zip_write target entries (overrides_path self) OVERRIDES_FILENAME;
     LOG DEBUG "%s found. Writing to package." [AStr OVERRIDES_FILENAME];;
     mret entries)
    (λ e, match e with
          | FileNotFoundError => Some (
              LOG DEBUG "%s not found. Not writing to package." [AStr OVERRIDES_FILENAME];;
              mret entries)
          | _ => None
          end);
  entries ← package target entries;
  match target with
  | Some path => LOG ERROR "Dry run complete: %s" [APath path]
  | None => _upload entries endpoint_url region_name role_arn use_role set_default
  end.

End Submit.

(** ** The words of the specification *)

(** [clamp(x, lo, hi)] *)
Definition clamp (x lo hi : Z) : Z :=
  if x <? lo then lo else if hi <? x then hi else x.

(** The timeout a handler declares, 120 minutes when it declares none. *)
Definition declared_timeout (h : Handler) : Z :=
  default DEFAULT_ROLE_TIMEOUT_MINUTES (timeoutInMinutes h).

(** An action some handler lists, the empty string apart. *)
Definition listed_action (handlers : list (string * Handler)) (a : string) : Prop :=
  a ≠ EmptyString ∧
  ∃ oh perms, oh ∈ handlers ∧ permissions oh.2 = Some perms ∧ a ∈ perms.

(** ** Sample projects *)

(** The world in which a schema has just been loaded: the store holds
    the document and nothing else has happened. *)
Definition loaded (j : json) (files : gmap path data) : world :=
  World (Py.loads j []).2 files [] [] [].

Definition project_on (j : json) (overwrite : bool) : Project := {|
  overwrite_enabled := overwrite;
  root := ["project"];
  cwd := ["project"];
  type_info := Some ["Initech"; "TPS"; "Report"];
  schema := (Py.loads j []).1
|}.

(** Collaborators that answer every call. *)
Definition obliging : services := {|
  create_sdk_session := λ _, Ok "us-east-1";
  create_or_update_role := λ _ _, Ok "arn:role";
  uploader_upload := λ _ _, Ok "s3://bucket/key";
  get_log_delivery_role_arn := Ok "arn:logs";
  uuid4 := "token-1";
  register_type := λ _, Ok [("RegistrationToken", "reg-1")];
  waiter_wait := λ _, Ok tt;
  describe_type_registration := λ _, Ok [("TypeVersionArn", "arn:type/1")];
  set_type_default_version := λ _, Ok tt;
  plugin_package := Ok [("code.zip", Text "code")];
  plugin_generate := Ok tt
|}.

(** A schema whose handlers declare permissions and no timeout. *)
Definition schema_with_handlers : json :=
  JObj [("typeName", JStr "Initech::TPS::Report");
        ("properties", JObj [("id", JObj [("type", JStr "string")])]);
        ("primaryIdentifier", JArr [JStr "/properties/id"]);
        ("handlers", JObj [("create", JObj [("permissions", JArr [JStr "a:b"])]);
                           ("read", JObj [("permissions", JArr [])])])].

(** The same schema without handlers. *)
Definition schema_without_handlers : json :=
  JObj [("typeName", JStr "Initech::TPS::Report");
        ("properties", JObj [("id", JObj [("type", JStr "string")])]);
        ("primaryIdentifier", JArr [JStr "/properties/id"])].

(** Schemas for the primary identifier: two entries, one nested entry. *)
Definition schema_two_identifiers : json :=
  JObj [("properties", JObj [("a", JObj [("type", JStr "string")]);
                             ("b", JObj [("type", JStr "string")])]);
        ("primaryIdentifier", JArr [JStr "/properties/a"; JStr "/properties/b"])].

Definition schema_nested_identifier : json :=
  JObj [("properties", JObj [("a", JObj [("type", JStr "object")])]);
        ("primaryIdentifier", JArr [JStr "/properties/a/b"])].

(** The world after [LOG.warning("Nested primaryIdentifier found")]. *)
Definition warned_nested (w : world) : world :=
  logged (Log WARNING "Nested primaryIdentifier found" []) w.

(** ** Samples for the registration pipeline *)

(** The registry's answer to the diagnostic read after a failed wait. *)
Definition failure_response : response :=
  [("ProgressStatus", "FAILED");
   ("Description", "Deployment is currently in DEPLOY_STAGE of status FAILED")].

(** Collaborators whose waiter reports failure. *)
Definition failing_waiter : services := {|
  create_sdk_session := λ _, Ok "us-east-1";
  create_or_update_role := λ _ _, Ok "arn:role";
  uploader_upload := λ _ _, Ok "s3://bucket/key";
  get_log_delivery_role_arn := Ok "arn:logs";
  uuid4 := "token-1";
  register_type := λ _, Ok [("RegistrationToken", "reg-1")];
  waiter_wait := λ _, Raise (WaiterError "Waiter encountered a terminal failure state");
  describe_type_registration := λ _, Ok failure_response;
  set_type_default_version := λ _, Ok tt;
  plugin_package := Ok [("code.zip", Text "code")];
  plugin_generate := Ok tt
|}.

(** The message of a downstream failure. *)
Definition downstream_message (o : outcome unit) : option string :=
  match o with
  | Raise (DownstreamError msg _) => Some msg
  | _ => None
  end.

(** The steps of the pipeline a call belongs to. *)
Inductive step :=
| Session | RoleProvisioned | Uploaded | LogRole | Registering | Waiting | Described | DefaultSet.

Global Instance step_eq_dec : EqDecision step.
Proof. solve_decision. Defined.

Definition step_of (c : call) : step :=
  match c with
  | CreateSdkSession _ => Session
  | CreateOrUpdateRole _ _ => RoleProvisioned
  | UploaderUpload _ _ => Uploaded
  | GetLogDeliveryRoleArn => LogRole
  | RegisterType _ => Registering
  | WaiterWait _ => Waiting
  | DescribeTypeRegistration _ => Described
  | SetTypeDefaultVersion _ => DefaultSet
  end.

(** The order in which [_upload] makes its calls when nothing fails. *)
Definition upload_order (provision set_default : bool) : list step :=
  [Session] ++ (if provision then [RoleProvisioned] else [])
  ++ [Uploaded; LogRole; Registering; Waiting; Described]
  ++ (if set_default then [DefaultSet] else []).

(** [x] occurs in [l] and no [y] occurs before it. *)
Fixpoint comes_first (x y : step) (l : list step) : bool :=
  match l with
  | [] => false
  | z :: r =>
      if decide (z = x) then true
      else if decide (z = y) then false
      else comes_first x y r
  end.

(** Every collaborator answers every call of the pipeline, with the
    registration token and the version that are read from its answers. *)
Definition answering (sv : services) : Prop :=
  (∀ template name, ∃ arn, create_or_update_role sv template name = Ok arn)
  ∧ (∀ name fileobj, ∃ url, uploader_upload sv name fileobj = Ok url)
  ∧ (∃ role, get_log_delivery_role_arn sv = Ok role)
  ∧ (∀ kwargs, ∃ response token,
       register_type sv kwargs = Ok response
       ∧ response_get "RegistrationToken" response = Some token)
  ∧ (∀ token, waiter_wait sv token = Ok tt)
  ∧ (∀ token, ∃ response arn,
       describe_type_registration sv token = Ok response
       ∧ response_get "TypeVersionArn" response = Some arn)
  ∧ (∀ arn, set_type_default_version sv arn = Ok tt).

(** The files of a project that has been initialised. *)
Definition project_files : gmap path data :=
  {[ ["project"; "initech-tps-report.json"] := Text "{ schema }";
     ["project"; ".rpdk-config"] := Text "{ settings }" ]}.

(** A computation that makes no remote call and changes no file other
    than [archive]. *)
Definition local_to {A} (archive : path) (m : M A) : Prop :=
  ∀ w, calls (m w).2 = calls w ∧ ∀ p, p ≠ archive → fs (m w).2 !! p = fs w !! p.

(** ** Relations between worlds, for the documentation walker *)

(** Every dict of [w] is still a dict in [w'], with the same [type]. *)
Definition type_stable (w w' : world) : Prop :=
  ∀ a d, heap w !! a = Some (ODict d) →
    ∃ d', heap w' !! a = Some (ODict d') ∧ Dict.get "type" d' = Dict.get "type" d.

(** Every file of [w] is still there in [w']. *)
Definition fs_grows (w w' : world) : Prop :=
  ∀ p, is_Some (fs w !! p) → is_Some (fs w' !! p).

(** From [w] to [w'] no side artifact was emitted. *)
Definition calm (w w' : world) : Prop :=
  side_artifacts w' = side_artifacts w ∧ type_stable w w' ∧ fs_grows w w'.

(** From [w] to [w'] the side artifacts [evs] were emitted, in this order. *)
Definition emits (w w' : world) (evs : list (list string * path)) : Prop :=
  side_artifacts w' = side_artifacts w ++ evs ∧ type_stable w w' ∧ fs_grows w w'.

(** A computation all of whose normal runs are calm. *)
Definition Calm {A} (m : M A) : Prop :=
  ∀ w a w', m w = (Ok a, w') → calm w w'.

(** A computation whose normal runs leave the state as it is. *)
Definition Pure {A} (m : M A) : Prop :=
  ∀ w a w', m w = (Ok a, w') → w' = w.

(** The node [v] of the store of [w] is a dict typed [object], by its
    [type] or by default. *)
Definition object_typed (w : world) (v : val) : Prop :=
  ∃ a d, v = VRef a ∧ heap w !! a = Some (ODict d)
    ∧ default (VStr "object") (Dict.get "type" d) = VStr "object".

(** The three display fields of the node [v] are all [text]. *)
Definition displays (w : world) (v : val) (text : string) : Prop :=
  ∃ a d, v = VRef a ∧ heap w !! a = Some (ODict d)
    ∧ Dict.get "jsontype" d = Some (VStr text)
    ∧ Dict.get "yamltype" d = Some (VStr text)
    ∧ Dict.get "longformtype" d = Some (VStr text).

(** The target of the side artifact of a property path. *)
Definition artifact_path (self : Project) (proppath : list string) : path :=
  docs_path self ++ [subproperty_filename proppath].

(** The side artifacts [evs]: no property path twice, every path below
    [proppath], every file named after its path and present in [w']. *)
Definition scoped (self : Project) (proppath : list string) (w' : world)
    (evs : list (list string * path)) : Prop :=
  NoDup (map fst evs)
  ∧ ∀ e, e ∈ evs →
      proppath `prefix_of` e.1
      ∧ e.2 = artifact_path self e.1
      ∧ is_Some (fs w' !! e.2).

(** A schema with an object property nested in an object property. *)
Definition schema_nested_objects : json :=
  JObj [("typeName", JStr "Initech::TPS::Report");
        ("properties",
         JObj [("Config",
                JObj [("type", JStr "object");
                      ("properties",
                       JObj [("Mode", JObj [("type", JStr "string")]);
                             ("Inner",
                              JObj [("type", JStr "object");
                                    ("properties",
                                     JObj [("Count", JObj [("type", JStr "integer")])])])])])])].

(** The node behind a pointer of the loaded schema. *)
Definition node_at (j : json) (pointer : list string) : val :=
  match RefResolver.resolve_fragment pointer (Py.loads j []).1 (loaded j ∅) with
  | (Ok v, _) => v
  | _ => VNone
  end.

(** A schema with a property that declares nothing at all. *)
Definition schema_bare_node : json :=
  JObj [("typeName", JStr "Initech::TPS::Report");
        ("properties", JObj [("Tags", JObj [("description", JStr "free form")])]);
        ("readOnlyProperties", JArr [JStr "/properties/Tags"])].

(** A node with no reference, no type and no members of either kind. *)
Definition bare_node (d : list (string * val)) : Prop :=
  Dict.get "$ref" d = None ∧ Dict.get "type" d = None
  ∧ Dict.get "properties" d = None ∧ Dict.get "patternProperties" d = None.

(** The pointer set [key] of the schema [sd] is absent or a list. *)
Definition pointer_list (w : world) (sd : list (string * val)) (key : string) : Prop :=
  match Dict.get key sd with
  | None => True
  | Some (VRef l) => ∃ xs, heap w !! l = Some (OList xs)
  | Some _ => False
  end.

(** ** Samples for documentation generation *)

(** Two properties that refer to one definition; [x] is create-only
    under [a] and not under [b]. *)
Definition definition_D : json :=
  JObj [("type", JStr "object");
        ("properties", JObj [("x", JObj [("type", JStr "string")])])].

Definition schema_with_ref : json :=
  JObj [("typeName", JStr "Initech::TPS::Report");
        ("properties", JObj [("b", JObj [("$ref", JStr "#/definitions/D")]);
                             ("a", JObj [("$ref", JStr "#/definitions/D")])]);
        ("definitions", JObj [("D", definition_D)]);
        ("createOnlyProperties", JArr [JStr "/properties/a/x"])].

(** The member of a JSON document behind a sequence of names. *)
Fixpoint json_get (names : list string) (j : json) : option json :=
  match names with
  | [] => Some j
  | k :: rest =>
      match j with
      | JObj members =>
          match list_find (λ kv, bool_decide (kv.1 = k)) members with
          | Some (_, (_, v)) => json_get rest v
          | None => None
          end
      | _ => None
      end
  end.

(** The [schema] argument a template was rendered with, as a document. *)
Definition template_schema (d : option data) : option json :=
  match d with
  | Some (DocsSubpropertyMd _ _ v h) | Some (DocsReadmeMd _ v _ _ h) =>
      Py.dumps (S (length h)) h v
  | _ => None
  end.

(** The master schema of a project, as a document. *)
Definition master_schema (self : Project) (w : world) : option json :=
  Py.dumps (S (length (heap w))) (heap w) (schema self).

(** ** Runs that stay related to the state they start in *)

(** Every run of [m], however it ends, leaves the state [R]-related to
    the one it started in. *)
Definition Always (R : world → world → Prop) {A} (m : M A) : Prop :=
  ∀ w, R w (m w).2.

(** The store of [w'] is the store of [w] with new objects added. *)
Definition grows (w w' : world) : Prop :=
  heap w `prefix_of` heap w'.

(** ** The copy of the schema that is documented *)

(** [v] is a scalar or one of the objects from the [n]th on. *)
Definition copied (n : nat) (v : val) : Prop :=
  match v with
  | VRef a => (n ≤ a)%nat
  | _ => True
  end.

Definition obj_vals (o : obj) : list val :=
  match o with
  | ODict d => d.*2
  | OList l => l
  end.

Definition no_ref_member (o : obj) : Prop :=
  match o with
  | ODict d => Dict.get "$ref" d = None
  | OList _ => True
  end.

(** From the [n]th on, the objects of [h] refer to each other only, and
    no dict among them has a [$ref] member. *)
Definition copy_region (n : nat) (h : list obj) : Prop :=
  ∀ a o, (n ≤ a)%nat → h !! a = Some o → Forall (copied n) (obj_vals o) ∧ no_ref_member o.

Definition copy_kept (n : nat) (w : world) : Prop :=
  (n ≤ length (heap w))%nat ∧ copy_region n (heap w).

(** The normal runs of [m] that start with such a copy end with one,
    leave the objects before the [n]th as they are, and return a value
    that satisfies [post]. *)
Definition Keeps (n : nat) {A} (post : A → Prop) (m : M A) : Prop :=
  ∀ w a w', m w = (Ok a, w') → copy_kept n w →
    copy_kept n w' ∧ take n (heap w') = take n (heap w) ∧ post a.

(** No object of the document has a member named [$ref]. *)
Fixpoint ref_free (j : json) : bool :=
  match j with
  | JArr elems => forallb ref_free elems
  | JObj members =>
      forallb (λ '(k, x), negb (String.eqb k "$ref") && ref_free x) members
  | _ => true
  end.

Section json_induction.

Variable P : json → Prop.
Hypothesis Hnull : P JNull.
Hypothesis Hbool : ∀ b, P (JBool b).
Hypothesis Hnum : ∀ n, P (JNum n).
Hypothesis Hstr : ∀ s, P (JStr s).
Hypothesis Harr : ∀ elems, Forall P elems → P (JArr elems).
Hypothesis Hobj : ∀ members, Forall (λ kv, P kv.2) members → P (JObj members).

(** Induction on documents, with the property at hand for every element
    and member. *)
Fixpoint json_induction (j : json) : P j :=
  match j with
  | JNull => Hnull
  | JBool b => Hbool b
  | JNum n => Hnum n
  | JStr s => Hstr s
  | JArr elems =>
      Harr elems
        ((fix go (l : list json) : Forall P l :=
            match l with
            | [] => List.Forall_nil P
            | x :: r => List.Forall_cons P x r (json_induction x) (go r)
            end) elems)
  | JObj members =>
      Hobj members
        ((fix go (l : list (string * json)) : Forall (λ kv, P kv.2) l :=
            match l with
            | [] => List.Forall_nil _
            | (k, x) :: r => List.Forall_cons _ (k, x) r (json_induction x) (go r)
            end) members)
  end.

End json_induction.

(** ** The handlers of a schema, in the words of the specification *)

(** The [permissions] list of a handler, as the strings it holds; a
    handler that declares none has no permissions. *)
Definition declared_permissions (h : list obj) (handler : val) : list string :=
  match handler with
  | VRef b =>
      match h !! b with
      | Some (ODict hd) =>
          match Dict.get "permissions" hd with
          | Some (VRef l) =>
              match h !! l with
              | Some (OList vs) =>
                  omap (λ v, match v with VStr s => Some s | _ => None end) vs
              | _ => []
              end
          | _ => []
          end
      | _ => []
      end
  | _ => []
  end.

(** The [timeoutInMinutes] of a handler, 120 minutes when it declares
    none. *)
Definition declared_minutes (h : list obj) (handler : val) : Z :=
  match handler with
  | VRef b =>
      match h !! b with
      | Some (ODict hd) =>
          match Dict.get "timeoutInMinutes" hd with
          | Some (VInt n) => n
          | _ => 120
          end
      | _ => 120
      end
  | _ => 120
  end.

(** The handler is as the resource schema types it: an object whose
    [permissions], when present, is an array of strings and whose
    [timeoutInMinutes], when present, is an integer. *)
Definition typed_handler (h : list obj) (handler : val) : bool :=
  match handler with
  | VRef b =>
      match h !! b with
      | Some (ODict hd) =>
          match Dict.get "permissions" hd with
          | None => true
          | Some (VRef l) =>
              match h !! l with
              | Some (OList vs) =>
                  forallb (λ v, match v with VStr _ => true | _ => false end) vs
              | _ => false
              end
          | Some _ => false
          end
          && match Dict.get "timeoutInMinutes" hd with
             | None | Some (VInt _) => true
             | Some _ => false
             end
      | _ => false
      end
  | _ => false
  end.

(** The schema of the specification's example: [create] with two
    permissions and 200 minutes, [read] with none and 30 minutes. *)
Definition schema_example_handlers : json :=
  JObj [("typeName", JStr "Initech::TPS::Report");
        ("properties", JObj [("id", JObj [("type", JStr "string")])]);
        ("handlers",
         JObj [("create", JObj [("permissions", JArr [JStr "a:b"; JStr "a:c"]);
                                ("timeoutInMinutes", JNum 200)]);
               ("read", JObj [("permissions", JArr []);
                              ("timeoutInMinutes", JNum 30)])])].

(** ** Schema nodes the walker documents

    A property schema as the walker passes through it: what it looks
    at and which side artifacts it is to write. *)












(** ** Runs and the files they leave *)

(** From [w] to [w'] no file was written or removed. *)
Definition same_files (w w' : world) : Prop :=
  fs w' = fs w.


(** Collaborators whose registry cannot be asked for the status. *)
Definition silent_registry : services := {|
  create_sdk_session := λ _, Ok "us-east-1";
  create_or_update_role := λ _ _, Ok "arn:role";
  uploader_upload := λ _ _, Ok "s3://bucket/key";
  get_log_delivery_role_arn := Ok "arn:logs";
  uuid4 := "token-1";
  register_type := λ _, Ok [("RegistrationToken", "reg-1")];
  waiter_wait := λ _, Ok tt;
  describe_type_registration := λ _, Raise (ClientError "Throttling");
  set_type_default_version := λ _, Ok tt;
  plugin_package := Ok [("code.zip", Text "code")];
  plugin_generate := Ok tt
|}.

(** From [w] to [w'] the side artifacts [evs] were emitted, and no file
    changed but theirs. *)
Definition confined (w w' : world) (evs : list (list string * path)) : Prop :=
  side_artifacts w' = side_artifacts w ++ evs
  ∧ ∀ p, fs w' !! p = fs w !! p ∨ p ∈ evs.*2.


(** [p] lies below the directory [dir]. *)
Definition below (dir p : path) : Prop :=
  dir `prefix_of` p ∧ p ≠ dir.

(** A project directory with a generated page from an earlier run and a
    file of the user's. *)
Definition stale_files : gmap path data :=
  {[ ["project"; "docs"; "old.md"] := Text "stale";
     ["project"; "notes.txt"] := Text "notes" ]}.

(** A project directory in which [docs] is a plain file. *)
Definition docs_is_a_file : gmap path data :=
  {[ ["project"; "docs"] := Text "not a directory" ]}.

(** A schema with a list property and a property typed by a list of
    type names. *)
Definition schema_array_and_union : json :=
  JObj [("typeName", JStr "Initech::TPS::Report");
        ("properties",
         JObj [("Tags", JObj [("type", JStr "array");
                              ("items", JObj [("type", JStr "string")])]);
               ("Name", JObj [("type", JArr [JStr "string"; JStr "null"])])])].

(** ** Markdown and type names *)

Definition MARKDOWN_RESERVED_CHARACTERS : list ascii :=
  ["^"; "*"; "+"; "."; "("; "["; "{"; "#"]%char.

Definition backslash : string := String "092"%char EmptyString.

(** [escape_markdown(string)] for a string: an empty string is falsy
    and is returned as it is. *)
Definition escape_markdown (s : string) : string :=
  match s with
  | EmptyString => s
  | String c _ =>
      if bool_decide (c ∈ MARKDOWN_RESERVED_CHARACTERS) then backslash +:+ s else s
  end.

(** [s.split(sep)] for the separator of the two characters [a] and [b]:
    the occurrences are found from the left and do not overlap; there is
    always at least one part. *)
Fixpoint split_pair (a b : ascii) (s : string) : list string :=
  match s with
  | EmptyString => [EmptyString]
  | String c r =>
      match r with
      | String d r' =>
          if (Ascii.eqb c a && Ascii.eqb d b)%bool
          then EmptyString :: split_pair a b r'
          else match split_pair a b r with
               | x :: xs => String c x :: xs
               | [] => [String c EmptyString]
               end
      | EmptyString => [String c EmptyString]
      end
  end.

(** [self.type_name = value]: the setter of the property. *)
Definition set_type_name (self : Project) (value : string) : Project := {|
  overwrite_enabled := overwrite_enabled self;
  root := root self;
  cwd := cwd self;
  type_info := Some (split_pair ":" ":" value);
  schema := schema self
|}.

(** ** The project lifecycle: settings and schema files

    [load_settings], [load_schema], [load] and [write_settings] assign
    attributes of the project and raise exceptions of their own.  They run on the state of the
    other methods together with the attributes those do not read. *)

(** Every exception of the methods above, and the ones raised here. *)
Inductive error :=
| Builtin (e : exn)
| JSONDecodeError (detail : string)
| ValidationError
| SpecValidationError (text : string)
| InternalError (msg : string)
| InvalidProjectError (msg : string) (cause : error).

(** The exception a log record shows as [exc_info]. *)
Definition as_exn (e : error) : exn :=
  match e with
  | Builtin e => e
  | JSONDecodeError _ => OtherError "JSONDecodeError"
  | ValidationError => OtherError "ValidationError"
  | SpecValidationError _ => OtherError "SpecValidationError"
  | InternalError _ => OtherError "InternalError"
  | InvalidProjectError _ _ => OtherError "InvalidProjectError"
  end.

Inductive result (A : Type) :=
| Done (a : A)
| Thrown (e : error)
| Beyond.
Arguments Done {A} a.
Arguments Thrown {A} e.
Arguments Beyond {A}.

(** A project object: the attributes the other methods read, and
    [language], [runtime], [entrypoint], [test_entrypoint], [settings] as
    JSON values ([JNull] for [None]), and the language whose plugin is
    loaded. *)
Record instance := Instance {
  project : Project;
  language : json;
  runtime : json;
  entrypoint : json;
  test_entrypoint : json;
  settings : json;
  _plugin : option json
}.

Definition L (A : Type) : Type := instance * world → result A * (instance * world).

Global Instance L_ret : MRet L := λ A a s, (Done a, s).
Global Instance L_bind : MBind L := λ A B k m s,
  match m s with
  | (Done a, s') => k a s'
  | (Thrown e, s') => (Thrown e, s')
  | (Beyond, s') => (Beyond, s')
  end.

Definition throw {A} (e : error) : L A := λ s, (Thrown e, s).
Definition answer {A} (r : result A) : L A := λ s, (r, s).
Definition get_self : L instance := λ s, (Done s.1, s).
Definition set_self (i : instance) : L unit := λ s, (Done tt, (i, s.2)).

(** A method of the other kind, run on the project as it stands. *)
Definition method {A} (m : Project → M A) : L A := λ s,
  match m (project s.1) s.2 with
  | (Ok a, w) => (Done a, (s.1, w))
  | (Raise e, w) => (Thrown (Builtin e), (s.1, w))
  | (Stuck, w) => (Beyond, (s.1, w))
  end.

(** [try: body  except <caught>: handler] *)
Definition try_catch {A} (body : L A) (handler : error → option (L A)) : L A := λ s,
  match body s with
  | (Thrown e, s') =>
      match handler e with
      | Some h => h s'
      | None => (Thrown e, s')
      end
  | r => r
  end.

(** [with path.open("r") as f]: what the file holds. *)
Definition open_r (p : path) : L data :=
  method (λ _, f ← get_fs;
               match f !! p with
               | Some d => mret d
               | None => raise FileNotFoundError
               end).

(** What the libraries and the language plugin do. *)
Record environment := Environment {
  (** [json.load(f)] *)
  json_load : data → result json;
  (** [json.dump(obj, f, indent=4)], as the text written *)
  json_dump : json → string;
  load_plugin : json → result unit;
  load_resource_spec : data → result json
}.

(** [str(path)] *)
Definition Path_str (p : path) : string :=
  "/" +:+ Str.join "/" p.

Definition LAMBDA_RUNTIMES : list string :=
  ["noexec"; "java8"; "java11"; "go1.x"; "python3.6"; "python3.7"; "python3.8";
   "dotnetcore2.1"; "nodejs10.x"; "nodejs12.x"].

(** [[a-zA-Z0-9]] *)
Definition alnum (c : ascii) : bool :=
  let n := nat_of_ascii c in
  ((Nat.leb 48 n && Nat.leb n 57) || (Nat.leb 65 n && Nat.leb n 90)
   || (Nat.leb 97 n && Nat.leb n 122))%bool.

(** The longest run of [[a-zA-Z0-9]] a string begins with, and the rest. *)
Fixpoint span_alnum (s : string) : string * string :=
  match s with
  | String c r =>
      if alnum c then let '(run, rest) := span_alnum r in (String c run, rest)
      else (EmptyString, s)
  | EmptyString => (EmptyString, EmptyString)
  end.

(** [{2,64}] *)
Definition between_2_and_64 (s : string) : bool :=
  (Nat.leb 2 (String.length s) && Nat.leb (String.length s) 64)%bool.

(** [re.search(TYPE_NAME_REGEX, s)] finds a match: three runs of 2 to 64
    letters and digits with [::] between them, from the start of the
    string to its end; [$] also matches before a newline that ends the
    string. *)
Definition TYPE_NAME_REGEX (s : string) : bool :=
  let '(x, r) := span_alnum s in
  match r with
  | String ":" (String ":" r) =>
      let '(y, r) := span_alnum r in
      match r with
      | String ":" (String ":" r) =>
          let '(z, r) := span_alnum r in
          (between_2_and_64 x && between_2_and_64 y && between_2_and_64 z
           && (String.eqb r EmptyString || String.eqb r newline))%bool
      | _ => false
      end
  | _ => false
  end.

(** [d[k]] for the dict [json.load] makes of an object: of a repeated
    name the last value is kept. *)
Fixpoint member (k : string) (members : list (string * json)) : option json :=
  match members with
  | [] => None
  | (k', v) :: r =>
      match member k r with
      | Some v' => Some v'
      | None => if String.eqb k' k then Some v else None
      end
  end.

Definition is_string_or_null (v : json) : bool :=
  match v with
  | JStr _ | JNull => true
  | _ => false
  end.

(** The schema of [SETTINGS_VALIDATOR] for the property [k], applied to
    its value; a property the schema does not name is not allowed. *)
Definition property_valid (k : string) (v : json) : bool :=
  if String.eqb k "language" then match v with JStr _ => true | _ => false end
  else if String.eqb k "typeName"
  then match v with JStr s => TYPE_NAME_REGEX s | _ => false end
  else if String.eqb k "runtime"
  then match v with JStr s => bool_decide (s ∈ LAMBDA_RUNTIMES) | _ => false end
  else if String.eqb k "entrypoint" then is_string_or_null v
  else if String.eqb k "testEntrypoint" then is_string_or_null v
  else if String.eqb k "settings" then match v with JObj _ => true | _ => false end
  else false.

(** [SETTINGS_VALIDATOR.validate(raw)] does not raise.  The keywords of
    the schema ([properties], [required], [additionalProperties]) bind
    objects only: every other document is valid. *)
Definition SETTINGS_VALIDATOR (raw : json) : bool :=
  match raw with
  | JObj members =>
      (forallb (λ kv, match member kv.1 members with
                      | Some v => property_valid kv.1 v
                      | None => false
                      end) members
       && forallb (λ k, bool_decide (is_Some (member k members)))
            ["language"; "typeName"; "runtime"; "entrypoint"])%bool
  | _ => true
  end.

(** [raw[k]] for a document read by [json.load] *)
Definition subscript (raw : json) (k : string) : L json :=
  match raw with
  | JObj members =>
      match member k members with
      | Some v => mret v
      | None => throw (Builtin KeyError)
      end
  | _ => throw (Builtin TypeError)
  end.

(** [raw.get(k, dflt)] for a document read by [json.load] *)
Definition get_or (raw : json) (k : string) (dflt : json) : L json :=
  match raw with
  | JObj members => mret (default dflt (member k members))
  | _ => throw (Builtin AttributeError)
  end.

(** A scalar as a log argument; a list or a dict is not shown here. *)
Definition log_scalar (v : json) : option logarg :=
  match v with
  | JNull => Some (AVal VNone)
  | JBool b => Some (AVal (VBool b))
  | JNum n => Some (AVal (VInt n))
  | JStr s => Some (AStr s)
  | _ => None
  end.

(** The project with its schema replaced. *)
Definition with_schema (p : Project) (v : val) : Project := {|
  overwrite_enabled := overwrite_enabled p;
  root := root p;
  cwd := cwd p;
  type_info := type_info p;
  schema := v
|}.

(** [self.<attribute> = value] *)
Definition assign (f : instance → instance) : L unit :=
  i ← get_self; set_self (f i).

Definition set_project (p : Project) (i : instance) : instance :=
  Instance p (language i) (runtime i) (entrypoint i) (test_entrypoint i) (settings i)
    (_plugin i).
Definition set_language (v : json) (i : instance) : instance :=
  Instance (project i) v (runtime i) (entrypoint i) (test_entrypoint i) (settings i)
    (_plugin i).
Definition set_runtime (v : json) (i : instance) : instance :=
  Instance (project i) (language i) v (entrypoint i) (test_entrypoint i) (settings i)
    (_plugin i).
Definition set_entrypoint (v : json) (i : instance) : instance :=
  Instance (project i) (language i) (runtime i) v (test_entrypoint i) (settings i)
    (_plugin i).
Definition set_test_entrypoint (v : json) (i : instance) : instance :=
  Instance (project i) (language i) (runtime i) (entrypoint i) v (settings i) (_plugin i).
Definition set_settings (v : json) (i : instance) : instance :=
  Instance (project i) (language i) (runtime i) (entrypoint i) (test_entrypoint i) v
    (_plugin i).
Definition set_plugin (v : option json) (i : instance) : instance :=
  Instance (project i) (language i) (runtime i) (entrypoint i) (test_entrypoint i)
    (settings i) v.

(** [self.type_name = value]: a value that is not a string has no
    [split]. *)
Definition assign_type_name (value : json) : L unit :=
  match value with
  | JStr s => assign (λ i, set_project (set_type_name (project i) s) i)
  | _ => throw (Builtin AttributeError)
  end.

Section Lifecycle.

Variable env : environment.

Definition _raise_invalid_project {A} (msg : string) (e : error) : L A :=
  method (λ _, LOG DEBUG msg [AExcInfo (as_exn e)]);;
  throw (InvalidProjectError msg e).

Definition load_settings : L unit :=
  self ← get_self;
  let path := settings_path (project self) in
  method (λ _, LOG DEBUG "Loading project file '%s'" [APath path]);;
  raw_settings ← try_catch
    (f ← open_r path; answer (json_load env f))
    (λ e, match e with
          | JSONDecodeError _ =>
              Some (_raise_invalid_project
                      ("Project file '" +:+ Path_str path +:+ "' is invalid") e)
          | _ => None
          end);
  try_catch
    (if SETTINGS_VALIDATOR raw_settings then mret tt else throw ValidationError)
    (λ e, match e with
          | ValidationError =>
              Some (_raise_invalid_project
                      ("Project file '" +:+ Path_str path +:+ "' is invalid") e)
          | _ => None
          end);;
  v ← subscript raw_settings "typeName"; assign_type_name v;;
  v ← subscript raw_settings "language"; assign (set_language v);;
  v ← subscript raw_settings "runtime"; assign (set_runtime v);;
  v ← subscript raw_settings "entrypoint"; assign (set_entrypoint v);;
  v ← subscript raw_settings "testEntrypoint"; assign (set_test_entrypoint v);;
  v ← subscript raw_settings "language";
  answer (load_plugin env v);;
  assign (set_plugin (Some v));;
  v ← get_or raw_settings "settings" (JObj []);
  assign (set_settings v).

(** [not self.type_info] *)
Definition no_type_info (p : Project) : bool :=
  match type_info p with
  | None | Some [] => true
  | _ => false
  end.

Definition load_schema : L unit :=
  self ← get_self;
  if no_type_info (project self) then
    let msg := "Internal error (Must load settings first)" in
    method (λ _, LOG CRITICAL msg []);;
    throw (InternalError msg)
  else
    path ← method schema_path;
    f ← open_r path;
    spec ← answer (load_resource_spec env f);
    v ← method (λ _, h ← get_heap;
                     let '(v, h') := Py.loads spec h in
                     set_heap h';; mret v);
    assign (λ i, set_project (with_schema (project i) v) i).

Definition load : L unit :=
  try_catch load_settings
    (λ e, match e with
          | Builtin FileNotFoundError =>
              Some (_raise_invalid_project "Project file not found. Have you run 'init'?" e)
          | _ => None
          end);;
  method (λ _, LOG INFO "Validating your resource specification..." []);;
  try_catch load_schema
    (λ e, match e with
          | Builtin FileNotFoundError =>
              Some (_raise_invalid_project "Resource specification not found." e)
          | SpecValidationError text =>
              Some (_raise_invalid_project
                      ("Resource specification is invalid: " +:+ text) e)
          | _ => None
          end).

(** The document [write_settings] dumps; evaluating it reads
    [type_name]. *)
Definition settings_document (i : instance) : option json :=
  match type_info (project i) with
  | Some parts =>
      Some (JObj [("typeName", JStr (Str.join "::" parts));
                  ("language", language i);
                  ("runtime", runtime i);
                  ("entrypoint", entrypoint i);
                  ("testEntrypoint", test_entrypoint i);
                  ("settings", settings i)])
  | None => None
  end.

(** [self.runtime not in LAMBDA_RUNTIMES]; a list or a dict cannot be
    looked up in a set. *)
Definition invalid_runtime (v : json) : result bool :=
  match v with
  | JStr s => Done (negb (bool_decide (s ∈ LAMBDA_RUNTIMES)))
  | JArr _ | JObj _ => Thrown (Builtin TypeError)
  | _ => Done true
  end.

Definition write_settings : L unit :=
  self ← get_self;
  invalid ← answer (invalid_runtime (runtime self));
  if invalid : bool then
    match log_scalar (runtime self), log_scalar (language self) with
    | Some r, Some l =>
        method (λ _, LOG CRITICAL "Plugin returned invalid runtime: %s (%s)" [r; l]);;
        throw (InternalError "Internal error (Plugin returned invalid runtime)")
    | _, _ => answer Beyond
    end
  else
    let _write :=
      match settings_document self with
      | Some document => Callable (Text (json_dump env document +:+ newline)) None
      | None => Callable (Text EmptyString) (Some TypeError)
      end in
    method (λ p, overwrite (settings_path p) _write).

End Lifecycle.

(** What [load_settings] does once the file is read and validated. *)
Definition assign_settings (env : environment) (raw_settings : json) : L unit :=
  v ← subscript raw_settings "typeName"; assign_type_name v;;
  v ← subscript raw_settings "language"; assign (set_language v);;
  v ← subscript raw_settings "runtime"; assign (set_runtime v);;
  v ← subscript raw_settings "entrypoint"; assign (set_entrypoint v);;
  v ← subscript raw_settings "testEntrypoint"; assign (set_test_entrypoint v);;
  v ← subscript raw_settings "language";
  answer (load_plugin env v);;
  assign (set_plugin (Some v));;
  v ← get_or raw_settings "settings" (JObj []);
  assign (set_settings v).

(** An environment for the examples: [json.load] reads a text by a
    table and refuses every other file, [json.dump] writes the text
    [dumped], and a plugin exists for every language that is a string. *)
Definition table_environment (table : list (string * json)) (dumped : string)
    : environment := {|
  json_load d :=
    match d with
    | Text s =>
        match list_find (λ kv, kv.1 = s) table with
        | Some (_, (_, j)) => Done j
        | None => Thrown (JSONDecodeError "Expecting value")
        end
    | _ => Thrown (JSONDecodeError "Expecting value")
    end;
  json_dump _ := dumped;
  load_plugin l := match l with JStr _ => Done tt | _ => Thrown (Builtin KeyError) end;
  load_resource_spec d :=
    match d with
    | Text _ => Done (JObj [("typeName", JStr "Initech::TPS::Report")])
    | _ => Thrown (SpecValidationError "not a resource specification")
    end
|}.

Definition sample_settings : json :=
  JObj [("typeName", JStr "Initech::TPS::Report");
        ("language", JStr "python37");
        ("runtime", JStr "python3.7");
        ("entrypoint", JStr "handlers.resource");
        ("testEntrypoint", JStr "handlers.test_entrypoint");
        ("settings", JObj [])].

(** The same without [testEntrypoint], which the validator does not
    require. *)
Definition settings_without_test_entrypoint : json :=
  JObj [("typeName", JStr "Initech::TPS::Report");
        ("language", JStr "python37");
        ("runtime", JStr "python3.7");
        ("entrypoint", JNull)].

Definition sample_environment : environment :=
  table_environment
    [("settings", sample_settings);
     ("settings" +:+ newline, sample_settings);
     ("short", settings_without_test_entrypoint);
     ("list", JArr []);
     ("empty", JObj [])]
    "settings".

Definition sample_project : Project := {|
  overwrite_enabled := false;
  root := ["work"];
  cwd := ["work"];
  type_info := None;
  schema := VNone
|}.

Definition sample_instance : instance :=
  Instance sample_project JNull (JStr "noexec") JNull JNull JNull None.

Definition world_with (files : gmap path data) : world := World [] files [] [] [].

(** The sample project after its settings were loaded. *)
Definition loaded_instance : instance :=
  Instance (set_type_name sample_project "Initech::TPS::Report")
    (JStr "python37") (JStr "python3.7") (JStr "handlers.resource")
    (JStr "handlers.test_entrypoint") (JObj []) (Some (JStr "python37")).

(** * Properties *)

(** ** The order on action names *)

Lemma str_le_refl a : str_le a a.
Proof.
  unfold str_le. destruct (String_as_OT.compare_spec a a) as [_|Hlt|Hlt]; try done.
  by apply (irreflexivity String_as_OT.lt) in Hlt.
Qed.

Lemma str_le_cases a b : str_le a b ↔ a = b ∨ String_as_OT.lt a b.
Proof.
  unfold str_le. split.
  - destruct (String_as_OT.compare_spec a b) as [Heq|Hlt|Hgt]; [by left|by right|done].
  - intros [->|Hlt]; [apply str_le_refl|].
    unfold String_as_OT.lt in Hlt. by rewrite Hlt.
Qed.

Global Instance str_le_trans : Transitive str_le.
Proof.
  intros a b c. rewrite !str_le_cases.
  intros [->|Hab] [->|Hbc]; auto.
  right. by transitivity b.
Qed.

Global Instance str_le_total : Total str_le.
Proof.
  intros a b. unfold str_le.
  destruct (String_as_OT.compare_spec a b) as [Heq|Hlt|Hgt].
  - by left.
  - by left.
  - right. unfold String_as_OT.lt in Hgt. by rewrite Hgt.
Qed.

Global Instance str_le_antisymm : AntiSymm (=) str_le.
Proof.
  intros a b. rewrite !str_le_cases.
  intros [->|Hab] [Hba|Hba]; auto.
  exfalso. apply (irreflexivity String_as_OT.lt a). by transitivity b.
Qed.

Lemma sorted_elem_of (s : gset string) a : a ∈ sorted s ↔ a ∈ s.
Proof. unfold sorted. by rewrite merge_sort_Permutation, elem_of_elements. Qed.

Lemma sorted_StronglySorted (s : gset string) : StronglySorted str_le (sorted s).
Proof. apply StronglySorted_merge_sort; apply _. Qed.

Lemma sorted_NoDup (s : gset string) : NoDup (sorted s).
Proof. unfold sorted. rewrite merge_sort_Permutation. apply NoDup_elements. Qed.

Lemma sorted_singleton a : sorted {[ a ]} = [a].
Proof. unfold sorted. by rewrite elements_singleton. Qed.

(** ** The IAM role template *)

Lemma handler_actions_elem_of handlers a :
  a ∈ handler_actions handlers ↔
  ∃ oh perms, oh ∈ handlers ∧ permissions oh.2 = Some perms ∧ a ∈ perms.
Proof.
  unfold handler_actions. rewrite elem_of_list_to_set, list_elem_of_bind. split.
  - intros (oh & Ha & Hoh). destruct (permissions oh.2) as [perms|] eqn:Hp; simpl in Ha.
    + by exists oh, perms.
    + by apply elem_of_nil in Ha.
  - intros (oh & perms & Hoh & Hp & Ha). exists oh. by rewrite Hp.
Qed.

Lemma discarded_elem_of handlers a :
  a ∈ handler_actions handlers ∖ {[ EmptyString ]} ↔ listed_action handlers a.
Proof.
  unfold listed_action. rewrite elem_of_difference, elem_of_singleton, handler_actions_elem_of.
  tauto.
Qed.

Lemma foldl_max_ge (ts : list Z) t : t ≤ foldl Z.max t ts ∧ ∀ x, x ∈ ts → x ≤ foldl Z.max t ts.
Proof.
  revert t. induction ts as [|u ts IH]; intros t; simpl.
  - split; [lia|]. intros x Hx. by apply elem_of_nil in Hx.
  - destruct (IH (Z.max t u)) as [H1 H2]. split; [lia|].
    intros x [->|Hx]%elem_of_cons; [lia|auto].
Qed.

Lemma foldl_max_elem_of (ts : list Z) t : foldl Z.max t ts ∈ t :: ts.
Proof.
  revert t. induction ts as [|u ts IH]; intros t; simpl.
  - apply list_elem_of_here.
  - specialize (IH (Z.max t u)). apply elem_of_cons in IH as [IH|IH].
    + rewrite IH. destruct (Z.max_spec t u) as [[_ ->]|[_ ->]].
      * apply list_elem_of_further, list_elem_of_here.
      * apply list_elem_of_here.
    + by do 2 apply list_elem_of_further.
Qed.

Lemma clamp_min_max x lo hi : lo ≤ hi → Z.min hi (Z.max lo x) = clamp x lo hi.
Proof.
  intros Hle. unfold clamp.
  destruct (Z.ltb_spec x lo); [lia|]. destruct (Z.ltb_spec hi x); lia.
Qed.

(** The statement and the timeout synthesized from a list of handlers. *)
Lemma role_statement_spec (handlers : list (string * Handler)) :
  let actions := (role_statement handlers).1 in
  let effect := (role_statement handlers).2 in
  let longest := max_handler_timeout handlers in
  StronglySorted str_le actions ∧ NoDup actions
  ∧ ((∃ a, listed_action handlers a) →
       effect = "Allow" ∧ ∀ a, a ∈ actions ↔ listed_action handlers a)
  ∧ ((∀ a, ¬ listed_action handlers a) → effect = "Deny" ∧ actions = ["*"])
  ∧ role_session_timeout handlers = clamp (70 * longest) 3600 43200
  ∧ (handlers = [] → longest = 120)
  ∧ (handlers ≠ [] →
       (∃ oh, oh ∈ handlers ∧ longest = declared_timeout oh.2)
       ∧ ∀ oh, oh ∈ handlers → declared_timeout oh.2 ≤ longest).
Proof.
  cbv zeta. unfold role_statement.
  set (actions := handler_actions handlers ∖ {[ EmptyString ]}).
  split_and!.
  - destruct (decide (actions = ∅)); simpl; apply sorted_StronglySorted.
  - destruct (decide (actions = ∅)); simpl; apply sorted_NoDup.
  - intros [a Ha]. apply discarded_elem_of in Ha. fold actions in Ha.
    destruct (decide (actions = ∅)) as [Hemp|Hne]; simpl.
    + rewrite Hemp in Ha. by apply not_elem_of_empty in Ha.
    + split; [done|]. intros b. rewrite sorted_elem_of. apply discarded_elem_of.
  - intros Hnone. destruct (decide (actions = ∅)) as [Hemp|Hne]; simpl.
    + split; [done|]. apply sorted_singleton.
    + exfalso. apply Hne. apply leibniz_equiv, elem_of_equiv_empty.
      intros a Ha. by apply discarded_elem_of, Hnone in Ha.
  - unfold role_session_timeout, MAX_ROLE_TIMEOUT_SECONDS, MIN_ROLE_TIMEOUT_SECONDS.
    by apply clamp_min_max.
  - by intros ->.
  - intros Hne. unfold max_handler_timeout.
    destruct handlers as [|oh0 rest]; [done|]. simpl.
    fold (declared_timeout oh0.2).
    set (ts := map (λ oh, default DEFAULT_ROLE_TIMEOUT_MINUTES (timeoutInMinutes oh.2)) rest).
    split.
    + pose proof (foldl_max_elem_of ts (declared_timeout oh0.2)) as Hin.
      apply elem_of_cons in Hin as [Hin|Hin].
      * exists oh0. split; [apply list_elem_of_here|done].
      * apply list_elem_of_fmap in Hin as (oh & Heq & Hoh).
        exists oh. split; [by apply list_elem_of_further|done].
    + destruct (foldl_max_ge ts (declared_timeout oh0.2)) as [H0 Hts].
      intros oh [->|Hoh]%elem_of_cons; [done|].
      apply Hts. apply list_elem_of_fmap. by exists oh.
Qed.

(** ** [generate] *)

Lemma max_handler_timeout_default hs :
  (∀ oh, oh ∈ hs → timeoutInMinutes oh.2 = None) → max_handler_timeout hs = 120.
Proof.
  intros Hnone. unfold max_handler_timeout.
  destruct hs as [|oh0 rest]; [done|]. simpl.
  rewrite (Hnone oh0) by apply list_elem_of_here. simpl.
  assert (Hrest : ∀ oh, oh ∈ rest → timeoutInMinutes oh.2 = None).
  { intros oh Hoh. apply Hnone. by apply list_elem_of_further. }
  clear Hnone. induction rest as [|oh rest IH]; [done|]. simpl.
  rewrite (Hrest oh) by apply list_elem_of_here. simpl.
  apply IH. intros oh' Hoh'. apply Hrest. by apply list_elem_of_further.
Qed.

(** C8: [generate] writes the role template exactly when the schema has
    a [handlers] key.  Without the key the world is left as it was and
    only the plugin runs; with it the file [resource-role.yaml] of the
    project root is overwritten with the synthesized statement, and the
    session timeout is 70 * 120 = 8400 seconds when no handler declares a
    timeout. *)
Theorem generate_role_template self sv w a d parts :
  schema self = VRef a → heap w !! a = Some (ODict d) → type_info self = Some parts →
  match Dict.get "handlers" d with
  | None => generate self sv w = (plugin_generate sv, w)
  | Some hv => ∀ hs, handlers_of (heap w) hv = Some hs →
      ∃ w', generate self sv w = (plugin_generate sv, w')
        ∧ fs w' = <[root self ++ [ROLE_TEMPLATE_FILENAME] :=
                     ResourceRoleYml (Str.lower (Str.join "-" parts))
                       (role_statement hs).1 (role_statement hs).2 (role_session_timeout hs)]> (fs w)
        ∧ ((∀ oh, oh ∈ hs → timeoutInMinutes oh.2 = None) → role_session_timeout hs = 8400)
  end.
Proof.
  intros Hs Ha Ht.
  destruct (Dict.get "handlers" d) as [hv|] eqn:Hh.
  - intros hs Hhs.
    unfold generate, Py.str_in, Py.getitem, Py.deref, hypenated_name, overwrite, write_contents.
    rewrite Hs, Ht. unfold mbind, M_bind, get_heap, mret, M_ret. cbn. rewrite Ha. cbn.
    rewrite Hh. cbn. rewrite Ha. cbn. rewrite Hh, Hhs.
    destruct (role_statement hs) as [actions permission] eqn:Hr. cbn.
    eexists. split; [reflexivity|]. split; [reflexivity|].
    intros Hnone. unfold role_session_timeout. by rewrite max_handler_timeout_default.
  - unfold generate, Py.str_in, Py.getitem, Py.deref.
    rewrite Hs. unfold mbind, M_bind, get_heap, mret, M_ret. cbn. rewrite Ha. cbn.
    rewrite Hh. cbn. by destruct w.
Qed.

Lemma generate_role_template_witness :
  generate (project_on schema_without_handlers false) obliging
      (loaded schema_without_handlers ∅)
    = (Ok tt, loaded schema_without_handlers ∅)
  ∧ ∃ w', generate (project_on schema_with_handlers false) obliging
            (loaded schema_with_handlers ∅) = (Ok tt, w')
      ∧ fs w' !! ["project"; "resource-role.yaml"]
        = Some (ResourceRoleYml "initech-tps-report" ["a:b"] "Allow" 8400).
Proof.
  split.
  - exact (generate_role_template (project_on schema_without_handlers false) obliging
             (loaded schema_without_handlers ∅) _ _ _ eq_refl eq_refl eq_refl).
  - destruct (generate_role_template (project_on schema_with_handlers false) obliging
                (loaded schema_with_handlers ∅) _ _ _ eq_refl eq_refl eq_refl _ eq_refl)
      as (w' & Hrun & Hfs & _).
    exists w'. split; [exact Hrun|]. rewrite Hfs. by vm_compute.
Defined.

(** ** The role template [generate] writes *)

Lemma as_strings_typed vs :
  forallb (λ v, match v with VStr _ => true | _ => false end) vs = true →
  as_strings vs = Some (omap (λ v, match v with VStr s => Some s | _ => None end) vs).
Proof.
  unfold as_strings. induction vs as [|v vs IH]; [done|]. cbn [forallb].
  intros [Hv Hvs]%andb_true_iff. destruct v; try done.
  cbn. by rewrite (IH Hvs).
Qed.

(** A handler typed as the resource schema has it is read as it
    declares. *)
Lemma handler_of_typed h handler :
  typed_handler h handler = true →
  ∃ hr, handler_of h handler = Some hr
    ∧ default [] (permissions hr) = declared_permissions h handler
    ∧ declared_timeout hr = declared_minutes h handler.
Proof.
  unfold typed_handler, handler_of, declared_permissions, declared_minutes, declared_timeout.
  destruct handler as [| | | |b]; try done.
  destruct (h !! b) as [[hd|]|]; try done.
  intros [Hp Ht]%andb_true_iff.
  destruct (Dict.get "permissions" hd) as [[| | | |l]|]; try done.
  - destruct (h !! l) as [[|vs]|]; try done.
    rewrite (as_strings_typed _ Hp). cbn.
    destruct (Dict.get "timeoutInMinutes" hd) as [[]|]; try done; by eexists.
  - cbn. destruct (Dict.get "timeoutInMinutes" hd) as [[]|]; try done; by eexists.
Qed.

Lemma handlers_read h (entries : list (string * val)) :
  (∀ op handler, (op, handler) ∈ entries → typed_handler h handler = true) →
  ∃ hs, mapM (λ kv, pair kv.1 <$> handler_of h kv.2) entries = Some hs
    ∧ Forall2 (λ kv oh,
         default [] (permissions oh.2) = declared_permissions h kv.2
         ∧ declared_timeout oh.2 = declared_minutes h kv.2) entries hs.
Proof.
  induction entries as [|[op handler] entries IH]; intros Htyped.
  - exists []. by split.
  - destruct (handler_of_typed h handler) as (hr & Hhr & Hp & Ht).
    { apply (Htyped op). apply list_elem_of_here. }
    destruct IH as (hs & Hhs & Hall).
    { intros op' handler' Hin. apply (Htyped op'). by apply list_elem_of_further. }
    exists ((op, hr) :: hs). split.
    + cbn. rewrite Hhr. cbn. by rewrite Hhs.
    + by constructor.
Qed.

(** The run of [generate] on a schema with handlers. *)
Lemma generate_with_handlers self sv w a d hv hs parts :
  schema self = VRef a → heap w !! a = Some (ODict d) → type_info self = Some parts →
  Dict.get "handlers" d = Some hv → handlers_of (heap w) hv = Some hs →
  ∃ w', generate self sv w = (plugin_generate sv, w')
    ∧ fs w' = <[root self ++ [ROLE_TEMPLATE_FILENAME] :=
                 ResourceRoleYml (Str.lower (Str.join "-" parts))
                   (role_statement hs).1 (role_statement hs).2 (role_session_timeout hs)]> (fs w).
Proof.
  intros Hs Ha Ht Hh Hhs.
  unfold generate, Py.str_in, Py.getitem, Py.deref, hypenated_name, overwrite, write_contents.
  rewrite Hs, Ht. unfold mbind, M_bind, get_heap, mret, M_ret. cbn. rewrite Ha. cbn.
  rewrite Hh. cbn. rewrite Ha. cbn. rewrite Hh, Hhs.
  destruct (role_statement hs) as [actions permission] eqn:Hr. cbn.
  eexists. by split.
Qed.

(** C4: for a schema whose handlers are typed as the resource schema
    has them, [generate] writes the role template with these arguments:
    the actions are the permissions the handlers declare, without the
    empty string, sorted ascending and without repetition, under effect
    Allow; when no handler declares one the actions are exactly the
    wildcard and the effect is Deny; the session timeout is 70 seconds per
    minute of the largest timeout a handler declares (120 minutes for a
    handler that declares none, and when there is no handler), clamped to
    [3600, 43200]. *)
Theorem role_template_synthesis self sv w a d ha hd parts :
  schema self = VRef a → heap w !! a = Some (ODict d) →
  Dict.get "handlers" d = Some (VRef ha) → heap w !! ha = Some (ODict hd) →
  type_info self = Some parts →
  (∀ op handler, (op, handler) ∈ Dict.items hd → typed_handler (heap w) handler = true) →
  let declared action :=
    action ≠ EmptyString
    ∧ ∃ op handler, (op, handler) ∈ Dict.items hd
        ∧ action ∈ declared_permissions (heap w) handler in
  let minutes := map (λ kv, declared_minutes (heap w) kv.2) (Dict.items hd) in
  ∃ actions effect timeout longest w',
    generate self sv w = (plugin_generate sv, w')
    ∧ fs w' = <[root self ++ ["resource-role.yaml"] :=
                 ResourceRoleYml (Str.lower (Str.join "-" parts)) actions effect timeout]> (fs w)
    ∧ StronglySorted str_le actions ∧ NoDup actions
    ∧ ((∃ action, declared action) →
         effect = "Allow" ∧ ∀ action, action ∈ actions ↔ declared action)
    ∧ ((∀ action, ¬ declared action) → effect = "Deny" ∧ actions = ["*"])
    ∧ timeout = clamp (70 * longest) 3600 43200
    ∧ (minutes = [] → longest = 120)
    ∧ (minutes ≠ [] → longest ∈ minutes ∧ ∀ t, t ∈ minutes → t ≤ longest).
Proof.
  intros Hs Ha Hh Hha Ht Htyped declared minutes.
  destruct (handlers_read (heap w) (Dict.items hd) Htyped) as (hs & Hhs & Hall).
  assert (Hof : handlers_of (heap w) (VRef ha) = Some hs).
  { unfold handlers_of. by rewrite Hha. }
  destruct (generate_with_handlers self sv w a d (VRef ha) hs parts Hs Ha Ht Hh Hof)
    as (w' & Hrun & Hfs).
  destruct (role_statement_spec hs)
    as (Hsorted & Hnodup & Hallow & Hdeny & Htimeout & Hnone & Hsome).
  assert (Hlisted : ∀ action, listed_action hs action ↔ declared action).
  { intros action. unfold listed_action, declared. split.
    - intros (Hne & oh & perms & Hoh & Hperms & Hin). split; [done|].
      apply list_elem_of_lookup in Hoh as [i Hi].
      destruct (Forall2_lookup_r _ _ _ _ _ Hall Hi) as ([op handler] & Hkv & Hp & _).
      exists op, handler. split; [by eapply list_elem_of_lookup_2|].
      cbn in Hp. rewrite <- Hp, Hperms. done.
    - intros (Hne & op & handler & Hkv & Hin). split; [done|].
      apply list_elem_of_lookup in Hkv as [i Hi].
      destruct (Forall2_lookup_l _ _ _ _ _ Hall Hi) as (oh & Hoh & Hp & _).
      cbn in Hp. rewrite <- Hp in Hin.
      destruct (permissions oh.2) as [perms|] eqn:Hperms; [|by apply elem_of_nil in Hin].
      exists oh, perms. split; [by eapply list_elem_of_lookup_2|]. done. }
  assert (Hminutes : minutes = map (λ oh, declared_timeout oh.2) hs).
  { unfold minutes. clear -Hall. induction Hall as [|kv oh ? ? [_ Hm] ? IH]; [done|].
    cbn. by rewrite Hm, IH. }
  exists (role_statement hs).1, (role_statement hs).2, (role_session_timeout hs),
    (max_handler_timeout hs), w'.
  split; [exact Hrun|]. split; [exact Hfs|]. split; [exact Hsorted|]. split; [exact Hnodup|].
  split.
  { intros [action Hd]. destruct Hallow as [Heffect Hiff]; [exists action; by apply Hlisted|].
    split; [done|]. intros b. rewrite Hiff. apply Hlisted. }
  split.
  { intros Hnot. apply Hdeny. intros action Hl. by apply (Hnot action), Hlisted. }
  split; [exact Htimeout|]. split.
  { intros Hnil. apply Hnone. rewrite Hminutes in Hnil. by destruct hs. }
  intros Hne. destruct Hsome as [(oh & Hoh & Hlongest) Hmax].
  { intros ->. by rewrite Hminutes in Hne. }
  rewrite Hminutes. split.
  - rewrite Hlongest. apply list_elem_of_fmap. by exists oh.
  - intros t (oh' & -> & Hoh')%list_elem_of_fmap. by apply Hmax.
Qed.

Lemma role_template_synthesis_witness :
  ∃ w', generate (project_on schema_example_handlers false) obliging
          (loaded schema_example_handlers ∅) = (Ok tt, w')
    ∧ fs w' !! ["project"; "resource-role.yaml"]
      = Some (ResourceRoleYml "initech-tps-report" ["a:b"; "a:c"] "Allow" 14000).
Proof.
  destruct (role_template_synthesis (project_on schema_example_handlers false) obliging
              (loaded schema_example_handlers ∅) 7
              [("typeName", VStr "Initech::TPS::Report"); ("properties", VRef 1);
               ("handlers", VRef 6)]
              6 [("create", VRef 3); ("read", VRef 5)]
              ["Initech"; "TPS"; "Report"])
    as (actions & effect & timeout & longest & w' & Hrun & Hfs & _).
  - by vm_compute.
  - by vm_compute.
  - by vm_compute.
  - by vm_compute.
  - by vm_compute.
  - intros op handler Hin.
    apply elem_of_cons in Hin as [[= -> ->]|Hin]; [by vm_compute|].
    apply elem_of_cons in Hin as [[= -> ->]|Hin]; [by vm_compute|].
    by apply elem_of_nil in Hin.
  - exists w'. split; [exact Hrun|].
    assert (Hrun' := Hrun). vm_compute in Hrun'. injection Hrun' as Hw.
    rewrite <- Hw. by vm_compute.
Defined.

(** ** [safewrite] *)

(** C10: when the file exists and overwriting is not enabled, [safewrite]
    returns normally, every file keeps its contents, and the one thing
    that happens is the warning added to the log; the contents handed in,
    text or callable, are never looked at. *)
Theorem safewrite_keeps_existing self w p c old :
  overwrite_enabled self = false →
  fs w !! p = Some old →
  safewrite self p c w
  = (Ok tt, logged (Log WARNING "File already exists, not overwriting '%s'" [APath p]) w).
Proof.
  intros Hoff Hold. unfold safewrite, try_except. rewrite Hoff.
  unfold mbind, M_bind, get_fs. cbn. by rewrite Hold.
Qed.

Lemma safewrite_keeps_existing_witness :
  let w := loaded schema_with_handlers {[ ["project"; "docs"; "README.md"] := Text "old" ]} in
  let r := safewrite (project_on schema_with_handlers false)
             ["project"; "docs"; "README.md"]
             (Callable (Text "new") (Some RuntimeError)) w in
  r.1 = Ok tt
  ∧ fs r.2 = fs w
  ∧ log r.2 = [Log WARNING "File already exists, not overwriting '%s'"
                 [APath ["project"; "docs"; "README.md"]]].
Proof.
  cbv zeta.
  rewrite (safewrite_keeps_existing (project_on schema_with_handlers false)
             (loaded schema_with_handlers {[ ["project"; "docs"; "README.md"] := Text "old" ]})
             ["project"; "docs"; "README.md"] (Callable (Text "new") (Some RuntimeError))
             (Text "old")); [| reflexivity | by vm_compute].
  split; [reflexivity|]. split; reflexivity.
Defined.

(** ** The primary identifier *)

Lemma split_no_separator c s : Str.has_char c s = false → Str.split c s = [s].
Proof.
  induction s as [|d r IH]; [done|]. simpl.
  intros [Hd Hr]%orb_false_iff. rewrite Hd. by rewrite (IH Hr).
Qed.

Lemma split_prefix c pre rest :
  Str.has_char c pre = false →
  Str.split c (pre +:+ String c rest) = pre :: Str.split c rest.
Proof.
  induction pre as [|d r IH]; simpl.
  - intros _. by rewrite Ascii.eqb_refl.
  - intros [Hd Hr]%orb_false_iff. rewrite Hd. by rewrite (IH Hr).
Qed.

Lemma replace2_no_escape a b by_ s : Str.has_char a s = false → Str.replace2 a b by_ s = s.
Proof.
  induction s as [|c r IH]; [done|].
  intros [Hc Hr]%orb_false_iff. specialize (IH Hr).
  cbn [Str.replace2]. destruct r as [|d r']; [done|].
  rewrite Hc. cbn [andb]. by rewrite IH.
Qed.

Lemma part_decode_plain s : Str.has_char "~" s = false → Pointer.part_decode s = s.
Proof.
  intros Hs. unfold Pointer.part_decode.
  rewrite (replace2_no_escape _ _ _ s Hs). by apply replace2_no_escape.
Qed.

Lemma fragment_decode_property name :
  Str.has_char "/" name = false → Str.has_char "~" name = false →
  Pointer.fragment_decode ("/properties/" +:+ name) EmptyString = Ok ["properties"; name].
Proof.
  intros Hslash Htilde. unfold Pointer.fragment_decode.
  change ("/properties/" +:+ name)
    with (EmptyString +:+ String "/" ("properties" +:+ String "/" name)).
  rewrite !split_prefix by done. rewrite (split_no_separator _ _ Hslash).
  cbn [String.eqb map]. by rewrite (part_decode_plain _ Htilde).
Qed.

(** ** Running monadic code *)

Lemma bind_ok {A B} (m : M A) (k : A → M B) w a w' :
  m w = (Ok a, w') → (m ≫= k) w = k a w'.
Proof. intros H. unfold mbind, M_bind. by rewrite H. Qed.

Lemma bind_raise {A B} (m : M A) (k : A → M B) w e w' :
  m w = (Raise e, w') → (m ≫= k) w = (Raise e, w').
Proof. intros H. unfold mbind, M_bind. by rewrite H. Qed.

Lemma bind_inv_ok {A B} (m : M A) (k : A → M B) w b w2 :
  (m ≫= k) w = (Ok b, w2) → ∃ a w1, m w = (Ok a, w1) ∧ k a w1 = (Ok b, w2).
Proof.
  unfold mbind, M_bind. destruct (m w) as [[a|e|] w1]; intros H; try done.
  by exists a, w1.
Qed.

Lemma fmap_ok {A B} (f : A → B) (m : M A) w a w' :
  m w = (Ok a, w') → (f <$> m) w = (Ok (f a), w').
Proof. intros H. unfold fmap, M_fmap. by rewrite (bind_ok _ _ _ _ _ H). Qed.

Lemma try_except_ok {A} (body : M A) handler w a w' :
  body w = (Ok a, w') → try_except body handler w = (Ok a, w').
Proof. intros H. unfold try_except. by rewrite H. Qed.

Lemma try_except_caught {A} (body : M A) handler w e w' h :
  body w = (Raise e, w') → handler e = Some h → try_except body handler w = h w'.
Proof. intros H Hh. unfold try_except. by rewrite H, Hh. Qed.

Lemma try_except_uncaught {A} (body : M A) handler w e w' :
  body w = (Raise e, w') → handler e = None → try_except body handler w = (Raise e, w').
Proof. intros H Hh. unfold try_except. by rewrite H, Hh. Qed.

Lemma deref_ok a w o : heap w !! a = Some o → Py.deref a w = (Ok o, w).
Proof. intros H. unfold Py.deref, get_heap, mbind, M_bind. by rewrite H. Qed.

Lemma str_in_dict s a d w :
  heap w !! a = Some (ODict d) →
  Py.str_in s (VRef a) w = (Ok (bool_decide (is_Some (Dict.get s d))), w).
Proof. intros H. unfold Py.str_in. by rewrite (bind_ok _ _ _ _ _ (deref_ok _ _ _ H)). Qed.

Lemma getitem_dict k a d v w :
  heap w !! a = Some (ODict d) → Dict.get k d = Some v →
  Py.getitem (VRef a) k w = (Ok v, w).
Proof.
  intros H Hk. unfold Py.getitem. rewrite (bind_ok _ _ _ _ _ (deref_ok _ _ _ H)).
  by rewrite Hk.
Qed.

Lemma get_dict k a d w :
  heap w !! a = Some (ODict d) →
  Py.get (VRef a) k w = (Ok (default VNone (Dict.get k d)), w).
Proof. intros H. unfold Py.get. by rewrite (bind_ok _ _ _ _ _ (deref_ok _ _ _ H)). Qed.

Lemma get_default_dict k dflt a d w :
  heap w !! a = Some (ODict d) →
  Py.get_default (VRef a) k dflt w = (Ok (default dflt (Dict.get k d)), w).
Proof. intros H. unfold Py.get_default. by rewrite (bind_ok _ _ _ _ _ (deref_ok _ _ _ H)). Qed.

Lemma setitem_dict k v a d w :
  heap w !! a = Some (ODict d) →
  Py.setitem (VRef a) k v w
  = (Ok tt, with_heap (<[a := ODict (Dict.set k v d)]> (heap w)) w).
Proof. intros H. unfold Py.setitem. by rewrite (bind_ok _ _ _ _ _ (deref_ok _ _ _ H)). Qed.

Lemma items_dict a d w :
  heap w !! a = Some (ODict d) → Py.items (VRef a) w = (Ok (Dict.items d), w).
Proof. intros H. unfold Py.items. by rewrite (bind_ok _ _ _ _ _ (deref_ok _ _ _ H)). Qed.

Lemma len_list a l w :
  heap w !! a = Some (OList l) → Py.len (VRef a) w = (Ok (length l), w).
Proof. intros H. unfold Py.len. by rewrite (bind_ok _ _ _ _ _ (deref_ok _ _ _ H)). Qed.

Lemma first_list a v l w :
  heap w !! a = Some (OList (v :: l)) → Py.first (VRef a) w = (Ok v, w).
Proof. intros H. unfold Py.first. by rewrite (bind_ok _ _ _ _ _ (deref_ok _ _ _ H)). Qed.

Lemma alloc_ok o w :
  Py.alloc o w = (Ok (VRef (length (heap w))), with_heap (heap w ++ [o]) w).
Proof. done. Qed.

(** C5, amended: for a [primaryIdentifier] that is a list, a single entry
    [/properties/<name>] resolves to [name]; a single entry that decodes
    to another number of segments below the first resolves to nothing and
    logs the warning; two or more entries resolve to nothing and log
    nothing.  None of these raises. *)
Theorem primary_identifier_resolution w docs_schema a d l entries :
  docs_schema = VRef a → heap w !! a = Some (ODict d) →
  Dict.get "primaryIdentifier" d = Some (VRef l) → heap w !! l = Some (OList entries) →
  (∀ name, entries = [VStr ("/properties/" +:+ name)] →
     Str.has_char "/" name = false → Str.has_char "~" name = false →
     _get_docs_primary_identifier docs_schema w = (Ok (Some name), w))
  ∧ (∀ pointer segments, entries = [VStr pointer] →
     Pointer.fragment_decode pointer EmptyString = Ok segments →
     length (tail segments) ≠ 1%nat →
     _get_docs_primary_identifier docs_schema w = (Ok None, warned_nested w))
  ∧ ((2 ≤ length entries)%nat →
     _get_docs_primary_identifier docs_schema w = (Ok None, w)).
Proof.
  intros -> Ha Hd Hl. unfold _get_docs_primary_identifier.
  split_and!.
  - intros name -> Hslash Htilde. apply try_except_ok.
    rewrite (bind_ok _ _ _ _ _ (getitem_dict _ _ _ _ _ Ha Hd)).
    rewrite (bind_ok _ _ _ _ _ (len_list _ _ _ Hl)).
    rewrite decide_True by done.
    rewrite (bind_ok _ _ _ _ _ (first_list _ _ _ _ Hl)).
    unfold lift, mbind, M_bind.
    by rewrite (fragment_decode_property _ Hslash Htilde).
  - intros pointer segments -> Hdec Hlen1. apply try_except_ok.
    rewrite (bind_ok _ _ _ _ _ (getitem_dict _ _ _ _ _ Ha Hd)).
    rewrite (bind_ok _ _ _ _ _ (len_list _ _ _ Hl)).
    rewrite decide_True by done.
    rewrite (bind_ok _ _ _ _ _ (first_list _ _ _ _ Hl)).
    unfold lift, mbind, M_bind. rewrite Hdec.
    by destruct segments as [|s0 [|s1 [|s2 rest]]].
  - intros Hle. apply try_except_ok.
    rewrite (bind_ok _ _ _ _ _ (getitem_dict _ _ _ _ _ Ha Hd)).
    rewrite (bind_ok _ _ _ _ _ (len_list _ _ _ Hl)).
    rewrite decide_False by lia. done.
Qed.

Lemma primary_identifier_resolution_witness :
  _get_docs_primary_identifier (schema (project_on schema_with_handlers false))
      (loaded schema_with_handlers ∅)
    = (Ok (Some "id"), loaded schema_with_handlers ∅)
  ∧ _get_docs_primary_identifier (schema (project_on schema_nested_identifier false))
      (loaded schema_nested_identifier ∅)
    = (Ok None, warned_nested (loaded schema_nested_identifier ∅)).
Proof.
  split.
  - destruct (primary_identifier_resolution (loaded schema_with_handlers ∅)
                (schema (project_on schema_with_handlers false)) _ _ _ _
                eq_refl eq_refl eq_refl eq_refl) as (Hone & _ & _).
    exact (Hone "id" eq_refl eq_refl eq_refl).
  - destruct (primary_identifier_resolution (loaded schema_nested_identifier ∅)
                (schema (project_on schema_nested_identifier false)) _ _ _ _
                eq_refl eq_refl eq_refl eq_refl) as (_ & Hnested & _).
    apply (Hnested "/properties/a/b" ["properties"; "a"; "b"]); [reflexivity | reflexivity |].
    simpl. lia.
Defined.

(** C5 as stated fails: with two entries nothing is resolved, yet no
    warning is logged; the world, its log included, is as before. *)
Lemma primary_identifier_two_entries_silent :
  _get_docs_primary_identifier (schema (project_on schema_two_identifiers false))
      (loaded schema_two_identifiers ∅)
    = (Ok None, loaded schema_two_identifiers ∅)
  ∧ log (loaded schema_two_identifiers ∅) = [].
Proof. split; by vm_compute. Qed.

(** ** The registration wait *)

Lemma remote_bind {A B} (c : call) (answer : outcome A) (k : A → M B) w :
  (remote c answer ≫= k) w
  = match answer with
    | Ok a => k a (called c w)
    | Raise e => (Raise e, called c w)
    | Stuck => (Stuck, called c w)
    end.
Proof. unfold remote, record_call, lift, mbind, M_bind. by destruct answer. Qed.

Lemma remote_run {A} (c : call) (answer : outcome A) w :
  remote c answer w = (answer, called c w).
Proof. unfold remote, record_call, lift, mbind, M_bind. by destruct answer. Qed.

Lemma log_bind {B} l f a (k : unit → M B) w :
  (LOG l f a ≫= k) w = k tt (logged (Log l f a) w).
Proof. done. Qed.

(** The run of [_wait_for_registration] when the waiter reports failure. *)
Lemma wait_failure_run sv token set_default w detail :
  waiter_wait sv token = Raise (WaiterError detail) →
  _wait_for_registration sv token set_default w
  = let w1 := logged (Log WARNING
        "Successfully submitted type. Waiting for registration with token '%s' to complete."
        [AStr token]) w in
    let w2 := called (WaiterWait token) w1 in
    let w3 := logged (Log WARNING
        "Failed to register the type with registration token '%s'." [AStr token]) w2 in
    let w4 := called (DescribeTypeRegistration token) w3 in
    match describe_type_registration sv token with
    | Ok response =>
        (Raise (DownstreamError "Type registration error" (WaiterError detail)),
         logged (Log WARNING "Please see response for additional information: '%s'"
                   [AResponse response]) w4)
    | Raise (ClientError c) =>
        (Raise (DownstreamError "Error describing type registration" (ClientError c)),
         logged (Log DEBUG "Describing type registration resulted in unknown ClientError"
                   [AExcInfo (WaiterError detail)]) w4)
    | Raise e => (Raise e, w4)
    | Stuck => (Stuck, w4)
    end.
Proof.
  intros Hwait. unfold _wait_for_registration.
  unfold mbind at 1, M_bind at 1.
  erewrite try_except_caught; [| by rewrite log_bind, remote_run, Hwait | reflexivity].
  rewrite log_bind. unfold mbind at 1, M_bind at 1. unfold try_except at 1.
  rewrite remote_run.
  by destruct (describe_type_registration sv token) as [response|e|]; [| destruct e |].
Qed.

(** C2, amended: when the waiter reports failure, the registration status
    is read exactly once.  If the read answers, the answer is logged as a
    warning and the failure raised is the downstream error with the fixed
    message [Type registration error], caused by the waiter's error; if
    the read fails with a client error, the failure raised is the
    downstream error [Error describing type registration], caused by that
    client error; any other failure of the read is passed on. *)
Theorem wait_failure_is_diagnosed sv token set_default w detail :
  waiter_wait sv token = Raise (WaiterError detail) →
  let r := _wait_for_registration sv token set_default w in
  calls r.2 = calls w ++ [WaiterWait token; DescribeTypeRegistration token]
  ∧ match describe_type_registration sv token with
    | Ok response =>
        r.1 = Raise (DownstreamError "Type registration error" (WaiterError detail))
        ∧ last (log r.2)
          = Some (Log WARNING "Please see response for additional information: '%s'"
                    [AResponse response])
    | Raise (ClientError c) =>
        r.1 = Raise (DownstreamError "Error describing type registration" (ClientError c))
    | Raise e => r.1 = Raise e
    | Stuck => r.1 = Stuck
    end.
Proof.
  intros Hwait r. subst r. rewrite (wait_failure_run _ _ _ _ _ Hwait). cbv zeta.
  destruct (describe_type_registration sv token) as [response|e|];
    [| destruct e |]; cbn; (split; [by rewrite <- app_assoc|]); try done.
  split; [done|]. apply last_snoc.
Qed.

Lemma wait_failure_is_diagnosed_witness :
  let r := _wait_for_registration failing_waiter "reg-1" true
             (loaded schema_with_handlers ∅) in
  calls r.2 = [WaiterWait "reg-1"; DescribeTypeRegistration "reg-1"]
  ∧ r.1 = Raise (DownstreamError "Type registration error"
                   (WaiterError "Waiter encountered a terminal failure state")).
Proof.
  destruct (wait_failure_is_diagnosed failing_waiter "reg-1" true
              (loaded schema_with_handlers ∅) _ eq_refl) as (Hcalls & Hraise & _).
  split; [exact Hcalls | exact Hraise].
Defined.

(** C2 as stated fails: the described reason is logged, it is not part of
    the message of the failure raised. *)
Lemma wait_failure_message_is_fixed :
  let r := _wait_for_registration failing_waiter "reg-1" true
             (loaded schema_with_handlers ∅) in
  describe_type_registration failing_waiter "reg-1" = Ok failure_response
  ∧ downstream_message r.1 = Some "Type registration error"
  ∧ Str.contains "Deployment is currently in DEPLOY_STAGE of status FAILED"
      "Type registration error" = false.
Proof. by vm_compute. Qed.

Lemma raise_bind {A B} e (k : A → M B) w : (raise e ≫= k) w = (Raise e, w).
Proof. done. Qed.

Lemma mret_bind {A B} (a : A) (k : A → M B) w : (mret a ≫= k) w = k a w.
Proof. done. Qed.

Lemma try_except_remote {A} (c : call) (answer : outcome A) handler w :
  try_except (remote c answer) handler w
  = match answer with
    | Raise e =>
        match handler e with
        | Some h => h (called c w)
        | None => (Raise e, called c w)
        end
    | r => (r, called c w)
    end.
Proof. unfold try_except. rewrite remote_run. by destruct answer. Qed.

Lemma hypenated_name_ok self parts w :
  type_info self = Some parts →
  hypenated_name self w = (Ok (Str.lower (Str.join "-" parts)), w).
Proof. intros H. unfold hypenated_name. by rewrite H. Qed.

Lemma type_name_ok self parts w :
  type_info self = Some parts → type_name self w = (Ok (Str.join "::" parts), w).
Proof. intros H. unfold type_name. by rewrite H. Qed.

Ltac steps_normal :=
  unfold LOG, raise, mbind, M_bind, mret, M_ret;
  cbn [fst snd calls called logged with_heap with_fs emitted];
  rewrite ?map_app, <- ?app_assoc; cbn [map step_of app].

Ltac prefix_solve :=
  repeat first [ apply prefix_nil | apply prefix_cons ].

(** The run of [_wait_for_registration] when the waiter returns. *)
Lemma wait_returns_run sv token set_default w :
  waiter_wait sv token = Ok tt →
  _wait_for_registration sv token set_default w
  = let w1 := logged (Log WARNING
        "Successfully submitted type. Waiting for registration with token '%s' to complete."
        [AStr token]) w in
    let w2 := called (WaiterWait token) w1 in
    let w3 := logged (Log WARNING "Registration complete." []) w2 in
    let w4 := called (DescribeTypeRegistration token) w3 in
    match describe_type_registration sv token with
    | Ok response =>
        let w5 := logged (Log WARNING "%s" [AResponse response]) w4 in
        if set_default then
          match response_get "TypeVersionArn" response with
          | Some arn =>
              let w6 := called (SetTypeDefaultVersion arn) w5 in
              match set_type_default_version sv arn with
              | Ok _ =>
                  (Ok tt, logged (Log WARNING "Set default version to '%s" [AStr arn]) w6)
              | Raise (ClientError c) =>
                  (Raise (DownstreamError "Error setting default version" (ClientError c)),
                   logged (Log DEBUG "Setting default version resulted in unknown ClientError"
                             [AExcInfo (ClientError c)]) w6)
              | Raise e => (Raise e, w6)
              | Stuck => (Stuck, w6)
              end
          | None => (Raise KeyError, w5)
          end
        else (Ok tt, w5)
    | Raise e => (Raise e, w4)
    | Stuck => (Stuck, w4)
    end.
Proof.
  intros Hwait. unfold _wait_for_registration.
  unfold mbind at 1, M_bind at 1.
  erewrite try_except_ok; [| by rewrite log_bind, remote_run, Hwait ].
  rewrite log_bind, remote_bind. cbv zeta.
  destruct (describe_type_registration sv token) as [response|e|]; [|done..].
  rewrite log_bind. destruct set_default; [|done].
  destruct (response_get "TypeVersionArn" response) as [arn|]; [|done].
  unfold mbind, M_bind. rewrite try_except_remote.
  by destruct (set_type_default_version sv arn) as [[]|e|]; [| destruct e |].
Qed.

(** The run of [_wait_for_registration] when the waiter raises something
    that is not a [WaiterError]. *)
Lemma wait_raises_run sv token set_default w e :
  waiter_wait sv token = Raise e → (∀ detail, e ≠ WaiterError detail) →
  _wait_for_registration sv token set_default w
  = (Raise e,
     called (WaiterWait token)
       (logged (Log WARNING
          "Successfully submitted type. Waiting for registration with token '%s' to complete."
          [AStr token]) w)).
Proof.
  intros Hwait He. unfold _wait_for_registration.
  unfold mbind at 1, M_bind at 1.
  erewrite try_except_uncaught; [done | by rewrite log_bind, remote_run, Hwait |].
  destruct e; try done. by destruct (He detail).
Qed.

Ltac steps_solve :=
  eexists; split; [steps_normal; reflexivity | split; [prefix_solve | done]].

(** The calls of [_wait_for_registration], in order: all of them when it
    returns. *)
Lemma wait_steps sv token set_default w :
  let r := _wait_for_registration sv token set_default w in
  let order := [Waiting; Described] ++ (if set_default then [DefaultSet] else []) in
  ∃ made, map step_of (calls r.2) = map step_of (calls w) ++ made
    ∧ made `prefix_of` order
    ∧ (r.1 = Ok tt → made = order).
Proof.
  cbv zeta. destruct (waiter_wait sv token) as [[]|e|] eqn:Hwait.
  - rewrite (wait_returns_run _ _ _ _ Hwait). cbv zeta.
    destruct (describe_type_registration sv token) as [response|e|]; [|steps_solve..].
    destruct set_default; [|steps_solve].
    destruct (response_get "TypeVersionArn" response) as [arn|]; [|steps_solve].
    destruct (set_type_default_version sv arn) as [[]|e|]; [| destruct e |]; steps_solve.
  - destruct e; try (rewrite (wait_raises_run _ _ _ _ _ Hwait) by done; steps_solve).
    rewrite (wait_failure_run _ _ _ _ _ Hwait). cbv zeta.
    destruct (describe_type_registration sv token) as [response|e|]; [| destruct e |];
      steps_solve.
  - unfold _wait_for_registration. unfold mbind at 1, M_bind at 1.
    unfold try_except at 1. rewrite log_bind, remote_run, Hwait. steps_solve.
Qed.

(** [_wait_for_registration] returns when the collaborators answer. *)
Lemma wait_answered sv token set_default w :
  answering sv → (_wait_for_registration sv token set_default w).1 = Ok tt.
Proof.
  intros (_ & _ & _ & _ & Hwait & Hdescribe & Hdefault).
  rewrite (wait_returns_run _ _ _ _ (Hwait token)). cbv zeta.
  destruct (Hdescribe token) as (response & arn & -> & Harn).
  destruct set_default; [|done]. by rewrite Harn, (Hdefault arn).
Qed.

Lemma bind_assoc {A B C} (m : M A) (k1 : A → M B) (k2 : B → M C) w :
  ((m ≫= k1) ≫= k2) w = (m ≫= (λ a, k1 a ≫= k2)) w.
Proof. unfold mbind, M_bind. by destruct (m w) as [[a|e|] w']. Qed.

Ltac mnorm :=
  repeat (progress (rewrite ?bind_assoc, ?log_bind, ?mret_bind; cbv beta iota)).

Lemma elem_of_prefix {A} (x : A) (l1 l2 : list A) : l1 `prefix_of` l2 → x ∈ l1 → x ∈ l2.
Proof. intros [k ->] Hx. apply elem_of_app. by left. Qed.

Lemma upload_steps self sv fileobj endpoint_url region_name role_arn
    use_role set_default w a d parts region :
  schema self = VRef a → heap w !! a = Some (ODict d) → type_info self = Some parts →
  create_sdk_session sv region_name = Ok region →
  let wanted := use_role = true
                ∧ (role_arn = None ∨ role_arn = Some EmptyString)
                ∧ is_Some (Dict.get "handlers" d) in
  let order := upload_order (bool_decide wanted) set_default in
  ∃ o w' made,
    _upload self sv fileobj endpoint_url region_name role_arn use_role set_default w = (o, w')
    ∧ map step_of (calls w') = map step_of (calls w) ++ made
    ∧ made `prefix_of` order
    ∧ (RoleProvisioned ∈ made ↔ wanted)
    ∧ (o = Ok tt → made = order)
    ∧ (answering sv → o = Ok tt).
Proof.
  intros Hs Ha Ht Hsession wanted order.
  assert (Htail : ∀ role_arn' w1 pre,
    map step_of (calls w1) = map step_of (calls w) ++ pre →
    heap w1 = heap w →
    let rest := [Uploaded; LogRole; Registering; Waiting; Described]
                ++ (if set_default then [DefaultSet] else []) in
    ∃ o w2 post,
      (name ← hypenated_name self;
        s3_url ← remote (UploaderUpload name fileobj) (uploader_upload sv name fileobj);
        LOG DEBUG "Got S3 URL: %s" [AStr s3_url];;
        log_delivery_role ← remote GetLogDeliveryRoleArn (get_log_delivery_role_arn sv);
        LOG DEBUG "Got Log Role: %s" [AStr log_delivery_role];;
        tn ← type_name self;
        name ← hypenated_name self;
        let kwargs := {|
          kw_Type := "RESOURCE";
          kw_TypeName := tn;
          kw_SchemaHandlerPackage := s3_url;
          kw_ClientRequestToken := uuid4 sv;
          kw_LogRoleArn := log_delivery_role;
          kw_LogGroupName := name +:+ "-logs";
          kw_ExecutionRoleArn :=
            if (supplied role_arn' && use_role)%bool then role_arn' else None
        |} in
        response ← try_except
          (remote (RegisterType kwargs) (register_type sv kwargs))
          (λ e, match e with
                | ClientError _ => Some (
                    LOG DEBUG "Registering type resulted in unknown ClientError" [AExcInfo e];;
                    raise (DownstreamError "Unknown CloudFormation error" e))
                | _ => None
                end);
        match response_get "RegistrationToken" response with
        | Some token => _wait_for_registration sv token set_default
        | None => raise KeyError
        end) w1 = (o, w2)
      ∧ map step_of (calls w2) = map step_of (calls w) ++ pre ++ post
      ∧ post `prefix_of` rest
      ∧ (o = Ok tt → post = rest)
      ∧ (answering sv → o = Ok tt)).
  { intros role_arn' w1 pre Hpre Hheap. cbv zeta.
    rewrite (bind_ok _ _ _ _ _ (hypenated_name_ok _ _ _ Ht)).
    rewrite remote_bind.
    destruct (uploader_upload sv _ fileobj) as [s3_url|e|] eqn:Hup;
      [| eexists _, _, _; split; [reflexivity|]; split; [steps_normal; rewrite Hpre, <- app_assoc; reflexivity
                         | split; [prefix_solve | split; [done|] ] ];
         intros (_ & Hans & _); destruct (Hans (Str.lower (Str.join "-" parts)) fileobj);
         congruence ..].
    rewrite log_bind, remote_bind.
    destruct (get_log_delivery_role_arn sv) as [log_role|e|] eqn:Hlog;
      [| eexists _, _, _; split; [reflexivity|]; split; [steps_normal; rewrite Hpre, <- !app_assoc; reflexivity
                         | split; [prefix_solve | split; [done|] ] ];
         intros (_ & _ & [? Hans] & _); congruence ..].
    rewrite log_bind.
    rewrite (bind_ok _ _ _ _ _ (type_name_ok _ _ _ Ht)).
    rewrite (bind_ok _ _ _ _ _ (hypenated_name_ok _ _ _ Ht)).
    cbv zeta. unfold mbind at 1, M_bind at 1. rewrite try_except_remote.
    match goal with |- context [register_type sv ?k] => set (kwargs := k) end.
    destruct (register_type sv kwargs) as [response|e|] eqn:Hreg;
      [| destruct e |];
      try (eexists _, _, _; split; [reflexivity|]; split; [steps_normal; rewrite Hpre, <- !app_assoc; reflexivity
                           | split; [prefix_solve | split; [done|] ] ];
           intros (_ & _ & _ & Hans & _); destruct (Hans kwargs) as (? & ? & ? & ?);
           congruence).
    destruct (response_get "RegistrationToken" response) as [token|] eqn:Htoken;
      [| eexists _, _, _; split; [reflexivity|]; split; [steps_normal; rewrite Hpre, <- !app_assoc; reflexivity
                         | split; [prefix_solve | split; [done|] ] ];
         intros (_ & _ & _ & Hans & _); destruct (Hans kwargs) as (? & ? & ? & ?);
         congruence ].
    match goal with |- context [_wait_for_registration sv token set_default ?W] =>
      destruct (wait_steps sv token set_default W) as (made & Hmade & Hprefix & Hfull);
      pose proof (wait_answered sv token set_default W) as Hanswered;
      destruct (_wait_for_registration sv token set_default W) as [o w2] end.
    cbn [fst snd] in *.
    exists o, w2, ([Uploaded; LogRole; Registering] ++ made).
    split; [reflexivity|]. split; [|split; [|split]].
    - rewrite Hmade. steps_normal. rewrite Hpre, <- !app_assoc. reflexivity.
    - cbn [app]. by do 3 apply prefix_cons.
    - intros Hok. by rewrite (Hfull Hok).
    - exact Hanswered. }
  assert (Hlater : ∀ post set_default',
    post `prefix_of` [Uploaded; LogRole; Registering; Waiting; Described]
                      ++ (if set_default' : bool then [DefaultSet] else []) →
    RoleProvisioned ∉ Session :: post).
  { intros post sd Hprefix [Hx|Hx]%elem_of_cons; [done|].
    apply (elem_of_prefix _ _ _ Hprefix) in Hx.
    destruct sd; cbn in Hx;
      repeat (apply elem_of_cons in Hx as [Hx|Hx]; [done|]);
      by apply elem_of_nil in Hx. }
  subst order. unfold _upload. rewrite log_bind, remote_bind, Hsession, log_bind.
  destruct use_role.
  - destruct role_arn as [arn0|].
    + destruct (String.eqb arn0 EmptyString) eqn:Harn0.
      * (* an empty ARN counts as none *)
        apply String.eqb_eq in Harn0 as ->.
        cbn [supplied andb negb String.eqb].
        rewrite Hs. erewrite bind_ok; [| apply str_in_dict; exact Ha].
        destruct (Dict.get "handlers" d) as [hv|] eqn:Hh.
        -- rewrite (bool_decide_true (is_Some (Some hv))) by by eexists.
           rewrite (bool_decide_true wanted) by (subst wanted; rewrite ?Hh; eauto).
           mnorm. rewrite (bind_ok _ _ _ _ _ (hypenated_name_ok _ _ _ Ht)).
           mnorm. rewrite remote_bind.
           destruct (create_or_update_role sv _ _) as [arn|e|] eqn:Hrole.
           ++ mnorm.
              match goal with |- context [mbind _ _ ?W] =>
                destruct (Htail (Some arn) W [Session; RoleProvisioned])
                  as (o & w2 & post & Hrun & Hpost & Hprefix & Hfull & Hans);
                  [by steps_normal | done |] end.
              exists o, w2, ([Session; RoleProvisioned] ++ post). split; [exact Hrun|]. split; [exact Hpost|].
              split; [cbn [app upload_order]; by do 2 apply prefix_cons|].
              split; [split; [by subst wanted; rewrite ?Hh; eauto|];
                      intros _; apply elem_of_cons; right; apply list_elem_of_here|].
              split; [intros Hok; by rewrite (Hfull Hok) | exact Hans].
           ++ eexists _, _, [Session; RoleProvisioned]. split; [reflexivity|]. split; [by steps_normal|].
              split; [unfold upload_order; cbn [app]; prefix_solve|].
              split; [split; [by subst wanted; rewrite ?Hh; eauto|];
                      intros _; apply elem_of_cons; right; apply list_elem_of_here|].
              split; [done|]. intros (Hans & _).
              destruct (Hans (root self ++ [ROLE_TEMPLATE_FILENAME])
                          (Str.lower (Str.join "-" parts))). congruence.
           ++ eexists _, _, [Session; RoleProvisioned]. split; [reflexivity|]. split; [by steps_normal|].
              split; [unfold upload_order; cbn [app]; prefix_solve|].
              split; [split; [by subst wanted; rewrite ?Hh; eauto|];
                      intros _; apply elem_of_cons; right; apply list_elem_of_here|].
              split; [done|]. intros (Hans & _).
              destruct (Hans (root self ++ [ROLE_TEMPLATE_FILENAME])
                          (Str.lower (Str.join "-" parts))). congruence.
        -- rewrite (bool_decide_false (is_Some None)) by (by intros [? ?]).
           rewrite (bool_decide_false wanted)
             by (subst wanted; rewrite ?Hh; intros (_ & _ & [? ?]); done).
           rewrite mret_bind.
           match goal with |- context [mbind _ _ ?W] =>
             destruct (Htail (Some EmptyString) W [Session])
               as (o & w2 & post & Hrun & Hpost & Hprefix & Hfull & Hans);
               [by steps_normal | done |] end.
           exists o, w2, ([Session] ++ post). split; [exact Hrun|]. split; [exact Hpost|].
           split; [cbn [app upload_order]; by apply prefix_cons|].
           split; [split; [intros Hin; by destruct (Hlater _ _ Hprefix)
                          | subst wanted; rewrite ?Hh; intros (_ & _ & [? ?]); done]|].
           split; [intros Hok; by rewrite (Hfull Hok) | exact Hans].
      * (* an ARN was supplied *)
        assert (Hsup : supplied (Some arn0) = true) by (cbn; by rewrite Harn0).
        assert (Hnot : ¬ wanted).
        { subst wanted. intros (_ & [?| [= ->]] & _); [done|]. done. }
        rewrite Hsup. cbn [andb negb]. rewrite (bool_decide_false wanted) by done.
        rewrite mret_bind, mret_bind.
        match goal with |- context [mbind _ _ ?W] =>
          destruct (Htail (Some arn0) W [Session])
            as (o & w2 & post & Hrun & Hpost & Hprefix & Hfull & Hans);
            [by steps_normal | done |] end.
        exists o, w2, ([Session] ++ post). split; [exact Hrun|]. split; [exact Hpost|].
        split; [cbn [app upload_order]; by apply prefix_cons|].
        split; [split; [intros Hin; by destruct (Hlater _ _ Hprefix) | done]|].
        split; [intros Hok; by rewrite (Hfull Hok) | exact Hans].
    + cbn [supplied andb negb].
      rewrite Hs. erewrite bind_ok; [| apply str_in_dict; exact Ha].
      destruct (Dict.get "handlers" d) as [hv|] eqn:Hh.
      * rewrite (bool_decide_true (is_Some (Some hv))) by by eexists.
        rewrite (bool_decide_true wanted) by (subst wanted; rewrite ?Hh; eauto).
        mnorm. rewrite (bind_ok _ _ _ _ _ (hypenated_name_ok _ _ _ Ht)).
        mnorm. rewrite remote_bind.
        destruct (create_or_update_role sv _ _) as [arn|e|] eqn:Hrole.
        -- mnorm.
           match goal with |- context [mbind _ _ ?W] =>
             destruct (Htail (Some arn) W [Session; RoleProvisioned])
               as (o & w2 & post & Hrun & Hpost & Hprefix & Hfull & Hans);
               [by steps_normal | done |] end.
           exists o, w2, ([Session; RoleProvisioned] ++ post). split; [exact Hrun|]. split; [exact Hpost|].
           split; [cbn [app upload_order]; by do 2 apply prefix_cons|].
           split; [split; [by subst wanted; rewrite ?Hh; eauto|];
                   intros _; apply elem_of_cons; right; apply list_elem_of_here|].
           split; [intros Hok; by rewrite (Hfull Hok) | exact Hans].
        -- eexists _, _, [Session; RoleProvisioned]. split; [reflexivity|]. split; [by steps_normal|].
           split; [unfold upload_order; cbn [app]; prefix_solve|].
           split; [split; [by subst wanted; rewrite ?Hh; eauto|];
                   intros _; apply elem_of_cons; right; apply list_elem_of_here|].
           split; [done|]. intros (Hans & _).
           destruct (Hans (root self ++ [ROLE_TEMPLATE_FILENAME])
                       (Str.lower (Str.join "-" parts))). congruence.
        -- eexists _, _, [Session; RoleProvisioned]. split; [reflexivity|]. split; [by steps_normal|].
           split; [unfold upload_order; cbn [app]; prefix_solve|].
           split; [split; [by subst wanted; rewrite ?Hh; eauto|];
                   intros _; apply elem_of_cons; right; apply list_elem_of_here|].
           split; [done|]. intros (Hans & _).
           destruct (Hans (root self ++ [ROLE_TEMPLATE_FILENAME])
                       (Str.lower (Str.join "-" parts))). congruence.
      * rewrite (bool_decide_false (is_Some None)) by (by intros [? ?]).
        rewrite (bool_decide_false wanted)
          by (subst wanted; rewrite ?Hh; intros (_ & _ & [? ?]); done).
        rewrite mret_bind.
        match goal with |- context [mbind _ _ ?W] =>
          destruct (Htail None W [Session])
            as (o & w2 & post & Hrun & Hpost & Hprefix & Hfull & Hans);
            [by steps_normal | done |] end.
        exists o, w2, ([Session] ++ post). split; [exact Hrun|]. split; [exact Hpost|].
        split; [cbn [app upload_order]; by apply prefix_cons|].
        split; [split; [intros Hin; by destruct (Hlater _ _ Hprefix)
                       | subst wanted; rewrite ?Hh; intros (_ & _ & [? ?]); done]|].
        split; [intros Hok; by rewrite (Hfull Hok) | exact Hans].
  - assert (Hnot : ¬ wanted) by (subst wanted; by intros (? & _)).
    cbn [andb]. rewrite (bool_decide_false wanted) by done.
    rewrite mret_bind, mret_bind.
    match goal with |- context [mbind _ _ ?W] =>
      destruct (Htail role_arn W [Session])
        as (o & w2 & post & Hrun & Hpost & Hprefix & Hfull & Hans);
        [by steps_normal | done |] end.
    exists o, w2, ([Session] ++ post). split; [exact Hrun|]. split; [exact Hpost|].
    split; [cbn [app upload_order]; by apply prefix_cons|].
    split; [split; [intros Hin; by destruct (Hlater _ _ Hprefix) | done]|].
    split; [intros Hok; by rewrite (Hfull Hok) | exact Hans].
Qed.

(** C3, amended: the calls [_upload] makes are an initial part of the
    order session, role provisioning (when entered), upload, log role,
    registration, wait, status read, default version (when asked for), so
    the execution role is provisioned before the archive is uploaded; a
    run that returns has made all of them, and the run returns whenever
    the collaborators answer.  Role provisioning is entered exactly when
    the caller asked for the role, supplied no role ARN ([None] or the
    empty string), and the schema has a [handlers] key. *)
Theorem upload_call_order self sv fileobj endpoint_url region_name role_arn
    use_role set_default w a d parts region :
  schema self = VRef a → heap w !! a = Some (ODict d) → type_info self = Some parts →
  create_sdk_session sv region_name = Ok region →
  let wanted := use_role = true
                ∧ (role_arn = None ∨ role_arn = Some EmptyString)
                ∧ is_Some (Dict.get "handlers" d) in
  let order := upload_order (bool_decide wanted) set_default in
  let r := _upload self sv fileobj endpoint_url region_name role_arn use_role set_default w in
  ∃ made, map step_of (calls r.2) = map step_of (calls w) ++ made
    ∧ made `prefix_of` order
    ∧ (RoleProvisioned ∈ made ↔ wanted)
    ∧ (r.1 = Ok tt → made = order)
    ∧ (answering sv → r.1 = Ok tt).
Proof.
  intros Hs Ha Ht Hsession wanted order r.
  destruct (upload_steps self sv fileobj endpoint_url region_name role_arn use_role
              set_default w a d parts region Hs Ha Ht Hsession)
    as (o & w' & made & Hrun & H).
  exists made. subst r. by rewrite Hrun.
Qed.

Lemma obliging_answers : answering obliging.
Proof. repeat split; intros; by eexists _, _ || by eexists || done. Qed.

Lemma upload_call_order_witness :
  (let r := _upload (project_on schema_with_handlers false) obliging
              [("schema.json", Text "{}")] None None None true false
              (loaded schema_with_handlers ∅) in
   r.1 = Ok tt
   ∧ map step_of (calls r.2)
     = [Session; RoleProvisioned; Uploaded; LogRole; Registering; Waiting; Described])
  ∧ (let r := _upload (project_on schema_with_handlers false) obliging
                [("schema.json", Text "{}")] None None (Some "arn:aws:iam::1:role/mine")
                true true (loaded schema_with_handlers ∅) in
     r.1 = Ok tt
     ∧ map step_of (calls r.2)
       = [Session; Uploaded; LogRole; Registering; Waiting; Described; DefaultSet]).
Proof.
  split; cbv zeta.
  - destruct (upload_call_order (project_on schema_with_handlers false) obliging
                [("schema.json", Text "{}")] None None None true false
                (loaded schema_with_handlers ∅) _ _ _ _ eq_refl eq_refl eq_refl eq_refl)
      as (made & Hcalls & _ & _ & Hfull & Hanswered).
    pose proof (Hanswered obliging_answers) as Hok.
    split; [exact Hok|]. rewrite Hcalls, (Hfull Hok). by vm_compute.
  - destruct (upload_call_order (project_on schema_with_handlers false) obliging
                [("schema.json", Text "{}")] None None (Some "arn:aws:iam::1:role/mine")
                true true
                (loaded schema_with_handlers ∅) _ _ _ _ eq_refl eq_refl eq_refl eq_refl)
      as (made & Hcalls & _ & _ & Hfull & Hanswered).
    pose proof (Hanswered obliging_answers) as Hok.
    split; [exact Hok|]. rewrite Hcalls, (Hfull Hok). by vm_compute.
Defined.

(** C3 as stated fails: the archive upload does not come before the
    provisioning of the execution role, it comes after it. *)
Lemma upload_follows_role_provisioning :
  let r := _upload (project_on schema_with_handlers false) obliging
             [("schema.json", Text "{}")] None None None true false
             (loaded schema_with_handlers ∅) in
  r.1 = Ok tt
  ∧ map step_of (calls r.2)
    = [Session; RoleProvisioned; Uploaded; LogRole; Registering; Waiting; Described]
  ∧ comes_first Uploaded RoleProvisioned (map step_of (calls r.2)) = false
  ∧ comes_first RoleProvisioned Uploaded (map step_of (calls r.2)) = true.
Proof. by vm_compute. Qed.

(** ** The dry run *)

Lemma local_bind {A B} archive (m : M A) (k : A → M B) :
  local_to archive m → (∀ a, local_to archive (k a)) → local_to archive (m ≫= k).
Proof.
  intros Hm Hk w. destruct (Hm w) as [Hc Hf]. unfold mbind, M_bind.
  destruct (m w) as [[a|e|] w1]; cbn in *; [|done..].
  destruct (Hk a w1) as [Hc' Hf']. split; [congruence|].
  intros p Hp. by rewrite Hf', Hf.
Qed.

Lemma local_pure {A} archive (o : outcome A) : local_to archive (lift o).
Proof. by intros w. Qed.

Lemma local_log archive l f a : local_to archive (LOG l f a).
Proof. by intros w. Qed.

Lemma local_get_fs archive : local_to archive get_fs.
Proof. by intros w. Qed.

Lemma local_set_fs archive d : local_to archive (f ← get_fs; set_fs (<[archive := d]> f)).
Proof.
  intros w. split; [done|]. intros p Hp. by apply (lookup_insert_ne (fs w)).
Qed.

Lemma local_try_except {A} archive (body : M A) handler :
  local_to archive body → (∀ e h, handler e = Some h → local_to archive h) →
  local_to archive (try_except body handler).
Proof.
  intros Hb Hh w. destruct (Hb w) as [Hc Hf]. unfold try_except.
  destruct (body w) as [[a|e|] w1]; cbn in *; [done| |done].
  destruct (handler e) as [h|] eqn:He; [|done].
  destruct (Hh e h He w1) as [Hc' Hf']. split; [congruence|].
  intros p Hp. by rewrite Hf', Hf.
Qed.

Lemma local_zip_write archive entries src arcname :
  local_to archive (zip_write (Some archive) entries src arcname).
Proof.
  intros w. unfold zip_write, mbind, M_bind, get_fs. cbn.
  destruct (fs w !! src) as [d|]; [|done].
  split; [done|]. intros p Hp. by apply (lookup_insert_ne (fs w)).
Qed.

Lemma local_package sv archive entries : local_to archive (package sv (Some archive) entries).
Proof.
  intros w. unfold package, mbind, M_bind, get_fs, lift.
  destruct (plugin_package sv) as [added|e|]; [|done..].
  split; [done|]. intros p Hp. by apply (lookup_insert_ne (fs w)).
Qed.

Lemma zip_write_found archive entries src arcname w d :
  fs w !! src = Some d →
  zip_write (Some archive) entries src arcname w
  = (Ok (entries ++ [(arcname, d)]),
     with_fs (<[archive := ZipFile (entries ++ [(arcname, d)])]> (fs w)) w).
Proof. intros H. unfold zip_write, mbind, M_bind, get_fs. cbn. by rewrite H. Qed.

Lemma lookup_insert_is_Some' (f : gmap path data) archive d p :
  is_Some (f !! p) → is_Some (<[archive := d]> f !! p).
Proof.
  intros H. destruct (decide (archive = p)) as [->|Hne].
  - rewrite lookup_insert_eq. by eexists.
  - by rewrite lookup_insert_ne.
Qed.

(** C9: a dry run makes no remote call, whatever happens, and the one
    file it can change is [<hyphenated-name>.zip] in the working
    directory.  When the schema and the settings are on disk and the
    plugin packages without failure, it returns normally, the archive is
    in that file, and the last thing logged is the completion notice. *)
Theorem dry_run_is_local self sv endpoint_url region_name role_arn use_role set_default w :
  let r := submit self sv true endpoint_url region_name role_arn use_role set_default w in
  calls r.2 = calls w
  ∧ match type_info self with
    | None => r = (Raise TypeError, w)
    | Some parts =>
        let name := Str.lower (Str.join "-" parts) in
        let archive := cwd self ++ [name +:+ ".zip"] in
        (∀ p, p ≠ archive → fs r.2 !! p = fs w !! p)
        ∧ (∀ schema_file settings_file added,
             fs w !! (root self ++ [name +:+ ".json"]) = Some schema_file →
             fs w !! (root self ++ [SETTINGS_FILENAME]) = Some settings_file →
             plugin_package sv = Ok added →
             r.1 = Ok tt
             ∧ (∃ entries, fs r.2 !! archive = Some (ZipFile entries))
             ∧ last (log r.2) = Some (Log ERROR "Dry run complete: %s" [APath archive]))
    end.
Proof.
  intros r. subst r. unfold submit.
  destruct (type_info self) as [parts|] eqn:Ht;
    [| unfold hypenated_name; rewrite Ht; by rewrite bind_assoc ].
  set (name := Str.lower (Str.join "-" parts)).
  set (archive := cwd self ++ [name +:+ ".zip"]).
  set (w1 := with_fs (<[archive := ZipFile []]> (fs w)) w).
  erewrite (bind_ok _ _ w (Some archive) w1);
    [| by rewrite (bind_ok _ _ _ _ _ (hypenated_name_ok _ _ _ Ht)) ].
  unfold schema_path, schema_filename.
  rewrite !bind_assoc, (bind_ok _ _ _ _ _ (hypenated_name_ok _ _ _ Ht)).
  fold name. mnorm.
  match goal with |- context [(?prog w1).2] =>
    assert (Hlocal : local_to archive prog) end.
  { repeat first
      [ apply local_zip_write | apply local_package | apply local_log
      | apply (local_pure archive (Ok _))
      | apply local_try_except; [| intros [] h [= <-]]
      | apply local_bind; [| intros ?] ]. }
  destruct (Hlocal w1) as [Hcalls Hfs].
  split; [exact Hcalls|]. split.
  { intros p Hp. rewrite (Hfs p Hp). by apply (lookup_insert_ne (fs w)). }
  intros schema_file settings_file added Hschema Hsettings Hplugin.
  destruct (lookup_insert_is_Some' (fs w) archive (ZipFile []) _ (mk_is_Some _ _ Hschema))
    as [d1 Hd1].
  rewrite (bind_ok _ _ _ _ _ (zip_write_found _ _ _ _ w1 d1 Hd1)). cbv beta.
  match goal with |- context [mbind _ (zip_write _ _ (settings_path self) _) ?W] =>
    set (w2 := W) end.
  destruct (lookup_insert_is_Some' (fs w1) archive
              (ZipFile ([] ++ [(SCHEMA_UPLOAD_FILENAME, d1)])) (settings_path self)) as [d2 Hd2].
  { apply lookup_insert_is_Some'. by eexists. }
  rewrite (bind_ok _ _ _ _ _ (zip_write_found _ _ _ _ w2 d2 Hd2)). cbv beta.
  match goal with |- context [mbind _ (try_except _ _) ?W] => set (w3 := W) end.
  unfold package. rewrite Hplugin.
  unfold try_except, zip_write, mbind, M_bind, lift, LOG, get_fs, set_fs, raise, mret, M_ret.
  destruct (fs w3 !! overrides_path self) as [d3|]; cbn [fst snd fs log with_fs logged];
    (split; [done|]; split;
       [eexists; apply (lookup_insert_eq (M:=gmap path)) | by apply last_snoc]).
Qed.

Lemma dry_run_is_local_witness :
  let r := submit (project_on schema_with_handlers false) obliging true None None None
             true false (loaded schema_with_handlers project_files) in
  r.1 = Ok tt
  ∧ calls r.2 = []
  ∧ fs r.2 !! ["project"; "initech-tps-report.zip"]
    = Some (ZipFile [("schema.json", Text "{ schema }");
                     (".rpdk-config", Text "{ settings }");
                     ("code.zip", Text "code")]).
Proof.
  destruct (dry_run_is_local (project_on schema_with_handlers false) obliging None None None
              true false (loaded schema_with_handlers project_files))
    as (Hcalls & _ & Hdone).
  destruct (Hdone (Text "{ schema }") (Text "{ settings }") [("code.zip", Text "code")])
    as (Hok & _ & _); [by vm_compute | by vm_compute | reflexivity |].
  split; [exact Hok|]. split; [exact Hcalls|]. by vm_compute.
Defined.

(** ** The documentation walker: what a run leaves in place *)

Lemma type_stable_refl w : type_stable w w.
Proof. intros a d H. by exists d. Qed.

Lemma type_stable_trans w1 w2 w3 : type_stable w1 w2 → type_stable w2 w3 → type_stable w1 w3.
Proof.
  intros H12 H23 a d H. destruct (H12 a d H) as (d2 & H2 & Ht2).
  destruct (H23 a d2 H2) as (d3 & H3 & Ht3). exists d3. split; [done|congruence].
Qed.

Lemma fs_grows_refl w : fs_grows w w.
Proof. by intros p. Qed.

Lemma fs_grows_trans w1 w2 w3 : fs_grows w1 w2 → fs_grows w2 w3 → fs_grows w1 w3.
Proof. intros H12 H23 p H. auto. Qed.

Lemma calm_refl w : calm w w.
Proof. split; [done|]. split; [apply type_stable_refl | apply fs_grows_refl]. Qed.

Lemma calm_trans w1 w2 w3 : calm w1 w2 → calm w2 w3 → calm w1 w3.
Proof.
  intros (Hs & Ht & Hf) (Hs' & Ht' & Hf'). split; [congruence|].
  split; [by eapply type_stable_trans | by eapply fs_grows_trans].
Qed.

Lemma calm_emits w w' : calm w w' → emits w w' [].
Proof. intros (Hs & Ht & Hf). split; [by rewrite app_nil_r|done]. Qed.

Lemma emits_trans w1 w2 w3 e1 e2 : emits w1 w2 e1 → emits w2 w3 e2 → emits w1 w3 (e1 ++ e2).
Proof.
  intros (Hs & Ht & Hf) (Hs' & Ht' & Hf'). split; [by rewrite Hs', Hs, app_assoc|].
  split; [by eapply type_stable_trans | by eapply fs_grows_trans].
Qed.

Lemma emits_calm w1 w2 w3 evs : emits w1 w2 evs → calm w2 w3 → emits w1 w3 evs.
Proof.
  intros H1 H2%calm_emits. rewrite <- (app_nil_r evs). by eapply emits_trans.
Qed.

Lemma calm_then_emits w1 w2 w3 evs : calm w1 w2 → emits w2 w3 evs → emits w1 w3 evs.
Proof. intros H1%calm_emits H2. by apply (emits_trans _ _ _ _ _ H1 H2). Qed.

Lemma Pure_Calm {A} (m : M A) : Pure m → Calm m.
Proof. intros Hp w a w' H. rewrite (Hp _ _ _ H). apply calm_refl. Qed.

Lemma Calm_bind {A B} (m : M A) (k : A → M B) :
  Calm m → (∀ a, Calm (k a)) → Calm (m ≫= k).
Proof.
  intros Hm Hk w b w2 (a & w1 & H1 & H2)%bind_inv_ok.
  eapply calm_trans; [by eapply Hm | by eapply Hk].
Qed.

Lemma Pure_bind {A B} (m : M A) (k : A → M B) :
  Pure m → (∀ a, Pure (k a)) → Pure (m ≫= k).
Proof.
  intros Hm Hk w b w2 (a & w1 & H1 & H2)%bind_inv_ok.
  rewrite (Hk _ _ _ _ H2). by eapply Hm.
Qed.

Lemma Pure_mret {A} (a : A) : Pure (mret a : M A).
Proof. by intros w a' w' [= _ <-]. Qed.

Lemma Pure_raise {A} e : Pure (raise e : M A).
Proof. by intros w a w' H. Qed.

Lemma Pure_stuck {A} : Pure (stuck : M A).
Proof. by intros w a w' H. Qed.

Lemma Pure_lift {A} (o : outcome A) : Pure (lift o).
Proof. by intros w a w' [= _ <-]. Qed.

Lemma Pure_get_heap : Pure get_heap.
Proof. by intros w a w' [= _ <-]. Qed.

Lemma Pure_get_fs : Pure get_fs.
Proof. by intros w a w' [= _ <-]. Qed.

Lemma Pure_deref a : Pure (Py.deref a).
Proof.
  unfold Py.deref. apply Pure_bind; [apply Pure_get_heap|]. intros h.
  destruct (h !! a); [apply Pure_mret | apply Pure_stuck].
Qed.

Ltac pure_tac :=
  repeat first
    [ apply Pure_mret | apply Pure_raise | apply Pure_stuck | apply Pure_lift
    | apply Pure_get_heap | apply Pure_get_fs | apply Pure_deref
    | apply Pure_bind; [| intros ?]
    | match goal with
      | |- Pure (match ?x with _ => _ end) => destruct x
      | |- Pure (if ?x then _ else _) => destruct x
      end ].

Lemma Pure_truthy v : Pure (Py.truthy v).
Proof. unfold Py.truthy. pure_tac. Qed.

Lemma Pure_str_in s c : Pure (Py.str_in s c).
Proof. unfold Py.str_in. pure_tac. Qed.

Lemma Pure_getitem c k : Pure (Py.getitem c k).
Proof. unfold Py.getitem. pure_tac. Qed.

Lemma Pure_get c k : Pure (Py.get c k).
Proof. unfold Py.get. pure_tac. Qed.

Lemma Pure_get_default c k dflt : Pure (Py.get_default c k dflt).
Proof. unfold Py.get_default. pure_tac. Qed.

Lemma Pure_items c : Pure (Py.items c).
Proof. unfold Py.items. pure_tac. Qed.

Lemma Pure_as_str v : Pure (Py.as_str v).
Proof. unfold Py.as_str. pure_tac. Qed.

Lemma Pure_type_name self : Pure (type_name self).
Proof. unfold type_name. pure_tac. Qed.

Lemma Pure_resolve_fragment parts document : Pure (RefResolver.resolve_fragment parts document).
Proof.
  revert document. induction parts as [|part rest IH]; intros document; simpl.
  - apply Pure_mret.
  - destruct document; try apply Pure_raise; try apply Pure_stuck.
    apply Pure_bind; [apply Pure_deref|]. intros [d|l].
    + destruct (Dict.get _ d); [apply IH | apply Pure_raise].
    + destruct (RefResolver.parse_index _); [|apply Pure_stuck].
      destruct (l !! _); [apply IH | apply Pure_raise].
Qed.

Lemma Pure_resolve root ref : Pure (RefResolver.resolve root ref).
Proof.
  unfold RefResolver.resolve. destruct ref; try apply Pure_stuck.
  destruct s as [|c fragment]; [apply Pure_stuck|].
  destruct c as [[] [] [] [] [] [] [] []]; try apply Pure_stuck.
  destruct (Str.has_char _ _); [apply Pure_stuck|]. apply Pure_resolve_fragment.
Qed.

Lemma Pure_listed_in self key ptr : Pure (listed_in self key ptr).
Proof.
  unfold listed_in. apply Pure_bind; [apply Pure_str_in|]. intros [].
  - apply Pure_bind; [apply Pure_getitem|]. intros l. apply Pure_str_in.
  - apply Pure_mret.
Qed.

(** *** Dicts *)

Lemma dict_get_set_eq k v d : Dict.get k (Dict.set k v d) = Some v.
Proof.
  induction d as [|[k' v'] r IH]; simpl.
  - by rewrite String.eqb_refl.
  - destruct (String.eqb k' k) eqn:E; simpl.
    + by rewrite String.eqb_refl.
    + by rewrite E.
Qed.

Lemma dict_get_set_ne k k' v d : k ≠ k' → Dict.get k' (Dict.set k v d) = Dict.get k' d.
Proof.
  intros Hne. induction d as [|[k0 v0] r IH]; simpl.
  - by apply String.eqb_neq in Hne as ->.
  - destruct (String.eqb k0 k) eqn:E; simpl.
    + apply String.eqb_eq in E as ->. by apply String.eqb_neq in Hne as ->.
    + by rewrite IH.
Qed.

(** *** The steps that change the state *)

Lemma setitem_inv c k v w u w' :
  Py.setitem c k v w = (Ok u, w') →
  ∃ a d, c = VRef a ∧ heap w !! a = Some (ODict d)
    ∧ w' = with_heap (<[a := ODict (Dict.set k v d)]> (heap w)) w.
Proof.
  unfold Py.setitem. destruct c; try done.
  intros (o & w1 & Hd & H)%bind_inv_ok.
  pose proof (Pure_deref _ _ _ _ Hd) as ->.
  unfold Py.deref, get_heap, mbind, M_bind in Hd.
  destruct (heap w !! a) as [o'|] eqn:Ha; [|done]. injection Hd as ->.
  destruct o as [d|l]; [|done]. injection H as <-. by exists a, d.
Qed.

Lemma Calm_setitem c k v : k ≠ "type" → Calm (Py.setitem c k v).
Proof.
  intros Hk w u w' (a & d & -> & Ha & ->)%setitem_inv.
  split; [done|]. split; [|by intros ?].
  intros a0 d0 H0. cbn [heap with_heap].
  destruct (decide (a0 = a)) as [->|Hne].
  - exists (Dict.set k v d). rewrite list_lookup_insert_eq by by eapply lookup_lt_Some.
    split; [done|]. rewrite dict_get_set_ne by done. congruence.
  - exists d0. by rewrite list_lookup_insert_ne.
Qed.

Lemma Calm_alloc o : Calm (Py.alloc o).
Proof.
  intros w v w' [= _ <-]. split; [done|]. split; [|by intros ?].
  intros a d H. exists d. split; [|done]. cbn. by apply lookup_app_l_Some.
Qed.

Lemma Calm_LOG l f a : Calm (LOG l f a).
Proof.
  intros w [] w' [= <-]. split; [done|]. split; [|by intros ?].
  intros a0 d0 H. by exists d0.
Qed.

Lemma safewrite_inv self p d w u w' :
  safewrite self p (Contents d) w = (Ok u, w') →
  heap w' = heap w ∧ side_artifacts w' = side_artifacts w
  ∧ fs_grows w w' ∧ is_Some (fs w' !! p).
Proof.
  destruct u. unfold safewrite, overwrite, write_contents, try_except.
  destruct (overwrite_enabled self).
  - intros [= <-]. split; [done|]. split; [done|]. split.
    + intros q Hq. by apply lookup_insert_is_Some'.
    + apply (lookup_insert_is_Some (fs w)). by left.
  - unfold mbind, M_bind, get_fs.
    destruct (fs w !! p) as [old|] eqn:Hp.
    + intros [= <-]. split; [done|]. split; [done|]. split; [by intros ?|].
      cbn. by rewrite Hp.
    + intros [= <-]. split; [done|]. split; [done|]. split.
      * intros q Hq. by apply lookup_insert_is_Some'.
      * apply (lookup_insert_is_Some (fs w)). by left.
Qed.

Lemma Calm_safewrite self p d : Calm (safewrite self p (Contents d)).
Proof.
  intros w u w' (Hh & Hs & Hf & _)%safewrite_inv.
  split; [done|]. split; [|done].
  intros a d0 H. exists d0. by rewrite Hh.
Qed.

Ltac calm_tac :=
  repeat first
    [ apply Calm_LOG | apply Calm_alloc | apply Calm_safewrite
    | apply Calm_setitem; discriminate
    | apply Pure_Calm;
      first [ apply Pure_mret | apply Pure_truthy | apply Pure_str_in | apply Pure_getitem
            | apply Pure_get | apply Pure_get_default | apply Pure_items | apply Pure_as_str
            | apply Pure_type_name | apply Pure_resolve | apply Pure_listed_in
            | apply Pure_get_heap | apply Pure_raise | apply Pure_stuck ]
    | apply Calm_bind; [| intros ?]
    | match goal with
      | |- Calm (match ?x with _ => _ end) => destruct x
      | |- Calm (if ?x then _ else _) => destruct x
      end ].

Lemma Pure_elim {A} (m : M A) w a w' : Pure m → m w = (Ok a, w') → w' = w.
Proof. intros H. apply H. Qed.

Lemma Calm_elim {A} (m : M A) w a w' : Calm m → m w = (Ok a, w') → calm w w'.
Proof. intros H. apply H. Qed.

Ltac solve_pure :=
  first [ apply Pure_mret | apply Pure_truthy | apply Pure_str_in | apply Pure_getitem
        | apply Pure_get | apply Pure_get_default | apply Pure_items | apply Pure_as_str
        | apply Pure_type_name | apply Pure_resolve | apply Pure_listed_in
        | apply Pure_get_heap | apply Pure_raise | apply Pure_stuck ].

(** One step of a run: the first computation of a bind returned [x]. *)
Ltac step_pure H x Hx :=
  let w1 := fresh "w" in
  apply bind_inv_ok in H as (x & w1 & Hx & H);
  let E := fresh "E" in
  assert (E : w1 = _) by (eapply Pure_elim; [| exact Hx]; pure_tac; solve_pure);
  subst w1.

Ltac step_calm H x w1 Hx Hc :=
  apply bind_inv_ok in H as (x & w1 & Hx & H);
  assert (Hc : calm _ w1) by (eapply Calm_elim; [| exact Hx]; calm_tac).

Lemma dict_items_from_spec seen d :
  NoDup (map fst (Dict.items_from seen d))
  ∧ ∀ k, k ∈ map fst (Dict.items_from seen d) → k ∉ seen.
Proof.
  revert seen. induction d as [|[k v] r IH]; intros seen; simpl.
  - split; [constructor|]. intros k Hk. by apply elem_of_nil in Hk.
  - destruct (existsb (String.eqb k) seen) eqn:E.
    + apply IH.
    + destruct (IH (k :: seen)) as [Hnd Hnot]. split.
      * simpl. constructor; [|done]. intros Hk. apply (Hnot k Hk). apply list_elem_of_here.
      * intros k' [->|Hk']%elem_of_cons.
        -- intros Hin. apply list_elem_of_In in Hin.
           assert (existsb (String.eqb k) seen = true) as Ht; [|congruence].
           apply existsb_exists. exists k. split; [done|apply String.eqb_refl].
        -- intros Hin. apply (Hnot k' Hk'). by apply list_elem_of_further.
Qed.

Lemma dict_items_NoDup d : NoDup (map fst (Dict.items d)).
Proof. apply dict_items_from_spec. Qed.

Lemma items_inv c w l w' :
  Py.items c w = (Ok l, w') → NoDup (map fst l).
Proof.
  unfold Py.items. destruct c; try done.
  intros (o & w1 & Hd & H)%bind_inv_ok. destruct o as [d|]; [|done].
  injection H as <- _. apply dict_items_NoDup.
Qed.

Lemma prefix_same_length {A} (l1 l2 q : list A) :
  l1 `prefix_of` q → l2 `prefix_of` q → length l1 = length l2 → l1 = l2.
Proof.
  intros [k1 ->] [k2 Hq] Hlen. by apply app_inj_1 in Hq as [-> _].
Qed.

Lemma prefix_snoc_weaken {A} (p : list A) x q : (p ++ [x]) `prefix_of` q → p `prefix_of` q.
Proof. intros [k ->]. exists (x :: k). by rewrite <- app_assoc. Qed.

Lemma prefix_snoc_neq {A} (p : list A) x q : (p ++ [x]) `prefix_of` q → q ≠ p.
Proof.
  intros [k ->] Heq. apply (f_equal length) in Heq. rewrite !length_app in Heq.
  simpl in Heq. lia.
Qed.

(** *** The members of an object node *)

Lemma comprehension_from_artifacts self proppath (f : string → val → M val) c all :
  (∀ name value w r w', f name value w = (Ok r, w') →
     ∃ evs, emits w w' evs ∧ scoped self (proppath ++ [name]) w' evs) →
  ∀ todo w vs w', NoDup (map fst todo) →
    Py.comprehension_from f c all todo w = (Ok vs, w') →
    ∃ evs, emits w w' evs ∧ NoDup (map fst evs)
      ∧ ∀ e, e ∈ evs →
          (∃ name, name ∈ map fst todo ∧ (proppath ++ [name]) `prefix_of` e.1)
          ∧ e.2 = artifact_path self e.1
          ∧ is_Some (fs w' !! e.2).
Proof.
  intros Hf todo. induction todo as [|[name value] rest IH]; intros w vs w' Hnd H.
  - injection H as <- <-. exists []. split; [apply calm_emits, calm_refl|].
    split; [constructor|]. intros e He. by apply elem_of_nil in He.
  - cbn [Py.comprehension_from] in H.
    apply bind_inv_ok in H as (v & w1 & Hv & H).
    destruct (Hf _ _ _ _ _ Hv) as (evs1 & Hem1 & Hnd1 & Hsc1).
    step_pure H now Hnow.
    destruct (decide (now = all)) as [->|]; [|done].
    apply bind_inv_ok in H as (vs' & w2 & Hrest & H). injection H as <- <-.
    simpl in Hnd. apply NoDup_cons in Hnd as [Hname Hnd].
    destruct (IH _ _ _ Hnd Hrest) as (evs2 & Hem2 & Hnd2 & Hsc2).
    exists (evs1 ++ evs2). split; [by eapply emits_trans|]. split.
    + rewrite map_app. apply NoDup_app. split; [done|]. split; [|done].
      intros q [e1 [-> He1]]%list_elem_of_fmap [e2 [Heq He2]]%list_elem_of_fmap.
      destruct (Hsc1 e1 He1) as (Hp1 & _).
      destruct (Hsc2 e2 He2) as ((name' & Hin & Hp2) & _).
      rewrite <- Heq in Hp2.
      assert (proppath ++ [name] = proppath ++ [name']) as Hsame.
      { eapply prefix_same_length; [done..|]. by rewrite !length_app. }
      apply app_inj_1 in Hsame as [_ [= ->]]; [|done]. done.
    + intros e [He|He]%elem_of_app.
      * destruct (Hsc1 e He) as (Hp & Hn & Hfile). split; [|split; [done|]].
        -- exists name. split; [apply list_elem_of_here|done].
        -- destruct Hem2 as (_ & _ & Hgrow). by apply Hgrow.
      * destruct (Hsc2 e He) as ((name' & Hin & Hp) & Hn & Hfile). split; [|done].
        exists name'. split; [by apply list_elem_of_further|done].
Qed.

Lemma comprehension_artifacts self proppath (f : string → val → M val) c w v w' :
  (∀ name value w r w', f name value w = (Ok r, w') →
     ∃ evs, emits w w' evs ∧ scoped self (proppath ++ [name]) w' evs) →
  Py.comprehension f c w = (Ok v, w') →
  ∃ evs, emits w w' evs ∧ NoDup (map fst evs)
    ∧ ∀ e, e ∈ evs →
        (∃ name, (proppath ++ [name]) `prefix_of` e.1)
        ∧ e.2 = artifact_path self e.1
        ∧ is_Some (fs w' !! e.2).
Proof.
  intros Hf H. unfold Py.comprehension in H.
  apply bind_inv_ok in H as (all & w0 & Hall & H).
  pose proof (items_inv _ _ _ _ Hall) as Hnd.
  assert (w0 = w) as -> by (eapply Pure_elim; [apply Pure_items | exact Hall]).
  apply bind_inv_ok in H as (vs & w1 & Hvs & H).
  destruct (comprehension_from_artifacts self proppath f c all Hf _ _ _ _ Hnd Hvs)
    as (evs & Hem & Hnd' & Hsc).
  assert (Hc : calm w1 w') by (eapply Calm_elim; [apply Calm_alloc | exact H]).
  exists evs. split; [by eapply emits_calm|]. split; [done|].
  intros e He. destruct (Hsc e He) as ((name & _ & Hp) & Hn & Hfile).
  split; [by exists name|]. split; [done|].
  destruct Hc as (_ & _ & Hgrow). by apply Hgrow.
Qed.

(** *** One visit of the walker *)

Lemma get_default_inv c k dflt w v w' :
  Py.get_default c k dflt w = (Ok v, w') →
  w' = w ∧ ∃ a d, c = VRef a ∧ heap w !! a = Some (ODict d) ∧ v = default dflt (Dict.get k d).
Proof.
  intros H. split; [by eapply Pure_elim; [apply Pure_get_default|]|].
  unfold Py.get_default in H. destruct c; try done.
  apply bind_inv_ok in H as (o & w1 & Hd & H).
  pose proof (Pure_deref _ _ _ _ Hd) as ->.
  unfold Py.deref, get_heap, mbind, M_bind in Hd.
  destruct (heap w !! a) as [o'|] eqn:Ha; [|done]. injection Hd as ->.
  destruct o as [d|l]; [|done]. injection H as <- _. by exists a, d.
Qed.

Lemma displays_setitem c c' k v t w u w' :
  displays w c t → Py.setitem c' k v w = (Ok u, w') →
  k ≠ "jsontype" → k ≠ "yamltype" → k ≠ "longformtype" →
  displays w' c t.
Proof.
  intros (a & d & -> & Ha & Hj & Hy & Hl) (a' & d' & -> & Ha' & ->)%setitem_inv Hkj Hky Hkl.
  destruct (decide (a = a')) as [<-|Hne].
  - exists a, (Dict.set k v d). rewrite Ha in Ha'. injection Ha' as <-.
    split; [done|]. split.
    { cbn. apply list_lookup_insert_eq. by eapply lookup_lt_Some. }
    by rewrite !dict_get_set_ne.
  - exists a, d. split; [done|]. split; [|done].
    cbn. by rewrite list_lookup_insert_ne.
Qed.

Lemma displays_set c t w1 w2 w3 w4 u1 u2 u3 :
  Py.setitem c "jsontype" (VStr t) w1 = (Ok u1, w2) →
  Py.setitem c "yamltype" (VStr t) w2 = (Ok u2, w3) →
  Py.setitem c "longformtype" (VStr t) w3 = (Ok u3, w4) →
  displays w4 c t.
Proof.
  intros (a & d1 & -> & Ha1 & ->)%setitem_inv (a2 & d2 & [= <-] & Ha2 & ->)%setitem_inv
         (a3 & d3 & [= <-] & Ha3 & ->)%setitem_inv.
  cbn [heap with_heap] in *.
  rewrite list_lookup_insert_eq in Ha2 by by eapply lookup_lt_Some.
  injection Ha2 as <-.
  rewrite list_lookup_insert_eq in Ha3 by (rewrite length_insert; by eapply lookup_lt_Some).
  injection Ha3 as <-.
  eexists a, _. split; [done|]. split.
  { apply list_lookup_insert_eq. rewrite !length_insert. by eapply lookup_lt_Some. }
  split; [|split].
  - rewrite !dict_get_set_ne by done. apply dict_get_set_eq.
  - rewrite dict_get_set_ne by done. apply dict_get_set_eq.
  - apply dict_get_set_eq.
Qed.

Lemma object_typed_back w w' a d :
  heap w !! a = Some (ODict d) → type_stable w w' → object_typed w' (VRef a) →
  default (VStr "object") (Dict.get "type" d) = VStr "object".
Proof.
  intros Ha Hst (a' & d' & [= <-] & Ha' & Ht).
  destruct (Hst a d Ha) as (d'' & Ha'' & Heq). rewrite Ha' in Ha''. injection Ha'' as <-.
  by rewrite <- Heq.
Qed.

Lemma scoped_nil self proppath w : scoped self proppath w [].
Proof. split; [constructor|]. intros e He. by apply elem_of_nil in He. Qed.

Lemma scoped_grows self proppath w w' evs :
  scoped self proppath w evs → fs_grows w w' → scoped self proppath w' evs.
Proof.
  intros [Hnd Hsc] Hgrow. split; [done|]. intros e He.
  destruct (Hsc e He) as (Hp & Hn & Hfile). split; [done|]. split; [done|]. by apply Hgrow.
Qed.

Lemma walk_artifacts self fuel : ∀ propname prop proppath w r w',
  _set_docs_properties self fuel propname prop proppath w = (Ok r, w') →
  ∃ evs, emits w w' evs ∧ scoped self proppath w' evs
    ∧ (object_typed w' r →
         last evs = Some (proppath, artifact_path self proppath)
         ∧ displays w' r (href (subproperty_filename proppath) propname)).
Proof.
  induction fuel as [|fuel IH]; intros propname prop proppath w r w' H; [done|].
  cbn [_set_docs_properties] in H.
  step_pure H has_ref Href.
  step_pure H target Htarget.
  step_pure H createonly Hco.
  step_calm H u1 w1 Hset1 Hc1.
  step_pure H readonly Hro.
  step_calm H u2 w2 Hset2 Hc2.
  apply bind_inv_ok in H as (prop_type & w3 & Hpt & H).
  apply get_default_inv in Hpt as (-> & a & d & -> & Ha & ->).
  apply bind_inv_ok in H as (u3 & w4 & Hbranch & H).
  step_pure H has_enum Henum.
  apply bind_inv_ok in H as (u4 & w5 & Hen & H). injection H as <- <-.
  assert (Hc12 : calm w w2) by apply (calm_trans _ _ _ Hc1 Hc2).
  assert (Hc5 : calm w4 w5) by (eapply Calm_elim; [| exact Hen]; calm_tac).
  assert (Hd5 : ∀ t, displays w4 (VRef a) t → displays w5 (VRef a) t).
  { intros t Ht. destruct has_enum; [|by injection Hen as _ <-].
    apply bind_inv_ok in Hen as (e & w6 & He & Hen).
    assert (w6 = w4) as -> by (eapply Pure_elim; [apply Pure_getitem | exact He]).
    by eapply displays_setitem. }
  set (file := artifact_path self proppath).
  remember (default (VStr "object") (Dict.get "type" d)) as prop_type eqn:Hpt.
  assert (Hback : type_stable w2 w5 → object_typed w5 (VRef a) → prop_type = VStr "object").
  { intros Hst Hobj. rewrite Hpt. by eapply object_typed_back. }
  assert (Hquiet : calm w2 w4 → prop_type ≠ VStr "object" →
    ∃ evs, emits w w5 evs ∧ scoped self proppath w5 evs
      ∧ (object_typed w5 (VRef a) →
           last evs = Some (proppath, file)
           ∧ displays w5 (VRef a) (href (subproperty_filename proppath) propname))).
  { intros Hc24 Hne. exists []. split.
    { apply calm_emits. eapply calm_trans; [exact Hc12|]. by eapply calm_trans. }
    split; [apply scoped_nil|]. intros Hobj. destruct Hne. apply Hback; [|done].
    destruct (calm_trans _ _ _ Hc24 Hc5) as (_ & Hst & _). exact Hst. }
  destruct prop_type as [| b | n | t | ref]; cbv beta iota in Hbranch; [| | | | done];
    try (apply Hquiet; [| done];
         destruct (decide _); [done|]; destruct (decide _); [done|];
         eapply Calm_elim; [| exact Hbranch]; calm_tac).
  destruct (BASIC_TYPE_MAPPINGS t) as [mapped|] eqn:Hmap.
  { apply Hquiet; [eapply Calm_elim; [| exact Hbranch]; calm_tac|].
    intros [= ->]. done. }
  destruct (decide (VStr t = VStr "array")) as [Harr|Hnarr].
  { (* an array: the artifacts are those of the items *)
    step_pure Hbranch items Hitems.
    apply bind_inv_ok in Hbranch as (arrayitems & w6 & Hrec & Hbranch).
    destruct (IH _ _ _ _ _ _ Hrec) as (evs & Hem & Hsc & _).
    assert (Hc64 : calm w6 w4) by (eapply Calm_elim; [| exact Hbranch]; calm_tac).
    assert (Hc65 : calm w6 w5) by apply (calm_trans _ _ _ Hc64 Hc5).
    exists evs. split.
    { eapply calm_then_emits; [exact Hc12|]. by eapply emits_calm. }
    split.
    { eapply scoped_grows; [exact Hsc|]. apply Hc65. }
    intros Hobj. exfalso.
    assert (VStr t = VStr "object") as Heq; [|congruence].
    apply Hback; [|done]. eapply type_stable_trans; [apply Hem | apply Hc65]. }
  destruct (decide (VStr t = VStr "object")) as [Hobj|Hnobj];
    [| apply Hquiet; [eapply Calm_elim; [| exact Hbranch]; calm_tac | done] ].
  (* an object: the artifacts of the members, then its own *)
  step_pure Hbranch p Hp.
  step_pure Hbranch tr Htr.
  step_calm Hbranch object_properties w6 Hop Hc26.
  apply bind_inv_ok in Hbranch as (members & w7 & Hcomp & Hbranch).
  destruct (comprehension_artifacts self proppath _ _ _ _ _
              (λ name value w r w' Hrun,
                 match IH name value (proppath ++ [name]) w r w' Hrun with
                 | ex_intro _ evs (conj Hem (conj Hsc _)) => ex_intro _ evs (conj Hem Hsc)
                 end) Hcomp)
    as (evs & Hem & Hnd & Hsc).
  step_calm Hbranch u5 w8 Hsetp Hc78.
  step_calm Hbranch u6 w9 Hlog Hc89.
  step_pure Hbranch tn Htn.
  step_pure Hbranch h Hh.
  apply bind_inv_ok in Hbranch as (u7 & w10 & Hrecord & Hbranch).
  injection Hrecord as _ <-.
  apply bind_inv_ok in Hbranch as (u8 & w11 & Hwrite & Hbranch).
  pose proof (Calm_elim _ _ _ _ (Calm_safewrite _ _ _) Hwrite) as Hc1011.
  apply safewrite_inv in Hwrite as (_ & _ & _ & Hfile).
  apply bind_inv_ok in Hbranch as (u9 & w12 & Hj & Hbranch).
  apply bind_inv_ok in Hbranch as (u10 & w13 & Hy & Hl).
  pose proof (displays_set _ _ _ _ _ _ _ _ _ Hj Hy Hl) as Hdisp.
  assert (Hc114 : calm w11 w4).
  { eapply calm_trans; [eapply Calm_elim; [| exact Hj]; calm_tac|].
    eapply calm_trans; [eapply Calm_elim; [| exact Hy]; calm_tac|].
    eapply Calm_elim; [| exact Hl]; calm_tac. }
  assert (Hc115 : calm w11 w5) by apply (calm_trans _ _ _ Hc114 Hc5).
  assert (Hown : emits w9 (emitted proppath file w9) [(proppath, file)]).
  { split; [done|]. split; [|by intros ?]. intros a0 d0 H0. by exists d0. }
  assert (Hc79 : calm w7 w9) by apply (calm_trans _ _ _ Hc78 Hc89).
  assert (Hc105 : calm (emitted proppath file w9) w5)
    by apply (calm_trans _ _ _ Hc1011 Hc115).
  exists (evs ++ [(proppath, file)]). split.
  { eapply calm_then_emits; [exact Hc12|]. eapply calm_then_emits; [exact Hc26|].
    eapply emits_trans; [exact Hem|]. eapply calm_then_emits; [exact Hc79|].
    apply (emits_calm _ _ _ _ Hown Hc105). }
  split.
  { split.
    - rewrite map_app. apply NoDup_app. split; [done|]. split; [|apply NoDup_singleton].
      intros q [e [-> He]]%list_elem_of_fmap Hq%list_elem_of_singleton.
      destruct (Hsc e He) as ((name & Hpre) & _). by apply prefix_snoc_neq in Hpre.
    - intros e [He|He]%elem_of_app; [|apply list_elem_of_singleton in He as ->].
      + destruct (Hsc e He) as ((name & Hpre) & Hn & Hpresent).
        split; [by eapply prefix_snoc_weaken|]. split; [done|].
        destruct Hc79 as (_ & _ & Hg1). destruct Hc105 as (_ & _ & Hg2).
        apply Hg2. cbn. by apply Hg1.
      + split; [done|]. split; [done|]. destruct Hc115 as (_ & _ & Hg). by apply Hg. }
  intros _. split; [apply last_snoc|]. by apply Hd5.
Qed.

(** ** A node that declares nothing *)

Lemma str_in_list s a l w :
  heap w !! a = Some (OList l) →
  Py.str_in s (VRef a) w = (Ok (bool_decide (VStr s ∈ l)), w).
Proof. intros H. unfold Py.str_in. by rewrite (bind_ok _ _ _ _ _ (deref_ok _ _ _ H)). Qed.

Lemma listed_in_run self key ptr s sd w :
  schema self = VRef s → heap w !! s = Some (ODict sd) → pointer_list w sd key →
  ∃ b, listed_in self key ptr w = (Ok b, w).
Proof.
  intros Hs Hsd Hkey. unfold listed_in. rewrite Hs.
  rewrite (bind_ok _ _ _ _ _ (str_in_dict _ _ _ _ Hsd)).
  unfold pointer_list in Hkey. destruct (Dict.get key sd) as [v|] eqn:Hget.
  - rewrite bool_decide_true by by eexists.
    rewrite (bind_ok _ _ _ _ _ (getitem_dict _ _ _ _ _ Hsd Hget)).
    destruct v; try done. destruct Hkey as [xs Hxs].
    eexists. by apply str_in_list.
  - rewrite bool_decide_false by (by intros [? ?]). by eexists.
Qed.

Lemma flag_run (b : bool) a k v d w :
  heap w !! a = Some (ODict d) →
  ∃ w', (if b then Py.setitem (VRef a) k v else mret tt) w = (Ok tt, w')
    ∧ heap w' = <[a := ODict (if b then Dict.set k v d else d)]> (heap w)
    ∧ fs w' = fs w ∧ log w' = log w ∧ side_artifacts w' = side_artifacts w.
Proof.
  intros Ha. destruct b.
  - eexists. split; [by apply setitem_dict|]. done.
  - exists w. split; [done|]. split; [|done]. by rewrite list_insert_id.
Qed.

Lemma dict_get_flag (b : bool) k f v d :
  f ≠ k → Dict.get k (if b then Dict.set f v d else d) = Dict.get k d.
Proof. intros Hne. destruct b; [by apply dict_get_set_ne|done]. Qed.

Lemma safewrite_run self p d w :
  ∃ w', safewrite self p (Contents d) w = (Ok tt, w')
    ∧ heap w' = heap w ∧ side_artifacts w' = side_artifacts w.
Proof.
  unfold safewrite, overwrite, write_contents, try_except.
  destruct (overwrite_enabled self); [by eexists|].
  unfold mbind, M_bind, get_fs. destruct (fs w !! p); by eexists.
Qed.

Lemma heap_insert_node a d (h : list obj) o :
  h !! a = Some o → <[a := ODict d]> h !! a = Some (ODict d).
Proof. intros H. apply list_lookup_insert_eq. by eapply lookup_lt_Some. Qed.

Lemma truthy_none w : Py.truthy VNone w = (Ok false, w).
Proof. done. Qed.

Lemma get_heap_run w : get_heap w = (Ok (heap w), w).
Proof. done. Qed.

Lemma record_run proppath p w :
  record_side_artifact proppath p w = (Ok tt, emitted proppath p w).
Proof. done. Qed.

(** The run of the walker on a node that declares nothing. *)
Lemma bare_node_run self fuel propname proppath w a d s sd parts :
  heap w !! a = Some (ODict d) → bare_node d →
  schema self = VRef s → s ≠ a → heap w !! s = Some (ODict sd) →
  pointer_list w sd "createOnlyProperties" → pointer_list w sd "readOnlyProperties" →
  type_info self = Some parts →
  ∃ w' d' m,
    _set_docs_properties self (S fuel) propname (VRef a) proppath w = (Ok (VRef a), w')
    ∧ side_artifacts w' = side_artifacts w ++ [(proppath, artifact_path self proppath)]
    ∧ heap w' !! a = Some (ODict d')
    ∧ Dict.get "type" d' = None
    ∧ Dict.get "properties" d' = Some (VRef m)
    ∧ heap w' !! m = Some (ODict []).
Proof.
  intros Ha (Hnoref & Hnotype & Hnoprops & Hnopat) Hs Hsa Hsd Hco Hro Ht.
  cbn [_set_docs_properties].
  rewrite (bind_ok _ _ _ _ _ (str_in_dict _ _ _ _ Ha)).
  mnorm.
  rewrite Hnoref, bool_decide_false by (by intros [? ?]). rewrite mret_bind.
  (* the create-only flag *)
  destruct (listed_in_run self "createOnlyProperties"
              (Pointer.fragment_encode ("properties" :: proppath) EmptyString) _ _ _ Hs Hsd Hco)
    as [co Hcorun].
  rewrite (bind_ok _ _ _ _ _ Hcorun).
  mnorm.
  destruct (flag_run co a "createonly" (VBool true) d w Ha) as (w1 & Hrun1 & Hh1 & Hf1 & _ & Hs1).
  rewrite (bind_ok _ _ _ _ _ Hrun1).
  mnorm.
  set (d1 := if co then Dict.set "createonly" (VBool true) d else d) in *.
  assert (Ha1 : heap w1 !! a = Some (ODict d1)) by (rewrite Hh1; by eapply heap_insert_node).
  assert (Hsd1 : heap w1 !! s = Some (ODict sd)) by (rewrite Hh1; by rewrite list_lookup_insert_ne).
  assert (Hro1 : pointer_list w1 sd "readOnlyProperties").
  { unfold pointer_list in *. destruct (Dict.get "readOnlyProperties" sd) as [[| | | |l]|]; try done.
    destruct Hro as [xs Hxs]. exists xs. rewrite Hh1.
    rewrite list_lookup_insert_ne; [done|]. intros <-. congruence. }
  (* the read-only flag *)
  destruct (listed_in_run self "readOnlyProperties"
              (Pointer.fragment_encode ("properties" :: proppath) EmptyString) _ _ _ Hs Hsd1 Hro1)
    as [ro Hrorun].
  rewrite (bind_ok _ _ _ _ _ Hrorun).
  mnorm.
  destruct (flag_run ro a "readonly" (VBool true) d1 w1 Ha1) as (w2 & Hrun2 & Hh2 & Hf2 & _ & Hs2).
  rewrite (bind_ok _ _ _ _ _ Hrun2).
  mnorm.
  set (d2 := if ro then Dict.set "readonly" (VBool true) d1 else d1) in *.
  assert (Ha2 : heap w2 !! a = Some (ODict d2)) by (rewrite Hh2; by eapply heap_insert_node).
  assert (Hget2 : ∀ k, k ≠ "createonly" → k ≠ "readonly" → Dict.get k d2 = Dict.get k d).
  { intros k Hk1 Hk2. unfold d2, d1. by rewrite !dict_get_flag. }
  (* classified as an object *)
  rewrite (bind_ok _ _ _ _ _ (get_default_dict "type" (VStr "object") _ _ _ Ha2)).
  mnorm.
  rewrite (Hget2 "type") by done. rewrite Hnotype. cbn [default].
  change (BASIC_TYPE_MAPPINGS "object") with (@None string). cbv beta iota.
  rewrite decide_False by done. rewrite decide_True by done. mnorm.
  (* no members *)
  rewrite ?bind_assoc.
  rewrite (bind_ok _ _ _ _ _ (get_dict "properties" _ _ _ Ha2)).
  mnorm.
  rewrite (Hget2 "properties") by done. rewrite Hnoprops. cbn [default].
  rewrite (bind_ok _ _ _ _ _ (truthy_none w2)). cbv beta iota. rewrite ?bind_assoc.
  mnorm.
  rewrite (bind_ok _ _ _ _ _ (get_dict "patternProperties" _ _ _ Ha2)).
  mnorm.
  rewrite (Hget2 "patternProperties") by done. rewrite Hnopat. cbn [default].
  rewrite (bind_ok _ _ _ _ _ (truthy_none w2)). cbv beta iota.
  mnorm.
  rewrite (bind_ok _ _ _ _ _ (alloc_ok _ _)).
  mnorm.
  set (w3 := with_heap (heap w2 ++ [ODict []]) w2).
  assert (Hn0 : heap w3 !! length (heap w2) = Some (ODict [])).
  { cbn. by rewrite lookup_app_r, Nat.sub_diag. }
  unfold Py.comprehension. mnorm.
  rewrite (bind_ok _ _ _ _ _ (items_dict _ _ _ Hn0)).
  mnorm.
  cbn [Dict.items Dict.items_from Py.comprehension_from]. mnorm.
  rewrite (bind_ok _ _ _ _ _ (alloc_ok _ _)).
  mnorm.
  set (w4 := with_heap (heap w3 ++ [ODict []]) w3).
  set (m := length (heap w3)).
  assert (Ha4 : heap w4 !! a = Some (ODict d2)).
  { cbn. apply lookup_app_l_Some. by apply lookup_app_l_Some. }
  assert (Hm4 : heap w4 !! m = Some (ODict [])).
  { cbn. by rewrite lookup_app_r, Nat.sub_diag. }
  assert (Hma : m ≠ a).
  { apply lookup_lt_Some in Ha2. unfold m. cbn. rewrite length_app. cbn. lia. }
  rewrite (bind_ok _ _ _ _ _ (setitem_dict "properties" (VRef m) _ _ _ Ha4)).
  mnorm.
  set (d3 := Dict.set "properties" (VRef m) d2).
  set (w5 := with_heap _ w4).
  rewrite ?log_bind.
  mnorm.
  rewrite (bind_ok _ _ _ _ _ (type_name_ok _ _ _ Ht)).
  mnorm.
  rewrite (bind_ok _ _ _ _ _ (get_heap_run _)).
  mnorm.
  rewrite (bind_ok _ _ _ _ _ (record_run _ _ _)).
  mnorm.
  match goal with |- context [mbind _ (safewrite self ?p (Contents ?c)) ?W] =>
    destruct (safewrite_run self p c W) as (w8 & Hrun8 & Hh8 & Hs8) end.
  rewrite (bind_ok _ _ _ _ _ Hrun8).
  mnorm.
  assert (Ha8 : heap w8 !! a = Some (ODict d3)).
  { rewrite Hh8. cbn. by eapply heap_insert_node. }
  rewrite (bind_ok _ _ _ _ _ (setitem_dict "jsontype" _ _ _ _ Ha8)).
  mnorm.
  set (w9 := with_heap _ w8).
  assert (Ha9 : heap w9 !! a = Some (ODict (Dict.set "jsontype"
            (VStr (href (subproperty_filename proppath) propname)) d3)))
    by (cbn; by eapply heap_insert_node).
  rewrite (bind_ok _ _ _ _ _ (setitem_dict "yamltype" _ _ _ _ Ha9)).
  mnorm.
  set (w10 := with_heap _ w9).
  match type of Ha9 with _ = Some (ODict ?d) => set (d4 := d) in * end.
  assert (Ha10 : heap w10 !! a = Some (ODict (Dict.set "yamltype"
            (VStr (href (subproperty_filename proppath) propname)) d4)))
    by (cbn; by eapply heap_insert_node).
  rewrite (bind_ok _ _ _ _ _ (setitem_dict "longformtype" _ _ _ _ Ha10)).
  mnorm.
  set (w11 := with_heap _ w10).
  match type of Ha10 with _ = Some (ODict ?d) => set (d5 := d) in * end.
  set (d6 := Dict.set "longformtype" (VStr (href (subproperty_filename proppath) propname)) d5).
  assert (Ha11 : heap w11 !! a = Some (ODict d6)) by (cbn; by eapply heap_insert_node).
  assert (Htype6 : Dict.get "type" d6 = None).
  { unfold d6, d5, d4, d3. rewrite !dict_get_set_ne by done. by rewrite Hget2. }
  assert (Hprops6 : Dict.get "properties" d6 = Some (VRef m)).
  { unfold d6, d5, d4, d3. rewrite !dict_get_set_ne by done. apply dict_get_set_eq. }
  assert (Hm11 : heap w11 !! m = Some (ODict [])).
  { cbn. rewrite !list_lookup_insert_ne by done. rewrite Hh8. cbn.
    by rewrite list_lookup_insert_ne. }
  assert (Hs11 : side_artifacts w11
                 = side_artifacts w ++ [(proppath, artifact_path self proppath)]).
  { cbn. rewrite Hs8. cbn. by rewrite Hs2, Hs1. }
  (* the enumeration, if any *)
  rewrite (bind_ok _ _ _ _ _ (str_in_dict "enum" _ _ _ Ha11)).
  mnorm.
  destruct (Dict.get "enum" d6) as [e|] eqn:Henum.
  - rewrite bool_decide_true by by eexists.
    rewrite ?bind_assoc. rewrite (bind_ok _ _ _ _ _ (getitem_dict _ _ _ _ _ Ha11 Henum)).
    rewrite (bind_ok _ _ _ _ _ (setitem_dict "allowedvalues" e _ _ _ Ha11)).
    mnorm.
    eexists _, (Dict.set "allowedvalues" e d6), m. split; [reflexivity|].
    split; [exact Hs11|]. split; [cbn; by eapply heap_insert_node|].
    split; [by rewrite dict_get_set_ne|]. split; [by rewrite dict_get_set_ne|].
    cbn. by rewrite list_lookup_insert_ne.
  - rewrite bool_decide_false by (by intros [? ?]). rewrite mret_bind.
    by exists w11, d6, m.
Qed.

(** C7, amended: a node with neither [$ref], [type], [properties] nor
    [patternProperties] is walked as an object with no members: the visit
    returns, the node's [properties] becomes an empty dict, and its side
    artifact is emitted all the same, the only one of the visit, to the
    file named after the path; the display fields link to it. *)
Theorem bare_node_is_documented self fuel propname proppath w a d s sd parts :
  heap w !! a = Some (ODict d) → bare_node d →
  schema self = VRef s → s ≠ a → heap w !! s = Some (ODict sd) →
  pointer_list w sd "createOnlyProperties" → pointer_list w sd "readOnlyProperties" →
  type_info self = Some parts →
  let file := docs_path self ++ [Str.lower (Str.join "-" proppath) +:+ ".md"] in
  ∃ w', _set_docs_properties self (S fuel) propname (VRef a) proppath w = (Ok (VRef a), w')
    ∧ side_artifacts w' = side_artifacts w ++ [(proppath, file)]
    ∧ is_Some (fs w' !! file)
    ∧ (∃ d' m, heap w' !! a = Some (ODict d')
         ∧ Dict.get "properties" d' = Some (VRef m) ∧ heap w' !! m = Some (ODict []))
    ∧ displays w' (VRef a) (href (Str.lower (Str.join "-" proppath) +:+ ".md") propname).
Proof.
  intros Ha Hbare Hs Hsa Hsd Hco Hro Ht file.
  destruct (bare_node_run self fuel propname proppath w a d s sd parts
              Ha Hbare Hs Hsa Hsd Hco Hro Ht)
    as (w' & d' & m & Hrun & Hart & Ha' & Htype & Hprops & Hm).
  destruct (walk_artifacts _ _ _ _ _ _ _ _ Hrun) as (evs & Hem & [_ Hsc] & Hobj).
  assert (evs = [(proppath, file)]) as ->.
  { destruct Hem as (Hevs & _). rewrite Hart in Hevs. by apply app_inv_head in Hevs. }
  exists w'. split; [exact Hrun|]. split; [exact Hart|]. split.
  { destruct (Hsc (proppath, file)) as (_ & _ & Hfile); [apply list_elem_of_here|done]. }
  split; [by exists d', m|].
  apply Hobj. exists a, d'. split; [done|]. split; [done|]. by rewrite Htype.
Qed.

Lemma bare_node_is_documented_witness :
  let self := project_on schema_bare_node false in
  ∃ w', _set_docs_properties self 1 "Tags" (VRef 0) ["Tags"] (loaded schema_bare_node ∅)
        = (Ok (VRef 0), w')
    ∧ side_artifacts w' = [(["Tags"], ["project"; "docs"; "tags.md"])]
    ∧ is_Some (fs w' !! ["project"; "docs"; "tags.md"]).
Proof.
  cbv zeta.
  destruct (bare_node_is_documented (project_on schema_bare_node false) 0 "Tags" ["Tags"]
              (loaded schema_bare_node ∅) 0 [("description", VStr "free form")] 3
              [("typeName", VStr "Initech::TPS::Report"); ("properties", VRef 1);
               ("readOnlyProperties", VRef 2)]
              ["Initech"; "TPS"; "Report"])
    as (w' & Hrun & Hart & Hfile & _).
  - reflexivity.
  - repeat split; reflexivity.
  - reflexivity.
  - discriminate.
  - reflexivity.
  - exact I.
  - by eexists.
  - reflexivity.
  - exists w'. split; [exact Hrun|]. split; [exact Hart | exact Hfile].
Defined.

(** C7 as stated fails: the node [Tags] has no type and no properties of
    either kind, and documentation generation still emits its side
    artifact [tags.md]. *)
Lemma bare_node_artifact_is_emitted :
  let run := generate_docs (project_on schema_bare_node false) 5
               (loaded schema_bare_node ∅) in
  run.1 = Ok tt
  ∧ side_artifacts run.2 = [(["Tags"], ["project"; "docs"; "tags.md"])]
  ∧ match fs run.2 !! ["project"; "docs"; "tags.md"] with
    | Some (DocsSubpropertyMd _ subproperty_name _ _) => subproperty_name = "Tags"
    | _ => False
    end.
Proof. by vm_compute. Qed.

(** ** The walker returns *)












Lemma mapM_agree {A B} (f g : A → option B) l :
  (∀ x, x ∈ l → f x = g x) → mapM f l = mapM g l.
Proof.
  induction l as [|x l IH]; [done|]. intros H. cbn.
  rewrite (H x) by apply list_elem_of_here.
  rewrite IH; [done|]. intros y Hy. apply H. by apply list_elem_of_further.
Qed.












Lemma with_heap_twice h1 h2 w : with_heap h2 (with_heap h1 w) = with_heap h2 w.
Proof. done. Qed.















(** ** Documentation generation and the master schema *)

(** C1 fails on the code: a [$ref] is resolved against [self.schema], not
    against the copy, and the node found there is annotated in place.
    After one run the master schema is no longer the schema loaded: the
    definition [D] carries display fields and its member [x] the
    create-only flag set through property [a].  A second run over the same
    project then renders [b.md] from a node whose member [x] is already
    flagged, which the first run did not. *)
Theorem generate_docs_modifies_master_schema :
  let self := project_on schema_with_ref false in
  let before := loaded schema_with_ref ∅ in
  let first := generate_docs self 10 before in
  let second := generate_docs self 10 first.2 in
  first.1 = Ok tt ∧ second.1 = Ok tt
  ∧ master_schema self before = Some schema_with_ref
  ∧ (master_schema self first.2 ≫= json_get ["definitions"; "D"])
    = Some (JObj [("type", JStr "object");
                  ("properties",
                   JObj [("x", JObj [("type", JStr "string");
                                     ("jsontype", JStr "String");
                                     ("yamltype", JStr "String");
                                     ("longformtype", JStr "String");
                                     ("createonly", JBool true)])]);
                  ("jsontype", JStr (href "a.md" "a"));
                  ("yamltype", JStr (href "a.md" "a"));
                  ("longformtype", JStr (href "a.md" "a"))])
  ∧ master_schema self first.2 ≠ master_schema self before
  ∧ (template_schema (fs first.2 !! ["project"; "docs"; "b.md"])
       ≫= json_get ["properties"; "x"; "createonly"]) = None
  ∧ (template_schema (fs second.2 !! ["project"; "docs"; "b.md"])
       ≫= json_get ["properties"; "x"; "createonly"]) = Some (JBool true).
Proof.
  cbv zeta. split_and!; try by vm_compute.
Qed.

(** ** Runs that stay related to the state they start in *)

Section Always.

Variable R : world → world → Prop.
Hypothesis R_refl : ∀ w, R w w.
Hypothesis R_trans : ∀ w1 w2 w3, R w1 w2 → R w2 w3 → R w1 w3.
Hypothesis R_logged : ∀ r w, R w (logged r w).
Hypothesis R_alloc : ∀ o w, R w (with_heap (heap w ++ [o]) w).

Lemma Always_elim {A} (m : M A) w a w' : Always R m → m w = (Ok a, w') → R w w'.
Proof. intros Hm H. specialize (Hm w). by rewrite H in Hm. Qed.

Lemma Always_bind {A B} (m : M A) (k : A → M B) :
  Always R m → (∀ a, Always R (k a)) → Always R (m ≫= k).
Proof.
  intros Hm Hk w. specialize (Hm w). unfold mbind, M_bind.
  destruct (m w) as [[a|e|] w1]; [|done..].
  apply (R_trans _ _ _ Hm (Hk a w1)).
Qed.

Lemma Always_mret {A} (a : A) : Always R (mret a : M A).
Proof. intros w. apply R_refl. Qed.

Lemma Always_raise {A} e : Always R (raise e : M A).
Proof. intros w. apply R_refl. Qed.

Lemma Always_stuck {A} : Always R (stuck : M A).
Proof. intros w. apply R_refl. Qed.

Lemma Always_lift {A} (o : outcome A) : Always R (lift o).
Proof. intros w. apply R_refl. Qed.

Lemma Always_deref a : Always R (Py.deref a).
Proof.
  intros w. unfold Py.deref, mbind, M_bind, get_heap.
  destruct (heap w !! a); apply R_refl.
Qed.

Lemma Always_LOG l f a : Always R (LOG l f a).
Proof. intros w. apply R_logged. Qed.

Lemma Always_alloc o : Always R (Py.alloc o).
Proof. intros w. apply R_alloc. Qed.

Lemma Always_try_except {A} (body : M A) handler :
  Always R body → (∀ e h, handler e = Some h → Always R h) →
  Always R (try_except body handler).
Proof.
  intros Hb Hh w. specialize (Hb w). unfold try_except.
  destruct (body w) as [[b|e|] w1]; [done| |done].
  destruct (handler e) as [h|] eqn:He; [|done].
  apply (R_trans _ _ _ Hb (Hh e h He w1)).
Qed.

Ltac always_tac :=
  repeat first
    [ apply Always_mret | apply Always_raise | apply Always_stuck | apply Always_lift
    | apply Always_deref | apply Always_LOG
    | apply Always_bind; [| intros ?]
    | match goal with
      | |- Always _ (match ?x with _ => _ end) => destruct x
      | |- Always _ (if ?x then _ else _) => destruct x
      end ].

Lemma Always_traverse path document : Always R (traverse document path).
Proof.
  revert document. induction path as [|part rest IH]; intros document; simpl.
  - apply Always_mret.
  - destruct document; always_tac; apply IH.
Qed.

Lemma Always_for_each {A B} (f : A → M B) l :
  (∀ x, Always R (f x)) → Always R (for_each f l).
Proof.
  intros Hf. induction l as [|x r IH]; simpl.
  - apply Always_mret.
  - apply Always_bind; [apply Hf|]. intros y. apply Always_bind; [apply IH|]. intros ys.
    apply Always_mret.
Qed.

Lemma Always_primary_identifier docs_schema :
  Always R (_get_docs_primary_identifier docs_schema).
Proof.
  unfold _get_docs_primary_identifier, Py.getitem, Py.len, Py.first.
  apply Always_try_except.
  - always_tac.
  - intros e h He. destruct e; try done; injection He as <-; apply Always_mret.
Qed.

Lemma Always_property_description docs_schema prop :
  Always R (_get_property_description docs_schema prop).
Proof.
  unfold _get_property_description.
  destruct prop; try apply Always_raise.
  apply Always_bind; [apply Always_lift|]. intros path.
  destruct (last path) as [name|]; [|apply Always_raise].
  apply Always_bind; [|intros desc; apply Always_mret].
  apply Always_try_except; [apply Always_traverse|].
  intros e h He. destruct e; try done; injection He as <-; apply Always_mret.
Qed.

Lemma Always_gettable_atts docs_schema :
  Always R (_get_docs_gettable_atts docs_schema).
Proof.
  unfold _get_docs_gettable_atts.
  apply Always_bind; [apply Always_alloc|]. intros empty.
  apply Always_bind; [unfold Py.get_default; always_tac|]. intros props.
  apply Always_bind; [unfold Py.iterate; always_tac|]. intros items.
  apply Always_for_each. intros x. apply Always_property_description.
Qed.

End Always.

Lemma grows_refl w : grows w w.
Proof. by unfold grows. Qed.

Lemma grows_trans w1 w2 w3 : grows w1 w2 → grows w2 w3 → grows w1 w3.
Proof. unfold grows. by intros H1 H2; etrans. Qed.

Lemma grows_logged r w : grows w (logged r w).
Proof. by unfold grows. Qed.

Lemma grows_alloc o w : grows w (with_heap (heap w ++ [o]) w).
Proof. by apply prefix_app_r. Qed.

Lemma calm_logged r w : calm w (logged r w).
Proof. destruct r as [l f a]. by apply (Calm_LOG l f a w tt). Qed.

Lemma calm_alloc o w : calm w (with_heap (heap w ++ [o]) w).
Proof. by apply (Calm_alloc o w (VRef (length (heap w)))). Qed.

(** ** The copy of the schema that is documented *)

Lemma dict_get_elem k d v : Dict.get k d = Some v → v ∈ d.*2.
Proof.
  induction d as [|[k' v'] r IH]; simpl; [done|].
  destruct (String.eqb k' k).
  - intros [= ->]. apply list_elem_of_here.
  - intros H. by apply list_elem_of_further, IH.
Qed.

Lemma dict_get_absent k d : k ∉ d.*1 → Dict.get k d = None.
Proof.
  induction d as [|[k' v'] r IH]; simpl; [done|].
  intros Hk. apply not_elem_of_cons in Hk as [Hne Hk].
  destruct (String.eqb k' k) eqn:E; [|by apply IH].
  apply String.eqb_eq in E. by subst.
Qed.

Lemma dict_get_bound k v d : (k, v) ∈ d → is_Some (Dict.get k d).
Proof.
  induction d as [|[k' v'] r IH]; simpl.
  - by intros H%elem_of_nil.
  - intros H. destruct (String.eqb k' k) eqn:E; [done|].
    apply elem_of_cons in H as [[= -> ->]|H]; [|by apply IH].
    by rewrite String.eqb_refl in E.
Qed.

Lemma dict_items_from_subseteq seen d x : x ∈ Dict.items_from seen d → x ∈ d.
Proof.
  revert seen. induction d as [|[k v] r IH]; intros seen; simpl; [done|].
  destruct (existsb _ seen).
  - intros H. by eapply list_elem_of_further, IH.
  - intros [->|H]%elem_of_cons; [apply list_elem_of_here|].
    by eapply list_elem_of_further, IH.
Qed.

Lemma dict_set_vals (P : val → Prop) k v d :
  P v → Forall P d.*2 → Forall P (Dict.set k v d).*2.
Proof.
  intros Hv. induction d as [|[k' v'] r IH]; simpl.
  - intros _. by constructor.
  - intros [Hv' Hr]%Forall_cons. destruct (String.eqb k' k); simpl.
    + by constructor.
    + constructor; [done | by apply IH].
Qed.

Lemma deref_inv a w o w' :
  Py.deref a w = (Ok o, w') → w' = w ∧ heap w !! a = Some o.
Proof.
  unfold Py.deref, get_heap, mbind, M_bind.
  destruct (heap w !! a) as [o'|]; [|done]. by intros [= -> ->].
Qed.

Lemma copy_region_snoc n h o :
  copy_region n h → Forall (copied n) (obj_vals o) → no_ref_member o →
  copy_region n (h ++ [o]).
Proof.
  intros Hh Hv Hr a o' Ha Ho'.
  destruct (decide (a < length h)%nat) as [Hlt|Hge].
  - rewrite lookup_app_l in Ho' by done. by apply (Hh a).
  - rewrite lookup_app_r in Ho' by lia.
    destruct (a - length h)%nat; [|done]. by injection Ho' as <-.
Qed.

Lemma copy_region_insert n h a d k v :
  copy_region n h → (n ≤ a)%nat → h !! a = Some (ODict d) →
  copied n v → k ≠ "$ref" →
  copy_region n (<[a := ODict (Dict.set k v d)]> h).
Proof.
  intros Hh Ha Hd Hv Hk a' o' Ha' Ho'.
  destruct (decide (a' = a)) as [->|Hne].
  - rewrite list_lookup_insert_eq in Ho' by by eapply lookup_lt_Some.
    injection Ho' as <-. destruct (Hh a _ Ha Hd) as [Hvals Href]. split.
    + by apply dict_set_vals.
    + simpl. by rewrite dict_get_set_ne.
  - rewrite list_lookup_insert_ne in Ho' by done. by apply (Hh a').
Qed.

Lemma copy_kept_member n w a d k v :
  copy_kept n w → (n ≤ a)%nat → heap w !! a = Some (ODict d) →
  Dict.get k d = Some v → copied n v.
Proof.
  intros [_ Hr] Ha Hd Hk. destruct (Hr a _ Ha Hd) as [Hvals _].
  rewrite Forall_forall in Hvals. by eapply Hvals, dict_get_elem.
Qed.

Lemma Keeps_bind n {A B} (P : A → Prop) (Q : B → Prop) (m : M A) (k : A → M B) :
  Keeps n P m → (∀ a, P a → Keeps n Q (k a)) → Keeps n Q (m ≫= k).
Proof.
  intros Hm Hk w b w2 (a & w1 & H1 & H2)%bind_inv_ok Hw.
  destruct (Hm _ _ _ H1 Hw) as (Hw1 & Ht1 & Ha).
  destruct (Hk _ Ha _ _ _ H2 Hw1) as (Hw2 & Ht2 & Hb).
  split; [done|]. split; [congruence | done].
Qed.

Lemma Keeps_then n {A B} (Q : B → Prop) (m : M A) (k : A → M B) :
  Keeps n (λ _, True) m → (∀ a, Keeps n Q (k a)) → Keeps n Q (m ≫= k).
Proof. intros Hm Hk. apply (Keeps_bind n (λ _, True)); [done|]. intros a _. apply Hk. Qed.

Lemma Keeps_same n {A} (m : M A) :
  (∀ w a w', m w = (Ok a, w') → heap w' = heap w) → Keeps n (λ _, True) m.
Proof.
  intros Hm w a w' H [Hn Hr]. specialize (Hm _ _ _ H).
  unfold copy_kept. by rewrite Hm.
Qed.

Lemma Keeps_pure n {A} (m : M A) : Pure m → Keeps n (λ _, True) m.
Proof. intros Hm. apply Keeps_same. intros w a w' H. by rewrite (Hm _ _ _ H). Qed.

Lemma Keeps_mret n {A} (P : A → Prop) a : P a → Keeps n P (mret a).
Proof. by intros Ha w a' w' [= <- <-] Hw. Qed.

Lemma Keeps_raise n {A} (P : A → Prop) e : Keeps n P (raise e).
Proof. by intros w a w' H. Qed.

Lemma Keeps_stuck n {A} (P : A → Prop) : Keeps n P stuck.
Proof. by intros w a w' H. Qed.

Lemma Keeps_getitem n c k : copied n c → Keeps n (copied n) (Py.getitem c k).
Proof.
  intros Hc w v w' H Hw. unfold Py.getitem in H. destruct c as [| | | |a]; try done.
  apply bind_inv_ok in H as (o & w1 & (-> & Ha)%deref_inv & H).
  destruct o as [d|]; [|done]. destruct (Dict.get k d) as [v'|] eqn:Hk; [|done].
  injection H as <- <-. split; [done|]. split; [done|]. by eapply copy_kept_member.
Qed.

Lemma Keeps_get_default n c k dflt :
  copied n c → copied n dflt → Keeps n (copied n) (Py.get_default c k dflt).
Proof.
  intros Hc Hd w v w' H Hw. unfold Py.get_default in H. destruct c as [| | | |a]; try done.
  apply bind_inv_ok in H as (o & w1 & (-> & Ha)%deref_inv & H).
  destruct o as [d|]; [|done]. injection H as <- <-. split; [done|]. split; [done|].
  destruct (Dict.get k d) as [v'|] eqn:Hk; [|done]. by eapply copy_kept_member.
Qed.

Lemma Keeps_get n c k : copied n c → Keeps n (copied n) (Py.get c k).
Proof.
  intros Hc w v w' H Hw. unfold Py.get in H. destruct c as [| | | |a]; try done.
  apply bind_inv_ok in H as (o & w1 & (-> & Ha)%deref_inv & H).
  destruct o as [d|]; [|done]. injection H as <- <-. split; [done|]. split; [done|].
  destruct (Dict.get k d) as [v'|] eqn:Hk; [|done]. by eapply copy_kept_member.
Qed.

Lemma Keeps_items n c :
  copied n c →
  Keeps n (λ l, Forall (copied n) l.*2 ∧ "$ref" ∉ l.*1) (Py.items c).
Proof.
  intros Hc w l w' H Hw. unfold Py.items in H. destruct c as [| | | |a]; try done.
  apply bind_inv_ok in H as (o & w1 & (-> & Ha)%deref_inv & H).
  destruct o as [d|]; [|done]. injection H as <- <-. split; [done|]. split; [done|].
  destruct Hw as [_ Hr]. destruct (Hr a _ Hc Ha) as [Hvals Href]. split.
  - rewrite Forall_forall in Hvals. apply Forall_forall. intros v Hv.
    apply list_elem_of_fmap in Hv as ([k v'] & -> & Hkv).
    apply Hvals. apply list_elem_of_fmap. exists (k, v'). split; [done|].
    by eapply dict_items_from_subseteq.
  - intros Hk. apply list_elem_of_fmap in Hk as ([k v] & Heq & Hkv). simpl in Heq. subst k.
    apply dict_items_from_subseteq, dict_get_bound in Hkv as [v' Hv'].
    simpl in Href. congruence.
Qed.

Lemma Keeps_setitem n c k v :
  copied n c → copied n v → k ≠ "$ref" → Keeps n (λ _, True) (Py.setitem c k v).
Proof.
  intros Hc Hv Hk w u w' (a & d & -> & Ha & ->)%setitem_inv [Hn Hr].
  unfold copy_kept. cbn [heap with_heap]. split; [split|split; [|done]].
  - by rewrite length_insert.
  - by apply copy_region_insert.
  - apply take_insert_ge. exact Hc.
Qed.

Lemma Keeps_alloc n o :
  Forall (copied n) (obj_vals o) → no_ref_member o → Keeps n (copied n) (Py.alloc o).
Proof.
  intros Hv Hr w v w' [= <- <-] [Hn Hreg]. unfold copy_kept. cbn [heap with_heap].
  split; [split|split].
  - rewrite length_app. lia.
  - by apply copy_region_snoc.
  - by apply take_app_le.
  - exact Hn.
Qed.

Lemma Keeps_skip_ref n root prop {B} (Q : B → Prop) (k : val → M B) :
  copied n prop → Keeps n Q (k prop) →
  Keeps n Q (has_ref ← Py.str_in "$ref" prop;
             prop ← (if has_ref : bool
                     then r ← Py.getitem prop "$ref"; RefResolver.resolve root r
                     else mret prop);
             k prop).
Proof.
  intros Hc Hk w b w' H Hw. apply (Hk w b w'); [|done].
  apply bind_inv_ok in H as (has_ref & w1 & Hin & H).
  pose proof (Pure_str_in _ _ _ _ _ Hin) as ->.
  apply bind_inv_ok in H as (prop' & w1 & Hp & H).
  destruct has_ref.
  - exfalso. apply bind_inv_ok in Hp as (r & w2 & Hget & _).
    unfold Py.str_in in Hin. unfold Py.getitem in Hget.
    destruct prop as [| | |t|a]; try done.
    apply bind_inv_ok in Hin as (o & w3 & (-> & Ha)%deref_inv & Hin).
    rewrite (bind_ok _ _ _ _ _ (deref_ok _ _ _ Ha)) in Hget.
    destruct o as [d|]; [|done].
    destruct Hw as [_ Hr]. destruct (Hr a _ Hc Ha) as [_ Href]. simpl in Href.
    injection Hin as Hin. apply bool_decide_eq_true in Hin as [v Hv]. congruence.
  - by injection Hp as <- <-.
Qed.

Lemma Keeps_comprehension_from n (f : string → val → M val) c all :
  (∀ name value, copied n value → Keeps n (copied n) (f name value)) →
  ∀ todo, Forall (copied n) todo.*2 →
    Keeps n (λ vs, vs.*1 = todo.*1 ∧ Forall (copied n) vs.*2)
      (Py.comprehension_from f c all todo).
Proof.
  intros Hf todo. induction todo as [|[name value] rest IH]; intros Htodo.
  - by apply Keeps_mret.
  - cbn [Py.comprehension_from]. apply Forall_cons in Htodo as [Hvalue Hrest].
    apply (Keeps_bind n (copied n)); [by apply Hf|]. intros v Hv.
    apply Keeps_then; [apply Keeps_pure, Pure_items|]. intros now.
    destruct (decide (now = all)); [|apply Keeps_stuck].
    apply (Keeps_bind n (λ vs, vs.*1 = rest.*1 ∧ Forall (copied n) vs.*2)); [by apply IH|].
    intros vs [Hk Hvs]. apply Keeps_mret. rewrite !fmap_cons.
    split; [by rewrite Hk | by constructor].
Qed.

Lemma Keeps_comprehension n (f : string → val → M val) c :
  (∀ name value, copied n value → Keeps n (copied n) (f name value)) →
  copied n c → Keeps n (copied n) (Py.comprehension f c).
Proof.
  intros Hf Hc. unfold Py.comprehension.
  apply (Keeps_bind n (λ l, Forall (copied n) l.*2 ∧ "$ref" ∉ l.*1)); [by apply Keeps_items|].
  intros all [Hvals Hkeys].
  apply (Keeps_bind n (λ vs, vs.*1 = all.*1 ∧ Forall (copied n) vs.*2));
    [by apply Keeps_comprehension_from|].
  intros vs [Hk Hvs]. apply Keeps_alloc; [done|].
  simpl. apply dict_get_absent. by rewrite Hk.
Qed.

Ltac keeps_set prop :=
  repeat (apply Keeps_then; [apply Keeps_setitem; [exact prop | exact I | discriminate]|];
          intros _);
  apply Keeps_setitem; [exact prop | exact I | discriminate].

(** The documentation walker stays within the copy it is given. *)
Lemma walk_keeps self n fuel : ∀ propname prop proppath,
  copied n prop →
  Keeps n (copied n) (_set_docs_properties self fuel propname prop proppath).
Proof.
  induction fuel as [|fuel IH]; intros propname prop proppath Hprop; [apply Keeps_stuck|].
  cbn [_set_docs_properties].
  apply Keeps_skip_ref; [done|].
  apply Keeps_then; [apply Keeps_pure, Pure_listed_in|]. intros createonly.
  apply Keeps_then.
  { destruct createonly; [by apply Keeps_setitem | by apply Keeps_mret]. }
  intros _.
  apply Keeps_then; [apply Keeps_pure, Pure_listed_in|]. intros readonly.
  apply Keeps_then.
  { destruct readonly; [by apply Keeps_setitem | by apply Keeps_mret]. }
  intros _.
  apply Keeps_then; [apply Keeps_pure, Pure_get_default|]. intros prop_type.
  apply Keeps_then.
  { destruct prop_type; cbv beta iota; [..|apply Keeps_raise].
    all: match goal with
         | |- Keeps _ _ (match ?x with _ => _ end) => destruct x; [keeps_set Hprop|]
         | |- _ => idtac
         end.
    all: destruct (decide _);
      [| destruct (decide _); [| keeps_set Hprop]].
    all: try
      (apply (Keeps_bind n (copied n)); [by apply Keeps_getitem|]; intros items Hitems;
       apply (Keeps_bind n (copied n)); [by apply IH|]; intros arrayitems Harr;
       apply Keeps_then; [by apply Keeps_setitem|]; intros _;
       apply Keeps_then; [apply Keeps_pure, Pure_getitem|]; intros j;
       apply Keeps_then; [apply Keeps_pure, Pure_as_str|]; intros j';
       apply Keeps_then; [by apply Keeps_setitem|]; intros _;
       apply Keeps_then; [apply Keeps_pure, Pure_getitem|]; intros l;
       apply Keeps_then; [apply Keeps_pure, Pure_as_str|]; intros l';
       apply Keeps_then; [by apply Keeps_setitem|]; intros _;
       apply Keeps_then; [apply Keeps_pure, Pure_getitem|]; intros l2;
       apply Keeps_then; [apply Keeps_pure, Pure_as_str|]; intros l2';
       by apply Keeps_setitem).
    all: apply (Keeps_bind n (copied n)); [by apply Keeps_get|]; intros p Hp;
      apply Keeps_then; [apply Keeps_pure, Pure_truthy|]; intros t;
      apply (Keeps_bind n (copied n));
        [ destruct t; [by apply Keeps_mret|];
          apply (Keeps_bind n (copied n)); [by apply Keeps_get|]; intros p' Hp';
          apply Keeps_then; [apply Keeps_pure, Pure_truthy|]; intros t';
          destruct t'; [by apply Keeps_mret|];
          apply Keeps_alloc; [by constructor | done]
        |];
      intros object_properties Hop;
      apply (Keeps_bind n (copied n));
        [ apply Keeps_comprehension; [|done]; intros name value Hvalue; by apply IH |];
      intros members Hmembers;
      apply Keeps_then; [by apply Keeps_setitem|]; intros _;
      apply Keeps_then; [by apply Keeps_same; intros w [] w' [= <-]|]; intros _;
      apply Keeps_then; [apply Keeps_pure, Pure_type_name|]; intros tn;
      apply Keeps_then; [apply Keeps_pure, Pure_get_heap|]; intros h;
      apply Keeps_then; [by apply Keeps_same; intros w [] w' [= <-]|]; intros _;
      apply Keeps_then;
        [ apply Keeps_same; intros w u w' Hs; by apply safewrite_inv in Hs as [-> _] |];
      intros _;
      keeps_set Hprop. }
  intros _.
  apply Keeps_then; [apply Keeps_pure, Pure_str_in|]. intros has_enum.
  apply Keeps_then.
  { destruct has_enum; [|by apply Keeps_mret].
    apply (Keeps_bind n (copied n)); [by apply Keeps_getitem|]. intros e He.
    by apply Keeps_setitem. }
  intros _. by apply Keeps_mret.
Qed.

Lemma loads_elems_copy n (loads : json → list obj → val * list obj) l :
  Forall (λ j, ∀ h v h', loads j h = (v, h') → (n ≤ length h)%nat → copy_region n h →
                 h `prefix_of` h' ∧ copied n v ∧ copy_region n h') l →
  ∀ h vs h', Py.loads_elems loads l h = (vs, h') → (n ≤ length h)%nat → copy_region n h →
    h `prefix_of` h' ∧ Forall (copied n) vs ∧ copy_region n h'.
Proof.
  induction 1 as [|j r Hj _ IH]; intros h vs h' H Hn Hr; simpl in H.
  - by injection H as <- <-.
  - destruct (loads j h) as [v h1] eqn:Hv.
    destruct (Py.loads_elems loads r h1) as [vs' h2] eqn:Hvs. injection H as <- <-.
    destruct (Hj _ _ _ Hv Hn Hr) as (Hp1 & Hc1 & Hr1).
    destruct (IH _ _ _ Hvs) as (Hp2 & Hc2 & Hr2); [|done|].
    { apply prefix_length in Hp1. lia. }
    split; [by etrans|]. split; [by constructor | done].
Qed.

Lemma loads_members_copy n (loads : json → list obj → val * list obj) l :
  Forall (λ kv, ∀ h v h', loads kv.2 h = (v, h') → (n ≤ length h)%nat → copy_region n h →
                  h `prefix_of` h' ∧ copied n v ∧ copy_region n h') l →
  "$ref" ∉ l.*1 →
  ∀ d h d' h', Py.loads_members loads l d h = (d', h') →
    (n ≤ length h)%nat → copy_region n h →
    Forall (copied n) d.*2 → Dict.get "$ref" d = None →
    h `prefix_of` h' ∧ Forall (copied n) d'.*2 ∧ Dict.get "$ref" d' = None
    ∧ copy_region n h'.
Proof.
  induction 1 as [|[k j] r Hj _ IH]; intros Hkeys d h d' h' H Hn Hr Hd Href; simpl in H.
  - by injection H as <- <-.
  - rewrite fmap_cons in Hkeys. apply not_elem_of_cons in Hkeys as [Hk Hkeys].
    destruct (loads j h) as [v h1] eqn:Hv.
    destruct (Hj _ _ _ Hv Hn Hr) as (Hp1 & Hc1 & Hr1).
    destruct (IH Hkeys _ _ _ _ H) as (Hp2 & Hc2 & Href2 & Hr2); [|done| | |].
    { apply prefix_length in Hp1. lia. }
    { by apply dict_set_vals. }
    { rewrite dict_get_set_ne; [done|]. intros ->. by apply Hk. }
    split; [by etrans | done].
Qed.

(** [json.loads] of a document free of [$ref] adds such a copy to the
    store. *)
Lemma loads_copy n j : ref_free j = true →
  ∀ h v h', Py.loads j h = (v, h') → (n ≤ length h)%nat → copy_region n h →
    h `prefix_of` h' ∧ copied n v ∧ copy_region n h'.
Proof.
  induction j as [|b|z|s|elems IH|members IH] using json_induction;
    intros Hfree h v h' H Hn Hr; simpl in H; try by injection H as <- <-.
  - destruct (Py.loads_elems Py.loads elems h) as [vs h2] eqn:Hvs. injection H as <- <-.
    destruct (loads_elems_copy n Py.loads elems) with (h := h) (vs := vs) (h' := h2)
      as (Hp & Hc & Hr2); [|done..|].
    { simpl in Hfree. apply Is_true_eq_left, forallb_True in Hfree.
      rewrite Forall_forall in IH, Hfree. apply Forall_forall. intros x Hx.
      apply IH; [done|]. by apply Is_true_eq_true, Hfree. }
    split; [by apply prefix_app_r|]. split.
    + simpl. apply prefix_length in Hp. lia.
    + by apply copy_region_snoc.
  - destruct (Py.loads_members Py.loads members [] h) as [d h2] eqn:Hd. injection H as <- <-.
    simpl in Hfree. apply Is_true_eq_left, forallb_True in Hfree. rewrite Forall_forall in Hfree.
    destruct (loads_members_copy n Py.loads members) with (d := @nil (string * val))
      (h := h) (d' := d) (h' := h2) as (Hp & Hc & Href & Hr2); [| |done..|].
    { rewrite Forall_forall in IH. apply Forall_forall. intros [k x] Hx.
      apply (IH _ Hx). specialize (Hfree _ Hx). simpl in Hfree.
      apply andb_prop_elim in Hfree as [_ Hx']. by apply Is_true_eq_true. }
    { intros Hk. apply list_elem_of_fmap in Hk as ([k x] & Hk & Hx). simpl in Hk. subst k.
      specialize (Hfree _ Hx). by simpl in Hfree. }
    split; [by apply prefix_app_r|]. split.
    + simpl. apply prefix_length in Hp. lia.
    + by apply copy_region_snoc.
Qed.

(** [json.dumps] of a value does not depend on the objects added to the
    store later, nor on a larger budget. *)
Lemma dumps_mono fuel : ∀ h v j, Py.dumps fuel h v = Some j →
  ∀ fuel' h', (fuel ≤ fuel')%nat → h `prefix_of` h' → Py.dumps fuel' h' v = Some j.
Proof.
  induction fuel as [|fuel IH]; intros h v j H fuel' h' Hfuel Hh.
  - destruct v; try done; by destruct fuel'.
  - destruct fuel' as [|fuel']; [lia|].
    destruct v as [| | | |a]; try done. simpl in *.
    destruct (h !! a) as [o|] eqn:Ha; [|done].
    rewrite (prefix_lookup_Some _ _ _ _ Ha Hh).
    destruct o as [d|l].
    + apply fmap_Some in H as (js & Hjs & ->). apply fmap_Some. exists js. split; [|done].
      apply mapM_Some in Hjs. apply mapM_Some.
      eapply Forall2_impl; [exact Hjs|]. intros [k v] [k' x] Hx. simpl in *.
      apply fmap_Some in Hx as (x' & Hx' & ->). apply fmap_Some. exists x'. split; [|done].
      eapply IH; [exact Hx' | lia | done].
    + apply fmap_Some in H as (js & Hjs & ->). apply fmap_Some. exists js. split; [|done].
      apply mapM_Some in Hjs. apply mapM_Some.
      eapply Forall2_impl; [exact Hjs|]. intros v x Hx. simpl in *.
      eapply IH; [exact Hx | lia | done].
Qed.

Lemma Calm_primary_identifier docs_schema : Calm (_get_docs_primary_identifier docs_schema).
Proof.
  intros w a w' H. eapply (Always_elim calm); [|exact H].
  apply (Always_primary_identifier calm calm_refl calm_trans calm_logged).
Qed.

Lemma Calm_gettable_atts docs_schema : Calm (_get_docs_gettable_atts docs_schema).
Proof.
  intros w a w' H. eapply (Always_elim calm); [|exact H].
  apply (Always_gettable_atts calm calm_refl calm_trans calm_alloc).
Qed.

Lemma grows_primary_identifier docs_schema w a w' :
  _get_docs_primary_identifier docs_schema w = (Ok a, w') → grows w w'.
Proof.
  intros H. eapply (Always_elim grows); [|exact H].
  apply (Always_primary_identifier grows grows_refl grows_trans grows_logged).
Qed.

Lemma grows_gettable_atts docs_schema w a w' :
  _get_docs_gettable_atts docs_schema w = (Ok a, w') → grows w w'.
Proof.
  intros H. eapply (Always_elim grows); [|exact H].
  apply (Always_gettable_atts grows grows_refl grows_trans grows_alloc).
Qed.

(** The steps of [generate_docs] before the schema is copied. *)
Lemma generate_docs_inv self fuel w u w' :
  generate_docs self fuel w = (Ok u, w') →
  (heap w' = heap w ∧ side_artifacts w' = side_artifacts w)
  ∨ ∃ w0 j,
      heap w0 = heap w ∧ side_artifacts w0 = side_artifacts w
      ∧ Py.dumps (S (length (heap w))) (heap w) (schema self) = Some j
      ∧ (let '(docs_schema, h') := Py.loads j (heap w) in
         (properties ← Py.getitem docs_schema "properties";
          documented ← Py.comprehension
            (λ name value, _set_docs_properties self fuel name value [name])
            properties;
          Py.setitem docs_schema "properties" documented;;
          LOG DEBUG "Finished documenting nested properties" [];;
          ref ← _get_docs_primary_identifier docs_schema;
          getatt ← _get_docs_gettable_atts docs_schema;
          let readme_path := docs_path self ++ ["README.md"] in
          LOG DEBUG "Writing docs README: %s" [APath readme_path];;
          tn ← type_name self;
          h ← get_heap;
          safewrite self readme_path
            (Contents (DocsReadmeMd tn docs_schema ref getatt h)))
           (with_heap h' w0) = (Ok u, w')).
Proof.
  intros H. unfold generate_docs in H.
  apply bind_inv_ok in H as (missing & w0 & Hmissing & H).
  assert (w0 = w) as ->.
  { eapply Pure_elim; [| exact Hmissing].
    destruct (type_info self) as [[|]|]; pure_tac; try solve_pure.
    all: unfold fmap, M_fmap; pure_tac; solve_pure. }
  destruct missing.
  { injection H as _ <-. by left. }
  right. rewrite log_bind in H.
  apply bind_inv_ok in H as ([] & w1 & Hrm & H). injection Hrm as <-.
  apply bind_inv_ok in H as ([] & w2 & Hmk & H).
  assert (Hw2 : heap w2 = heap w ∧ side_artifacts w2 = side_artifacts w).
  { unfold mkdir_exist_ok, mbind, M_bind, get_fs in Hmk. cbn in Hmk.
    destruct (_ !! _); [done|]. by injection Hmk as <-. }
  destruct Hw2 as [Hh2 Hs2].
  rewrite log_bind in H.
  apply bind_inv_ok in H as (h & w3 & Hh & H). injection Hh as <- <-.
  apply bind_inv_ok in H as (docs_schema & w4 & Hcopy & H).
  cbn [heap logged] in Hcopy. rewrite Hh2 in Hcopy.
  destruct (Py.dumps _ _ _) as [j|] eqn:Hj; [|done].
  exists (logged (Log DEBUG "Writing generated docs" []) w2), j.
  split; [done|]. split; [done|]. split; [done|].
  destruct (Py.loads j (heap w)) as [v h']. by injection Hcopy as <- <-.
Qed.

(** In a run of [generate_docs] that returns, no property path gets two
    side artifacts, each side artifact is the file of the docs directory
    named by its path, and that file exists when the run ends. *)
Theorem generate_docs_side_artifacts self fuel w u w' :
  generate_docs self fuel w = (Ok u, w') →
  ∃ evs, side_artifacts w' = side_artifacts w ++ evs
    ∧ NoDup (map fst evs)
    ∧ ∀ e, e ∈ evs → e.2 = artifact_path self e.1 ∧ is_Some (fs w' !! e.2).
Proof.
  intros [[_ Hs]|(w0 & j & _ & Hs0 & _ & H)]%generate_docs_inv.
  { exists []. split; [by rewrite app_nil_r|].
    split; [constructor|]. intros e He. by apply elem_of_nil in He. }
  destruct (Py.loads j (heap w)) as [docs_schema h'].
  step_pure H properties Hprops.
  apply bind_inv_ok in H as (documented & w5 & Hcomp & H).
  destruct (comprehension_artifacts self [] _ _ _ _ _
              (λ name value w r w' Hrun,
                 match walk_artifacts self fuel name value [name] w r w' Hrun with
                 | ex_intro _ evs (conj Hem (conj Hsc _)) => ex_intro _ evs (conj Hem Hsc)
                 end) Hcomp)
    as (evs & Hem & Hnd & Hsc).
  assert (Hc : calm w5 w').
  { eapply Calm_elim; [| exact H].
    apply Calm_bind; [apply Calm_setitem; discriminate|]; intros ?.
    apply Calm_bind; [apply Calm_LOG|]; intros ?.
    apply Calm_bind; [apply Calm_primary_identifier|]; intros ?.
    apply Calm_bind; [apply Calm_gettable_atts|]; intros ?.
    calm_tac. }
  exists evs. split; [|split; [done|]].
  - destruct Hem as (Hem & _). destruct Hc as (Hc & _). rewrite Hc, Hem.
    cbn [side_artifacts with_heap]. by rewrite Hs0.
  - intros e He. destruct (Hsc e He) as (_ & Hn & Hfile). split; [exact Hn|].
    destruct Hc as (_ & _ & Hg). by apply Hg.
Qed.

Lemma generate_docs_side_artifacts_witness :
  let run := generate_docs (project_on schema_nested_objects false) 5
               (loaded schema_nested_objects ∅) in
  run.1 = Ok tt
  ∧ ∃ evs, side_artifacts run.2 = evs ∧ NoDup (map fst evs)
      ∧ evs = [(["Config"; "Inner"], ["project"; "docs"; "config-inner.md"]);
               (["Config"], ["project"; "docs"; "config.md"])].
Proof.
  cbv zeta.
  destruct (generate_docs (project_on schema_nested_objects false) 5
              (loaded schema_nested_objects ∅)) as [[[]| |] w'] eqn:Hrun;
    [| by vm_compute in Hrun ..].
  destruct (generate_docs_side_artifacts _ _ _ _ _ Hrun) as (evs & Hevs & Hnd & _).
  vm_compute in Hrun. injection Hrun as <-.
  vm_compute in Hevs. subst evs.
  split; [done|]. eexists. split; [by vm_compute|]. split; [exact Hnd | done].
Defined.

(** When no object of the master schema has a member named [$ref], a run
    of [generate_docs] that returns only adds objects to the store: the
    master schema is the document it was before the run. *)
Theorem generate_docs_keeps_ref_free_schema self fuel w j u w' :
  master_schema self w = Some j → ref_free j = true →
  generate_docs self fuel w = (Ok u, w') →
  heap w `prefix_of` heap w' ∧ master_schema self w' = Some j.
Proof.
  intros Hj Hfree H.
  assert (Hgrow : heap w `prefix_of` heap w').
  { apply generate_docs_inv in H as [[-> _]|(w0 & j' & Hh0 & _ & Hj' & H)]; [done|].
    unfold master_schema in Hj. rewrite Hj in Hj'. injection Hj' as <-.
    destruct (Py.loads j (heap w)) as [docs_schema h'] eqn:Hl.
    destruct (loads_copy (length (heap w)) j Hfree _ _ _ Hl) as (Hp & Hds & Hr); [done| |].
    { intros a o Ha Ho. apply lookup_lt_Some in Ho. lia. }
    assert (Hk4 : copy_kept (length (heap w)) (with_heap h' w0)).
    { split; [|done]. by apply prefix_length. }
    apply bind_inv_ok in H as (properties & w5 & Hprops & H).
    destruct (Keeps_getitem _ _ _ Hds _ _ _ Hprops Hk4) as (Hk5 & Ht5 & Hcp).
    apply bind_inv_ok in H as (documented & w6 & Hcomp & H).
    destruct (Keeps_comprehension _ _ _
                (λ name value Hvalue, walk_keeps self _ fuel name value [name] Hvalue)
                Hcp _ _ _ Hcomp Hk5) as (Hk6 & Ht6 & Hcd).
    apply bind_inv_ok in H as ([] & w7 & Hset & H).
    destruct (Keeps_setitem _ _ "properties" _ Hds Hcd ltac:(discriminate) _ _ _ Hset Hk6)
      as (Hk7 & Ht7 & _).
    rewrite log_bind in H.
    apply bind_inv_ok in H as (ref & w8 & Hg8%grows_primary_identifier & H).
    apply bind_inv_ok in H as (getatt & w9 & Hg9%grows_gettable_atts & H).
    rewrite log_bind in H.
    step_pure H tn Htn. step_pure H h Hh.
    apply safewrite_inv in H as (Hh' & _).
    rewrite Hh'. cbn [heap logged]. etrans; [|exact Hg9]. etrans; [|exact Hg8].
    cbn [heap logged].
    assert (heap w = take (length (heap w)) (heap w7)) as Heq.
    { rewrite Ht7, Ht6, Ht5. cbn [heap with_heap].
      destruct Hp as [k ->]. by rewrite take_app_length. }
    rewrite Heq at 1. apply prefix_take. }
  split; [done|]. unfold master_schema in *.
  eapply dumps_mono; [exact Hj | | done]. apply prefix_length in Hgrow. lia.
Qed.

Lemma generate_docs_keeps_ref_free_schema_witness :
  let self := project_on schema_nested_objects false in
  let w := loaded schema_nested_objects ∅ in
  ref_free schema_nested_objects = true
  ∧ (generate_docs self 5 w).1 = Ok tt
  ∧ master_schema self (generate_docs self 5 w).2 = Some schema_nested_objects.
Proof.
  cbv zeta. split; [by vm_compute|].
  destruct (generate_docs (project_on schema_nested_objects false) 5
              (loaded schema_nested_objects ∅)) as [[[]| |] w'] eqn:Hrun;
    [| by vm_compute in Hrun ..].
  split; [done|]. simpl.
  eapply (generate_docs_keeps_ref_free_schema _ 5 (loaded schema_nested_objects ∅));
    [by vm_compute | by vm_compute | exact Hrun].
Defined.

(** ** The guarded writer, whatever it is given *)

Lemma write_contents_run p c w :
  ∃ o, write_contents p c w
       = (o, with_fs (<[p := match c with Contents d | Callable d _ => d end]> (fs w)) w)
    ∧ o = match c with
          | Callable _ (Some e) => Raise e
          | _ => Ok tt
          end.
Proof.
  unfold write_contents, mbind, M_bind, get_fs, set_fs.
  destruct c as [d|d [e|]]; eexists; split; reflexivity.
Qed.



(** With overwriting off, [safewrite] never raises [FileExistsError],
    not even when the callable it is given raises it: it returns, or it
    raises what the callable raised on a target that did not exist. *)
Theorem safewrite_never_reports_existing self p c w :
  overwrite_enabled self = false →
  let r := safewrite self p c w in
  r.1 ≠ Raise FileExistsError ∧ r.1 ≠ Stuck
  ∧ (r.1 = Ok tt
     ∨ ∃ written e, c = Callable written (Some e) ∧ e ≠ FileExistsError
         ∧ fs w !! p = None ∧ r.1 = Raise e ∧ fs r.2 !! p = Some written)
  ∧ (∀ written, c = Callable written (Some FileExistsError) → fs w !! p = None →
     r = (Ok tt, logged (Log WARNING "File already exists, not overwriting '%s'" [APath p])
                   (with_fs (<[p := written]> (fs w)) w))).
Proof.
  intros Hoff. cbv zeta. unfold safewrite. rewrite Hoff.
  destruct (write_contents_run p c w) as (o & Hrun & Ho).
  unfold try_except, mbind, M_bind, get_fs.
  destruct (fs w !! p) as [old|] eqn:Hp.
  - cbn. split; [done|]. split; [done|]. split; [by left | done].
  - rewrite Hrun. destruct c as [d|d [e|]]; subst o; cbn.
    + split; [done|]. split; [done|]. split; [by left | done].
    + destruct e; cbn; (split; [done|]; split; [done|]; split;
        [ first [ by left
                | right; eexists _, _; split; [done|]; split; [done|]; split; [done|];
                  split; [done|]; by rewrite lookup_insert_eq ]
        | first [ by intros written [= <-] | done ] ]).
    + split; [done|]. split; [done|]. split; [by left | done].
Qed.

Lemma safewrite_never_reports_existing_witness :
  let self := project_on schema_nested_objects false in
  let w := loaded schema_nested_objects ∅ in
  let r := safewrite self ["project"; "a.json"]
             (Callable (Text "{") (Some FileExistsError)) w in
  r.1 = Ok tt ∧ fs r.2 !! ["project"; "a.json"] = Some (Text "{").
Proof.
  cbv zeta.
  destruct (safewrite_never_reports_existing (project_on schema_nested_objects false)
              ["project"; "a.json"] (Callable (Text "{") (Some FileExistsError))
              (loaded schema_nested_objects ∅) eq_refl) as (_ & _ & _ & Hrun).
  rewrite (Hrun _ eq_refl); [|done]. split; [done|]. by vm_compute.
Defined.

(** ** Submission: what is packaged, what is sent, what is left behind *)

Lemma same_files_refl w : same_files w w.
Proof. done. Qed.

Lemma same_files_trans w1 w2 w3 : same_files w1 w2 → same_files w2 w3 → same_files w1 w3.
Proof. unfold same_files. congruence. Qed.

Lemma same_files_logged r w : same_files w (logged r w).
Proof. done. Qed.

Lemma Always_remote R {A} (c : call) (answer : outcome A) :
  (∀ w, R w (called c w)) → Always R (remote c answer).
Proof. intros Hc w. apply Hc. Qed.

Lemma Always_mret_bind R {A B} (a : A) (k : A → M B) :
  Always R (k a) → Always R (mret a ≫= k).
Proof. intros H w. apply H. Qed.

Lemma Always_files_hypenated_name self : Always same_files (hypenated_name self).
Proof. unfold hypenated_name. by destruct (type_info self). Qed.

Lemma Always_files_type_name self : Always same_files (type_name self).
Proof. unfold type_name. by destruct (type_info self). Qed.

Lemma Always_files_str_in s c : Always same_files (Py.str_in s c).
Proof.
  unfold Py.str_in. destruct c; try done.
  apply (Always_bind same_files same_files_trans);
    [apply (Always_deref same_files same_files_refl)|].
  by intros [].
Qed.

Ltac files_step :=
  first
    [ apply Always_files_hypenated_name | apply Always_files_type_name
    | apply Always_files_str_in
    | match goal with |- Always _ (mret _ ≫= _) => apply Always_mret_bind end
    | apply (Always_mret same_files same_files_refl)
    | apply (Always_raise same_files same_files_refl)
    | apply (Always_stuck same_files same_files_refl)
    | apply (Always_lift same_files same_files_refl)
    | apply (Always_deref same_files same_files_refl)
    | apply (Always_LOG same_files same_files_logged)
    | apply Always_remote; by intros ?
    | solve [ by intros ? ]
    | apply (Always_bind same_files same_files_trans); [| intros ?]
    | apply (Always_try_except same_files same_files_trans);
        [| let e := fresh "e" in let h := fresh "h" in let He := fresh "He" in
           intros e h He; destruct e; try done; injection He as <- ]
    | match goal with
      | |- Always _ (match ?x with _ => _ end) => destruct x
      | |- Always _ (if ?x then _ else _) => destruct x
      | |- Always _ (let '(_, _) := ?x in _) => destruct x
      end ].

Ltac files_tac := repeat files_step.

Lemma Always_files_wait sv token set_default :
  Always same_files (_wait_for_registration sv token set_default).
Proof. unfold _wait_for_registration. files_tac. Qed.

Lemma Always_files_upload self sv fileobj endpoint_url region_name role_arn use_role
    set_default :
  Always same_files
    (_upload self sv fileobj endpoint_url region_name role_arn use_role set_default).
Proof.
  unfold _upload. files_tac.
  all: apply Always_files_wait.
Qed.

(** A submission that is not a dry run writes and removes no file,
    whatever way it ends: the archive lives in a temporary file only. *)
Theorem submit_leaves_no_file self sv endpoint_url region_name role_arn use_role
    set_default w :
  fs (submit self sv false endpoint_url region_name role_arn use_role set_default w).2
  = fs w.
Proof.
  revert w. change (Always same_files
    (submit self sv false endpoint_url region_name role_arn use_role set_default)).
  unfold submit, zip_write, package, schema_path, schema_filename.
  cbv iota. files_tac. all: try apply Always_files_upload.
Qed.

Lemma zip_write_temp_found entries src arcname w d :
  fs w !! src = Some d →
  zip_write None entries src arcname w = (Ok (entries ++ [(arcname, d)]), w).
Proof. intros H. unfold zip_write, mbind, M_bind, get_fs. by rewrite H. Qed.

Lemma zip_write_missing target entries src arcname w :
  fs w !! src = None →
  zip_write target entries src arcname w = (Raise FileNotFoundError, w).
Proof. intros H. unfold zip_write, mbind, M_bind, get_fs. by rewrite H. Qed.

(** A submission that is not a dry run is the upload of the package:
    the schema as [schema.json], the settings as [.rpdk-config], the
    overrides as [overrides.json] when that file exists, then what the
    language plugin adds, in this order. *)
Theorem submit_uploads_package self sv endpoint_url region_name role_arn use_role
    set_default w parts schema_file settings_file added :
  type_info self = Some parts →
  fs w !! (root self ++ [Str.lower (Str.join "-" parts) +:+ ".json"]) = Some schema_file →
  fs w !! (root self ++ [SETTINGS_FILENAME]) = Some settings_file →
  plugin_package sv = Ok added →
  let overrides := fs w !! (root self ++ [OVERRIDES_FILENAME]) in
  submit self sv false endpoint_url region_name role_arn use_role set_default w
  = _upload self sv
      ([(SCHEMA_UPLOAD_FILENAME, schema_file); (SETTINGS_FILENAME, settings_file)]
       ++ match overrides with
          | Some d => [(OVERRIDES_FILENAME, d)]
          | None => []
          end
       ++ added)
      endpoint_url region_name role_arn use_role set_default
      (logged (Log DEBUG
                 (match overrides with
                  | Some _ => "%s found. Writing to package."
                  | None => "%s not found. Not writing to package."
                  end) [AStr OVERRIDES_FILENAME]) w).
Proof.
  intros Ht Hschema Hsettings Hplugin. cbv zeta. unfold submit.
  rewrite mret_bind. unfold schema_path, schema_filename.
  rewrite !bind_assoc, (bind_ok _ _ _ _ _ (hypenated_name_ok _ _ _ Ht)). mnorm.
  rewrite (bind_ok _ _ _ _ _ (zip_write_temp_found _ _ _ w _ Hschema)). cbv beta.
  rewrite (bind_ok _ _ _ _ _ (zip_write_temp_found _ _ _ w _ Hsettings)). cbv beta.
  unfold overrides_path.
  destruct (fs w !! (root self ++ [OVERRIDES_FILENAME])) as [d|] eqn:Hov.
  - erewrite (bind_ok (try_except _ _));
      [| apply try_except_ok;
         rewrite (bind_ok _ _ _ _ _ (zip_write_temp_found _ _ _ w _ Hov)); by rewrite log_bind ].
    unfold package. rewrite Hplugin. unfold lift at 1. mnorm.
    unfold get_fs at 1. unfold mbind at 1, M_bind at 1. mnorm.
    by rewrite <- !app_assoc.
  - erewrite (bind_ok (try_except _ _));
      [| erewrite try_except_caught;
         [| by rewrite (bind_raise _ _ _ _ _ (zip_write_missing _ _ _ _ w Hov)) | done ];
         by rewrite log_bind ].
    unfold package. rewrite Hplugin. unfold lift at 1. mnorm.
    unfold get_fs at 1. unfold mbind at 1, M_bind at 1. mnorm.
    by rewrite <- !app_assoc.
Qed.

Lemma submit_uploads_package_witness :
  let self := project_on schema_with_handlers false in
  let w := loaded schema_with_handlers project_files in
  (submit self obliging false None None None true true w).1 = Ok tt
  ∧ UploaderUpload "initech-tps-report"
      [("schema.json", Text "{ schema }"); (".rpdk-config", Text "{ settings }");
       ("code.zip", Text "code")]
    ∈ calls (submit self obliging false None None None true true w).2.
Proof.
  cbv zeta.
  rewrite (submit_uploads_package (project_on schema_with_handlers false) obliging
             None None None true true (loaded schema_with_handlers project_files)
             ["Initech"; "TPS"; "Report"] (Text "{ schema }") (Text "{ settings }")
             [("code.zip", Text "code")] eq_refl);
    [| by vm_compute ..].
  split; [by vm_compute|]. vm_compute.
  do 2 apply list_elem_of_further. apply list_elem_of_here.
Defined.

Lemma string_length_append (s t : string) :
  String.length (s +:+ t) = (String.length s + String.length t)%nat.
Proof. induction s as [|c s IH]; simpl; [done | by rewrite IH]. Qed.

Lemma zip_name_not_schema name : name +:+ ".json" ≠ name +:+ ".zip".
Proof.
  intros H. apply (f_equal String.length) in H.
  rewrite !string_length_append in H. simpl in H. lia.
Qed.

Lemma zip_name_not_settings name : name +:+ ".zip" ≠ SETTINGS_FILENAME.
Proof.
  intros H. pose proof (f_equal String.length H) as Hlen.
  rewrite string_length_append in Hlen. simpl in Hlen.
  pose proof (String.append_correct2 name ".zip" 3) as Hget.
  rewrite H in Hget. replace (3 + String.length name)%nat with 11%nat in Hget by lia.
  by vm_compute in Hget.
Qed.

(** Without its schema file, or without its settings file, a project is
    not submitted: [FileNotFoundError] is raised before any remote call
    and before anything is logged.  A dry run has by then created the
    archive, which stays behind, empty or with the schema alone. *)
Theorem submit_missing_file self sv dry_run endpoint_url region_name role_arn use_role
    set_default w parts :
  type_info self = Some parts →
  let name := Str.lower (Str.join "-" parts) in
  let archive := cwd self ++ [name +:+ ".zip"] in
  let r := submit self sv dry_run endpoint_url region_name role_arn use_role set_default w in
  match fs w !! (root self ++ [name +:+ ".json"]) with
  | None =>
      r.1 = Raise FileNotFoundError ∧ calls r.2 = calls w ∧ log r.2 = log w
      ∧ fs r.2 = if dry_run then <[archive := ZipFile []]> (fs w) else fs w
  | Some schema_file =>
      fs w !! (root self ++ [SETTINGS_FILENAME]) = None →
      r.1 = Raise FileNotFoundError ∧ calls r.2 = calls w ∧ log r.2 = log w
      ∧ fs r.2 = if dry_run
                 then <[archive := ZipFile [(SCHEMA_UPLOAD_FILENAME, schema_file)]]> (fs w)
                 else fs w
  end.
Proof.
  intros Ht. cbv zeta.
  set (name := Str.lower (Str.join "-" parts)).
  set (archive := cwd self ++ [name +:+ ".zip"]).
  assert (Hne1 : archive ≠ root self ++ [name +:+ ".json"]).
  { intros [_ H]%app_inj_tail. by apply (zip_name_not_schema name). }
  assert (Hne2 : archive ≠ root self ++ [SETTINGS_FILENAME]).
  { intros [_ H]%app_inj_tail. by apply (zip_name_not_settings name). }
  unfold submit. destruct dry_run.
  - set (w1 := with_fs (<[archive := ZipFile []]> (fs w)) w).
    erewrite (bind_ok _ _ w (Some archive) w1);
      [| by rewrite (bind_ok _ _ _ _ _ (hypenated_name_ok _ _ _ Ht)) ].
    unfold schema_path, schema_filename.
    rewrite !bind_assoc, (bind_ok _ _ _ _ _ (hypenated_name_ok _ _ _ Ht)).
    fold name. mnorm.
    destruct (fs w !! (root self ++ [name +:+ ".json"])) as [schema_file|] eqn:Hschema.
    + intros Hsettings.
      assert (H1 : fs w1 !! (root self ++ [name +:+ ".json"]) = Some schema_file).
      { subst w1. cbn. by rewrite lookup_insert_ne. }
      rewrite (bind_ok _ _ _ _ _ (zip_write_found _ _ _ _ w1 _ H1)). cbv beta.
      erewrite bind_raise; [| apply zip_write_missing; cbn; by rewrite !lookup_insert_ne ].
      cbn. split; [done|]. split; [done|]. split; [done|]. by rewrite insert_insert_eq.
    + erewrite bind_raise; [| apply zip_write_missing; cbn; by rewrite lookup_insert_ne ].
      done.
  - rewrite mret_bind. unfold schema_path, schema_filename.
    rewrite !bind_assoc, (bind_ok _ _ _ _ _ (hypenated_name_ok _ _ _ Ht)).
    fold name. mnorm.
    destruct (fs w !! (root self ++ [name +:+ ".json"])) as [schema_file|] eqn:Hschema.
    + intros Hsettings.
      rewrite (bind_ok _ _ _ _ _ (zip_write_temp_found _ _ _ w _ Hschema)). cbv beta.
      by erewrite bind_raise; [| by apply zip_write_missing ].
    + by erewrite bind_raise; [| by apply zip_write_missing ].
Qed.

Lemma submit_missing_file_witness :
  let self := project_on schema_with_handlers false in
  let w := loaded schema_with_handlers ∅ in
  let r := submit self obliging true None None None true true w in
  r.1 = Raise FileNotFoundError ∧ calls r.2 = []
  ∧ fs r.2 = {[ ["project"; "initech-tps-report.zip"] := ZipFile [] ]}.
Proof.
  cbv zeta.
  pose proof (submit_missing_file (project_on schema_with_handlers false) obliging true
                None None None true true (loaded schema_with_handlers ∅)
                ["Initech"; "TPS"; "Report"] eq_refl) as H.
  cbv zeta in H.
  change (fs (loaded schema_with_handlers ∅) !! _) with (@None data) in H.
  destruct H as (H1 & H2 & _ & H3). split; [exact H1|]. split; [exact H2|]. exact H3.
Defined.

(** ** Registration: the request and the wait *)




(** When the waiter returns, the registration is described once, and
    the described version is made the default only when that was asked
    for: with its [TypeVersionArn], and a [ClientError] of that last call
    becomes the downstream failure [Error setting default version]. *)
Theorem registration_completes sv token set_default w response :
  waiter_wait sv token = Ok tt →
  describe_type_registration sv token = Ok response →
  let r := _wait_for_registration sv token set_default w in
  if set_default then
    match response_get "TypeVersionArn" response with
    | None =>
        r.1 = Raise KeyError
        ∧ calls r.2 = calls w ++ [WaiterWait token; DescribeTypeRegistration token]
    | Some arn =>
        calls r.2 = calls w ++ [WaiterWait token; DescribeTypeRegistration token;
                                SetTypeDefaultVersion arn]
        ∧ match set_type_default_version sv arn with
          | Ok _ =>
              r.1 = Ok tt
              ∧ last (log r.2) = Some (Log WARNING "Set default version to '%s" [AStr arn])
          | Raise (ClientError c) =>
              r.1 = Raise (DownstreamError "Error setting default version" (ClientError c))
          | Raise e => r.1 = Raise e
          | Stuck => r.1 = Stuck
          end
    end
  else
    r.1 = Ok tt
    ∧ calls r.2 = calls w ++ [WaiterWait token; DescribeTypeRegistration token]
    ∧ last (log r.2) = Some (Log WARNING "%s" [AResponse response]).
Proof.
  intros Hwait Hdescribe. cbv zeta. rewrite (wait_returns_run _ _ _ _ Hwait), Hdescribe.
  cbv zeta. destruct set_default.
  - destruct (response_get "TypeVersionArn" response) as [arn|].
    + destruct (set_type_default_version sv arn) as [[]|e|]; [| destruct e |];
        cbn [fst snd calls log called logged]; rewrite ?last_snoc, <- ?app_assoc;
        by repeat split.
    + cbn [fst snd calls called logged]. by rewrite <- app_assoc.
  - cbn [fst snd calls log called logged]. rewrite last_snoc, <- app_assoc.
    by repeat split.
Qed.

Lemma registration_completes_witness :
  let r := _wait_for_registration obliging "reg-1" true (loaded schema_with_handlers ∅) in
  r.1 = Ok tt
  ∧ calls r.2 = [WaiterWait "reg-1"; DescribeTypeRegistration "reg-1";
                 SetTypeDefaultVersion "arn:type/1"].
Proof.
  cbv zeta.
  pose proof (registration_completes obliging "reg-1" true (loaded schema_with_handlers ∅)
                _ eq_refl eq_refl) as H.
  cbv zeta in H. cbn [response_get String.eqb Ascii.eqb Bool.eqb] in H.
  destruct H as [Hcalls H]. cbn [set_type_default_version obliging] in H.
  destruct H as [Hok _]. split; [exact Hok | exact Hcalls].
Defined.

(** Two failures that [_wait_for_registration] hands on as they are: what
    the waiter raises when it is not a [WaiterError] (the registration is
    then not described), and what describing the registration raises
    after the waiter has returned (it is not made a downstream failure,
    unlike in the failure path). *)
Theorem wait_failures_handed_on sv token set_default w e :
  let r := _wait_for_registration sv token set_default w in
  (waiter_wait sv token = Raise e → (∀ detail, e ≠ WaiterError detail) →
     r.1 = Raise e ∧ calls r.2 = calls w ++ [WaiterWait token])
  ∧ (waiter_wait sv token = Ok tt → describe_type_registration sv token = Raise e →
     r.1 = Raise e
     ∧ calls r.2 = calls w ++ [WaiterWait token; DescribeTypeRegistration token]).
Proof.
  cbv zeta. split.
  - intros Hwait He. by rewrite (wait_raises_run _ _ _ _ _ Hwait He).
  - intros Hwait Hdescribe. rewrite (wait_returns_run _ _ _ _ Hwait), Hdescribe.
    cbn [fst snd calls called logged]. by rewrite <- app_assoc.
Qed.

Lemma wait_failures_handed_on_witness :
  let r := _wait_for_registration silent_registry "reg-1" true
             (loaded schema_with_handlers ∅) in
  r.1 = Raise (ClientError "Throttling")
  ∧ calls r.2 = [WaiterWait "reg-1"; DescribeTypeRegistration "reg-1"].
Proof.
  exact (proj2 (wait_failures_handed_on silent_registry "reg-1" true
                  (loaded schema_with_handlers ∅) (ClientError "Throttling"))
           eq_refl eq_refl).
Defined.

(** ** Documentation generation and the files *)

Lemma confined_refl w : confined w w [].
Proof. split; [by rewrite app_nil_r | by left]. Qed.





















(** Without type info, without a schema, with an empty schema or with a
    schema that has no [properties], [generate_docs] logs a warning and
    does nothing else: no file is removed or written. *)
Theorem generate_docs_needs_schema self fuel w :
  (type_info self = None ∨ type_info self = Some []
   ∨ schema self = VNone
   ∨ ∃ a d, schema self = VRef a ∧ heap w !! a = Some (ODict d)
       ∧ (d = [] ∨ Dict.get "properties" d = None)) →
  generate_docs self fuel w
  = (Ok tt, logged (Log WARNING
       "Could not generate schema docs due to missing type info or schema" []) w).
Proof.
  intros H. unfold generate_docs.
  destruct (type_info self) as [[|part parts]|] eqn:Ht;
    [by rewrite mret_bind| |by rewrite mret_bind].
  destruct H as [H|[H|[H|(a & d & Hs & Ha & H)]]]; [done..| |].
  - rewrite H. by rewrite bind_assoc, (bind_ok _ _ _ _ _ (truthy_none w)).
  - rewrite Hs. rewrite bind_assoc. unfold Py.truthy.
    rewrite bind_assoc, (bind_ok _ _ _ _ _ (deref_ok _ _ _ Ha)).
    destruct H as [->|H]; [by rewrite !mret_bind|].
    destruct d as [|kv d]; [by rewrite !mret_bind|]. rewrite !mret_bind. cbn [negb].
    unfold fmap, M_fmap.
    rewrite bind_assoc, (bind_ok _ _ _ _ _ (str_in_dict _ _ _ _ Ha)), H.
    by rewrite !mret_bind.
Qed.

Lemma generate_docs_needs_schema_witness :
  let self := project_on (JObj [("typeName", JStr "Initech::TPS::Report")]) false in
  let w := loaded (JObj [("typeName", JStr "Initech::TPS::Report")]) stale_files in
  (generate_docs self 5 w).1 = Ok tt ∧ fs (generate_docs self 5 w).2 = stale_files.
Proof.
  cbv zeta.
  rewrite (generate_docs_needs_schema
             (project_on (JObj [("typeName", JStr "Initech::TPS::Report")]) false) 5
             (loaded (JObj [("typeName", JStr "Initech::TPS::Report")]) stale_files)); [done|].
  right. right. right. eexists _, _. split; [by vm_compute|]. split; [by vm_compute|].
  by right.
Defined.

(** When [docs] is a plain file, [generate_docs] raises [FileExistsError]
    once it is past its guard: removing the tree fails silently and the
    directory cannot be made.  No file is touched. *)
Theorem generate_docs_docs_is_a_file self fuel w part parts a d properties old :
  type_info self = Some (part :: parts) →
  schema self = VRef a → heap w !! a = Some (ODict d) →
  Dict.get "properties" d = Some properties →
  fs w !! docs_path self = Some old →
  (∀ p, below (docs_path self) p → fs w !! p = None) →
  let r := generate_docs self fuel w in
  r.1 = Raise FileExistsError ∧ fs r.2 = fs w ∧ heap r.2 = heap w
  ∧ log r.2 = log w ++ [Log DEBUG "Removing generated docs: %s" [APath (docs_path self)]].
Proof.
  intros Ht Hs Ha Hprops Hdocs Hbelow. cbv zeta. unfold generate_docs.
  rewrite Ht, Hs. rewrite bind_assoc. unfold Py.truthy.
  rewrite bind_assoc, (bind_ok _ _ _ _ _ (deref_ok _ _ _ Ha)).
  destruct d as [|kv d]; [done|]. rewrite !mret_bind. cbn [negb].
  unfold fmap, M_fmap.
  rewrite bind_assoc, (bind_ok _ _ _ _ _ (str_in_dict _ _ _ _ Ha)), Hprops.
  rewrite !mret_bind.
  rewrite bool_decide_eq_true_2 by by eexists. cbn [negb].
  rewrite log_bind.
  assert (Hsame : filter (λ kv : path * data, ¬ (docs_path self `prefix_of` kv.1
                                                  ∧ kv.1 ≠ docs_path self)) (fs w) = fs w).
  { apply map_filter_id. intros p x Hp Hb. cbn in Hb.
    specialize (Hbelow p Hb). congruence. }
  set (w1 := logged (Log DEBUG "Removing generated docs: %s" [APath (docs_path self)]) w).
  assert (Hrm : rmtree (docs_path self) w1 = (Ok tt, w1)).
  { unfold rmtree, mbind, M_bind, get_fs, set_fs. cbn [fs logged w1]. rewrite Hsame.
    by destruct w. }
  assert (Hmk : mkdir_exist_ok (docs_path self) w1 = (Raise FileExistsError, w1)).
  { unfold mkdir_exist_ok, mbind, M_bind, get_fs. cbn [fs logged w1]. by rewrite Hdocs. }
  rewrite (bind_ok _ _ _ _ _ Hrm), (bind_raise _ _ _ _ _ Hmk). done.
Qed.

Lemma generate_docs_docs_is_a_file_witness :
  let r := generate_docs (project_on schema_nested_objects false) 5
             (loaded schema_nested_objects docs_is_a_file) in
  r.1 = Raise FileExistsError ∧ fs r.2 = docs_is_a_file.
Proof.
  cbv zeta.
  assert (Hs : schema (project_on schema_nested_objects false) = VRef 7) by by vm_compute.
  assert (Ha : heap (loaded schema_nested_objects docs_is_a_file) !! 7%nat
               = Some (ODict [("typeName", VStr "Initech::TPS::Report");
                              ("properties", VRef 6%nat)])) by by vm_compute.
  assert (Hd : fs (loaded schema_nested_objects docs_is_a_file)
                 !! docs_path (project_on schema_nested_objects false)
               = Some (Text "not a directory")) by by vm_compute.
  destruct (generate_docs_docs_is_a_file (project_on schema_nested_objects false) 5
              (loaded schema_nested_objects docs_is_a_file) "Initech" ["TPS"; "Report"]
              _ _ (VRef 6%nat) _ eq_refl Hs Ha eq_refl Hd)
    as (H1 & H2 & _).
  { intros p [_ Hp]. by apply (lookup_singleton_ne (M:=gmap path)). }
  split; [exact H1 | exact H2].
Defined.

(** ** The walker on one node *)












(** A node whose [type] is a list or a dict, as in a union of type
    names, is refused: looking the type up among the scalar types raises
    [TypeError], after the flags are set and before any display field is. *)
Theorem union_type_is_refused self fuel propname proppath w a d s sd tv :
  heap w !! a = Some (ODict d) → Dict.get "$ref" d = None →
  Dict.get "type" d = Some (VRef tv) →
  schema self = VRef s → s ≠ a → heap w !! s = Some (ODict sd) →
  pointer_list w sd "createOnlyProperties" → pointer_list w sd "readOnlyProperties" →
  let r := _set_docs_properties self (S fuel) propname (VRef a) proppath w in
  r.1 = Raise TypeError ∧ fs r.2 = fs w ∧ side_artifacts r.2 = side_artifacts w
  ∧ ∃ d', heap r.2 !! a = Some (ODict d') ∧ Dict.get "jsontype" d' = Dict.get "jsontype" d.
Proof.
  intros Ha Hnoref Htype Hs Hsa Hsd Hco Hro. cbv zeta.
  cbn [_set_docs_properties].
  rewrite (bind_ok _ _ _ _ _ (str_in_dict _ _ _ _ Ha)).
  mnorm.
  rewrite Hnoref, bool_decide_false by (by intros [? ?]). rewrite mret_bind.
  destruct (listed_in_run self "createOnlyProperties"
              (Pointer.fragment_encode ("properties" :: proppath) EmptyString) _ _ _ Hs Hsd Hco)
    as [co Hcorun].
  rewrite (bind_ok _ _ _ _ _ Hcorun).
  mnorm.
  destruct (flag_run co a "createonly" (VBool true) d w Ha) as (w1 & Hrun1 & Hh1 & Hf1 & _ & Hs1).
  rewrite (bind_ok _ _ _ _ _ Hrun1).
  mnorm.
  set (d1 := if co then Dict.set "createonly" (VBool true) d else d) in *.
  assert (Ha1 : heap w1 !! a = Some (ODict d1)) by (rewrite Hh1; by eapply heap_insert_node).
  assert (Hsd1 : heap w1 !! s = Some (ODict sd)) by (rewrite Hh1; by rewrite list_lookup_insert_ne).
  assert (Hro1 : pointer_list w1 sd "readOnlyProperties").
  { unfold pointer_list in *. destruct (Dict.get "readOnlyProperties" sd) as [[| | | |l]|]; try done.
    destruct Hro as [xs Hxs]. exists xs. rewrite Hh1.
    rewrite list_lookup_insert_ne; [done|]. intros <-. congruence. }
  destruct (listed_in_run self "readOnlyProperties"
              (Pointer.fragment_encode ("properties" :: proppath) EmptyString) _ _ _ Hs Hsd1 Hro1)
    as [ro Hrorun].
  rewrite (bind_ok _ _ _ _ _ Hrorun).
  mnorm.
  destruct (flag_run ro a "readonly" (VBool true) d1 w1 Ha1) as (w2 & Hrun2 & Hh2 & Hf2 & _ & Hs2).
  rewrite (bind_ok _ _ _ _ _ Hrun2).
  mnorm.
  set (d2 := if ro then Dict.set "readonly" (VBool true) d1 else d1) in *.
  assert (Ha2 : heap w2 !! a = Some (ODict d2)) by (rewrite Hh2; by eapply heap_insert_node).
  assert (Hget2 : ∀ k, k ≠ "createonly" → k ≠ "readonly" → Dict.get k d2 = Dict.get k d).
  { intros k Hk1 Hk2. unfold d2, d1. by rewrite !dict_get_flag. }
  rewrite (bind_ok _ _ _ _ _ (get_default_dict "type" (VStr "object") _ _ _ Ha2)).
  rewrite (Hget2 "type") by done. rewrite Htype. cbn [default from_option id].
  cbv beta iota. rewrite !raise_bind. cbn [fst snd].
  split; [done|]. split; [congruence|]. split; [congruence|].
  exists d2. split; [done|]. by apply Hget2.
Qed.

Lemma union_type_is_refused_witness :
  let self := project_on schema_array_and_union false in
  let node := node_at schema_array_and_union ["properties"; "Name"] in
  (_set_docs_properties self 5 "Name" node ["Name"] (loaded schema_array_and_union ∅)).1
  = Raise TypeError
  ∧ (generate_docs self 5 (loaded schema_array_and_union stale_files)).1 = Raise TypeError.
Proof.
  cbv zeta.
  change (node_at schema_array_and_union ["properties"; "Name"]) with (VRef 3).
  split; [|by vm_compute].
  apply (union_type_is_refused (project_on schema_array_and_union false) 4 "Name" ["Name"]
           (loaded schema_array_and_union ∅) 3%nat [("type", VRef 2%nat)] 5%nat
           [("typeName", VStr "Initech::TPS::Report"); ("properties", VRef 4%nat)] 2%nat
           eq_refl eq_refl eq_refl eq_refl ltac:(done) eq_refl I I).
Defined.

(** ** Markdown and type names *)

(** [escape_markdown] puts a backslash before a string that begins with
    a reserved character and leaves every other string alone; what it
    returns never begins with a reserved character, so that escaping
    twice is escaping once. *)
Theorem escape_markdown_once s :
  escape_markdown (escape_markdown s) = escape_markdown s
  ∧ (∀ c r, escape_markdown s = String c r → c ∉ MARKDOWN_RESERVED_CHARACTERS)
  ∧ (escape_markdown s = s ∨ escape_markdown s = backslash +:+ s)
  ∧ (escape_markdown s = s ↔
       ∀ c r, s = String c r → c ∉ MARKDOWN_RESERVED_CHARACTERS).
Proof.
  destruct s as [|c s].
  { unfold escape_markdown.
    split; [done|]. split; [by intros c r H|]. split; [by left|]. split; [|done].
    by intros _ c r H. }
  unfold escape_markdown. case_bool_decide as Hc.
  - split; [done|].
    split; [intros c' r [= <- _]; apply (bool_decide_eq_false_1 _); by vm_compute|].
    split; [by right|]. split.
    + intros H. apply (f_equal String.length) in H. simpl in H. lia.
    + intros H. by destruct (H c s eq_refl).
  - rewrite bool_decide_false by done. split; [done|].
    split; [by intros c' r [= <- _]|]. split; [by left|]. split; [|done].
    by intros _ c' r [= <- _].
Qed.

Lemma split_pair_step a b c d r :
  split_pair a b (String c (String d r))
  = if (Ascii.eqb c a && Ascii.eqb d b)%bool
    then EmptyString :: split_pair a b r
    else match split_pair a b (String d r) with
         | x :: xs => String c x :: xs
         | [] => [String c EmptyString]
         end.
Proof. done. Qed.

Lemma split_pair_nonempty a b s : split_pair a b s ≠ [].
Proof.
  destruct s as [|c [|d r]]; [done..|]. rewrite split_pair_step.
  destruct (_ && _)%bool; [done|]. by destruct (split_pair a b (String d r)).
Qed.

Lemma concat_cons_head sep c x xs :
  String.concat sep (String c x :: xs) = String c (String.concat sep (x :: xs)).
Proof. by destruct xs. Qed.

Lemma join_split_pair a b : ∀ n s, (String.length s ≤ n)%nat →
  Str.join (String a (String b EmptyString)) (split_pair a b s) = s.
Proof.
  unfold Str.join. induction n as [|n IH]; intros s Hn.
  - destruct s; [done | simpl in Hn; lia].
  - destruct s as [|c [|d r]]; [done..|]. rewrite split_pair_step.
    destruct (Ascii.eqb c a && Ascii.eqb d b)%bool eqn:E.
    + apply andb_true_iff in E as [->%Ascii.eqb_eq ->%Ascii.eqb_eq].
      pose proof (split_pair_nonempty a b r) as Hne.
      destruct (split_pair a b r) as [|x xs] eqn:Hr; [done|].
      change (String.concat (String a (String b EmptyString)) (EmptyString :: x :: xs))
        with (String a (String b (String.concat (String a (String b EmptyString)) (x :: xs)))).
      rewrite <- Hr, (IH r) by (simpl in Hn; lia). done.
    + pose proof (split_pair_nonempty a b (String d r)) as Hne.
      destruct (split_pair a b (String d r)) as [|x xs] eqn:Hr; [done|].
      rewrite concat_cons_head, <- Hr, (IH (String d r)) by (simpl in *; lia). done.
Qed.


(** Setting the type name and reading it back gives the same string,
    whatever the string is; the setter always leaves at least one
    segment, so that a project whose type name was set, even to the
    empty string, never counts as one without type info. *)
Theorem type_name_round_trip self value w :
  type_name (set_type_name self value) w = (Ok value, w)
  ∧ ∃ part parts, type_info (set_type_name self value) = Some (part :: parts).
Proof.
  split.
  - unfold type_name, set_type_name. cbn [type_info].
    by rewrite (join_split_pair ":" ":" (String.length value) value).
  - cbn [type_info set_type_name].
    pose proof (split_pair_nonempty ":" ":" value) as Hne.
    destruct (split_pair ":" ":" value) as [|part parts]; [done|]. by eexists _, _.
Qed.

(** ** The project lifecycle *)

Lemma lbind_done {A B} (m : L A) (k : A → L B) s a s' :
  m s = (Done a, s') → (m ≫= k) s = k a s'.
Proof. intros H. unfold mbind, L_bind. by rewrite H. Qed.

Lemma lbind_fail {A B} (m : L A) (k : A → L B) s e s' :
  m s = (Thrown e, s') → (m ≫= k) s = (Thrown e, s').
Proof. intros H. unfold mbind, L_bind. by rewrite H. Qed.

Lemma lbind_assoc {A B C} (m : L A) (k1 : A → L B) (k2 : B → L C) s :
  ((m ≫= k1) ≫= k2) s = (m ≫= (λ a, k1 a ≫= k2)) s.
Proof. unfold mbind, L_bind. by destruct (m s) as [[a|e|] s']. Qed.

Lemma lret_bind {A B} (a : A) (k : A → L B) s : (mret a ≫= k) s = k a s.
Proof. done. Qed.

Lemma method_log {B} l f a (k : unit → L B) i w :
  (method (λ _, LOG l f a) ≫= k) (i, w) = k tt (i, logged (Log l f a) w).
Proof. done. Qed.

Lemma get_self_bind {B} (k : instance → L B) s : (get_self ≫= k) s = k s.1 s.
Proof. done. Qed.

Lemma assign_bind {B} f (k : unit → L B) i w : (assign f ≫= k) (i, w) = k tt (f i, w).
Proof. done. Qed.

Lemma open_r_found p i w d : fs w !! p = Some d → open_r p (i, w) = (Done d, (i, w)).
Proof. intros H. unfold open_r, method, mbind, M_bind, get_fs. cbn. by rewrite H. Qed.

Lemma open_r_missing p i w :
  fs w !! p = None → open_r p (i, w) = (Thrown (Builtin FileNotFoundError), (i, w)).
Proof. intros H. unfold open_r, method, mbind, M_bind, get_fs. cbn. by rewrite H. Qed.

Lemma try_catch_done {A} (body : L A) handler s a s' :
  body s = (Done a, s') → try_catch body handler s = (Done a, s').
Proof. intros H. unfold try_catch. by rewrite H. Qed.

Lemma try_catch_caught {A} (body : L A) handler s e s' h :
  body s = (Thrown e, s') → handler e = Some h → try_catch body handler s = h s'.
Proof. intros H Hh. unfold try_catch. by rewrite H, Hh. Qed.

Lemma try_catch_passed {A} (body : L A) handler s e s' :
  body s = (Thrown e, s') → handler e = None → try_catch body handler s = (Thrown e, s').
Proof. intros H Hh. unfold try_catch. by rewrite H, Hh. Qed.

Ltac lnorm :=
  repeat (progress (rewrite ?lbind_assoc, ?method_log, ?get_self_bind, ?assign_bind,
                      ?lret_bind; cbv beta iota; cbn [fst snd])).

(** A settings file that is not JSON, or that the validator refuses, is
    an invalid project: [load_settings] raises [InvalidProjectError] with
    the path in its message, chained to the decoding or validation error,
    and has by then assigned nothing. *)
Theorem load_settings_refuses env i w d :
  let path := settings_path (project i) in
  let msg := "Project file '" +:+ Path_str path +:+ "' is invalid" in
  fs w !! path = Some d →
  ∀ cause,
    match json_load env d with
    | Thrown (JSONDecodeError detail) => cause = JSONDecodeError detail
    | Done raw => SETTINGS_VALIDATOR raw = false ∧ cause = ValidationError
    | _ => False
    end →
    load_settings env (i, w)
    = (Thrown (InvalidProjectError msg cause),
       (i, logged (Log DEBUG msg [AExcInfo (as_exn cause)])
             (logged (Log DEBUG "Loading project file '%s'" [APath path]) w))).
Proof.
  intros path msg Hfile cause Hcause. unfold load_settings. lnorm. fold path.
  set (w1 := logged _ w).
  assert (Hopen : open_r path (i, w1) = (Done d, (i, w1))) by by apply open_r_found.
  destruct (json_load env d) as [raw|e|] eqn:Hload; [|destruct e; try done|done].
  - destruct Hcause as [Hinvalid ->].
    erewrite lbind_done;
      [| apply try_catch_done; rewrite (lbind_done _ _ _ _ _ Hopen); unfold answer;
         by rewrite Hload ].
    rewrite Hinvalid.
    erewrite lbind_fail; [reflexivity|].
    erewrite try_catch_caught; [| reflexivity | reflexivity ].
    unfold _raise_invalid_project. by rewrite method_log.
  - subst cause.
    erewrite lbind_fail; [reflexivity|].
    erewrite try_catch_caught;
      [| rewrite (lbind_done _ _ _ _ _ Hopen); unfold answer; by rewrite Hload | reflexivity ].
    unfold _raise_invalid_project. by rewrite method_log.
Qed.

Lemma alnum_not_colon c : alnum c = true → c ≠ ":"%char.
Proof. by intros H ->. Qed.

Lemma span_alnum_spec s :
  s = (span_alnum s).1 +:+ (span_alnum s).2
  ∧ Str.has_char ":" (span_alnum s).1 = false.
Proof.
  induction s as [|c s [IH1 IH2]]; [done|]. simpl.
  destruct (alnum c) eqn:Hc; [|done].
  destruct (span_alnum s) as [run rest]. simpl in *. split; [by rewrite IH1 at 1|].
  destruct (Ascii.eqb c ":") eqn:E; [|done].
  apply Ascii.eqb_eq in E. by apply alnum_not_colon in Hc.
Qed.

Lemma split_pair_whole s :
  Str.has_char ":" s = false → split_pair ":" ":" s = [s].
Proof.
  induction s as [|c s IH]; [done|].
  intros [E Hs]%orb_false_iff. destruct s as [|d r]; [done|].
  rewrite split_pair_step, E. cbn [andb]. by rewrite (IH Hs).
Qed.

Lemma split_pair_prefix x rest :
  Str.has_char ":" x = false →
  split_pair ":" ":" (x +:+ String ":" (String ":" rest)) = x :: split_pair ":" ":" rest.
Proof.
  induction x as [|c x IH]; [done|].
  intros [E Hx]%orb_false_iff.
  change (String c x +:+ String ":" (String ":" rest))
    with (String c (x +:+ String ":" (String ":" rest))).
  destruct (x +:+ String ":" (String ":" rest)) as [|d r] eqn:Htail.
  { by destruct x. }
  rewrite split_pair_step, E. cbn [andb]. by rewrite (IH Hx).
Qed.

Lemma colons_then (f : string → bool) r :
  match r with
  | String ":" (String ":" r') => f r'
  | _ => false
  end = true →
  ∃ r', r = String ":" (String ":" r') ∧ f r' = true.
Proof.
  destruct r as [|c [|d r']]; [done| |].
  - by destruct c as [[] [] [] [] [] [] [] []].
  - destruct c as [[] [] [] [] [] [] [] []]; try done.
    destruct d as [[] [] [] [] [] [] [] []]; try done. by exists r'.
Qed.

Lemma has_char_app c x y :
  Str.has_char c (x +:+ y) = (Str.has_char c x || Str.has_char c y)%bool.
Proof.
  induction x as [|d x IH]; [done|].
  change (String d x +:+ y) with (String d (x +:+ y)). simpl.
  by rewrite IH, orb_assoc.
Qed.

Lemma type_name_segments s :
  TYPE_NAME_REGEX s = true →
  ∃ x y z tail,
    s = x +:+ "::" +:+ y +:+ "::" +:+ z +:+ tail
    ∧ (tail = EmptyString ∨ tail = newline)
    ∧ split_pair ":" ":" s = [x; y; z +:+ tail]
    ∧ between_2_and_64 x = true ∧ between_2_and_64 y = true ∧ between_2_and_64 z = true
    ∧ Str.has_char ":" x = false ∧ Str.has_char ":" y = false ∧ Str.has_char ":" z = false.
Proof.
  unfold TYPE_NAME_REGEX. intros H.
  destruct (span_alnum_spec s) as [Hs Hx]. destruct (span_alnum s) as [x r1]. simpl in Hs, Hx.
  apply (colons_then (λ r, let '(y, r) := span_alnum r in
                           match r with
                           | String ":" (String ":" r) => _
                           | _ => false
                           end)) in H as (r1' & -> & H).
  destruct (span_alnum_spec r1') as [Hr1 Hy]. destruct (span_alnum r1') as [y r2].
  simpl in Hr1, Hy.
  apply (colons_then (λ r, let '(z, r) := span_alnum r in _)) in H as (r2' & -> & H).
  destruct (span_alnum_spec r2') as [Hr2 Hz]. destruct (span_alnum r2') as [z tail].
  simpl in Hr2, Hz.
  apply andb_true_iff in H as [H Htail]. apply andb_true_iff in H as [H Hbz].
  apply andb_true_iff in H as [Hbx Hby].
  assert (Ht : tail = EmptyString ∨ tail = newline).
  { apply orb_true_iff in Htail as [Ht|Ht]; apply String.eqb_eq in Ht; auto. }
  exists x, y, z, tail. split; [by rewrite Hs, Hr1, Hr2|]. split; [done|].
  split; [|done].
  rewrite Hs, Hr1, Hr2. rewrite (split_pair_prefix x) by done.
  rewrite (split_pair_prefix y) by done. rewrite split_pair_whole; [done|].
  rewrite has_char_app, Hz. by destruct Ht as [->| ->].
Qed.



Lemma member_elem k ms v : member k ms = Some v → (k, v) ∈ ms.
Proof.
  induction ms as [|[k' v'] ms IH]; [done|]. simpl.
  destruct (member k ms) as [v0|] eqn:E.
  - intros [= <-]. by apply list_elem_of_further, IH.
  - destruct (String.eqb k' k) eqn:Ek; [|done]. intros [= <-].
    apply String.eqb_eq in Ek as ->. apply list_elem_of_here.
Qed.

Lemma validated_member ms k v :
  SETTINGS_VALIDATOR (JObj ms) = true → member k ms = Some v → property_valid k v = true.
Proof.
  intros [Hall _]%andb_true_iff Hk.
  apply Is_true_eq_left, forallb_True in Hall.
  rewrite Forall_forall in Hall. specialize (Hall _ (member_elem _ _ _ Hk)).
  cbn [fst] in Hall. rewrite Hk in Hall. by apply Is_true_eq_true.
Qed.

Lemma validated_required ms k :
  SETTINGS_VALIDATOR (JObj ms) = true →
  k ∈ ["language"; "typeName"; "runtime"; "entrypoint"] → is_Some (member k ms).
Proof.
  intros [_ Hreq]%andb_true_iff Hk.
  apply Is_true_eq_left, forallb_True in Hreq.
  rewrite Forall_forall in Hreq. specialize (Hreq _ Hk).
  by apply bool_decide_unpack in Hreq.
Qed.

Lemma validated_fields ms :
  SETTINGS_VALIDATOR (JObj ms) = true →
  ∃ tn l r e,
    member "typeName" ms = Some (JStr tn) ∧ TYPE_NAME_REGEX tn = true
    ∧ member "language" ms = Some (JStr l)
    ∧ member "runtime" ms = Some (JStr r) ∧ r ∈ LAMBDA_RUNTIMES
    ∧ member "entrypoint" ms = Some e ∧ is_string_or_null e = true.
Proof.
  intros Hvalid.
  destruct (validated_required ms "typeName" Hvalid) as [tn Htn];
    [apply (bool_decide_eq_true_1 _); by vm_compute|].
  destruct (validated_required ms "language" Hvalid) as [l Hl];
    [apply (bool_decide_eq_true_1 _); by vm_compute|].
  destruct (validated_required ms "runtime" Hvalid) as [r Hr];
    [apply (bool_decide_eq_true_1 _); by vm_compute|].
  destruct (validated_required ms "entrypoint" Hvalid) as [e He];
    [apply (bool_decide_eq_true_1 _); by vm_compute|].
  pose proof (validated_member _ _ _ Hvalid Htn) as Ptn.
  pose proof (validated_member _ _ _ Hvalid Hl) as Pl.
  pose proof (validated_member _ _ _ Hvalid Hr) as Pr.
  pose proof (validated_member _ _ _ Hvalid He) as Pe.
  cbv [property_valid] in Ptn, Pl, Pr, Pe. cbn in Ptn, Pl, Pr, Pe.
  destruct tn as [| | |tn| |]; try done.
  destruct l as [| | |l| |]; try done.
  destruct r as [| | |r| |]; try done.
  apply bool_decide_eq_true_1 in Pr.
  by exists tn, l, r, e.
Qed.

Lemma answer_done {A B} (r : result A) (k : A → L B) s a :
  r = Done a → (answer r ≫= k) s = k a s.
Proof. by intros ->. Qed.

Lemma answer_fail {A B} (r : result A) (k : A → L B) s e :
  r = Thrown e → (answer r ≫= k) s = (Thrown e, s).
Proof. by intros ->. Qed.

Lemma subscript_found {B} ms k v (c : json → L B) s :
  member k ms = Some v → (subscript (JObj ms) k ≫= c) s = c v s.
Proof. intros H. unfold subscript. by rewrite H. Qed.

Lemma subscript_missing {B} ms k (c : json → L B) s :
  member k ms = None → (subscript (JObj ms) k ≫= c) s = (Thrown (Builtin KeyError), s).
Proof. intros H. unfold subscript. by rewrite H. Qed.

Lemma load_settings_validated env i w d raw :
  fs w !! settings_path (project i) = Some d →
  json_load env d = Done raw → SETTINGS_VALIDATOR raw = true →
  load_settings env (i, w)
  = assign_settings env raw
      (i, logged (Log DEBUG "Loading project file '%s'" [APath (settings_path (project i))]) w).
Proof.
  intros Hfile Hload Hvalid. unfold load_settings. lnorm.
  set (path := settings_path (project i)) in *. set (w1 := logged _ w).
  assert (Hopen : open_r path (i, w1) = (Done d, (i, w1))) by by apply open_r_found.
  erewrite lbind_done;
    [| apply try_catch_done; rewrite (lbind_done _ _ _ _ _ Hopen); unfold answer;
       by rewrite Hload ].
  rewrite Hvalid.
  erewrite lbind_done; [| by apply try_catch_done ].
  reflexivity.
Qed.

Lemma assign_settings_prefix env ms tn l r e i w :
  member "typeName" ms = Some (JStr tn) →
  member "language" ms = Some (JStr l) →
  member "runtime" ms = Some (JStr r) →
  member "entrypoint" ms = Some e →
  assign_settings env (JObj ms) (i, w)
  = (v ← subscript (JObj ms) "testEntrypoint"; assign (set_test_entrypoint v);;
     v ← subscript (JObj ms) "language";
     answer (load_plugin env v);;
     assign (set_plugin (Some v));;
     v ← get_or (JObj ms) "settings" (JObj []);
     assign (set_settings v))
      (Instance (set_type_name (project i) tn) (JStr l) (JStr r) e (test_entrypoint i)
         (settings i) (_plugin i), w).
Proof.
  intros Htn Hl Hr He. unfold assign_settings.
  rewrite (subscript_found _ _ _ _ _ Htn). cbn [assign_type_name]. lnorm.
  rewrite (subscript_found _ _ _ _ _ Hl). lnorm.
  rewrite (subscript_found _ _ _ _ _ Hr). lnorm.
  rewrite (subscript_found _ _ _ _ _ He). lnorm.
  reflexivity.
Qed.

(** The validator does not require [testEntrypoint], and [load_settings]
    reads it with a subscript: a settings file the validator accepts but
    that lacks it ends in a [KeyError], not in [InvalidProjectError], and
    by then the type name, the language, the runtime and the entry point
    are assigned while the plugin is not loaded. *)
Theorem load_settings_needs_test_entrypoint env i w d ms :
  let path := settings_path (project i) in
  fs w !! path = Some d →
  json_load env d = Done (JObj ms) →
  SETTINGS_VALIDATOR (JObj ms) = true →
  member "testEntrypoint" ms = None →
  ∃ tn l r e,
    member "typeName" ms = Some (JStr tn) ∧ member "language" ms = Some (JStr l)
    ∧ member "runtime" ms = Some (JStr r) ∧ member "entrypoint" ms = Some e
    ∧ load_settings env (i, w)
      = (Thrown (Builtin KeyError),
         (Instance (set_type_name (project i) tn) (JStr l) (JStr r) e (test_entrypoint i)
            (settings i) (_plugin i),
          logged (Log DEBUG "Loading project file '%s'" [APath path]) w)).
Proof.
  intros path Hfile Hload Hvalid Hmissing.
  destruct (validated_fields ms Hvalid) as (tn & l & r & e & Htn & _ & Hl & Hr & _ & He & _).
  exists tn, l, r, e. do 4 (split; [done|]).
  rewrite (load_settings_validated _ _ _ _ _ Hfile Hload Hvalid).
  rewrite (assign_settings_prefix _ _ _ _ _ _ _ _ Htn Hl Hr He).
  by rewrite (subscript_missing _ _ _ _ Hmissing).
Qed.

Lemma load_settings_needs_test_entrypoint_witness :
  ∃ i',
    load_settings sample_environment
      (sample_instance, world_with {[ [ "work"; ".rpdk-config" ] := Text "short" ]})
    = (Thrown (Builtin KeyError),
       (i', logged (Log DEBUG "Loading project file '%s'" [APath ["work"; ".rpdk-config"]])
              (world_with {[ [ "work"; ".rpdk-config" ] := Text "short" ]})))
    ∧ language i' = JStr "python37" ∧ _plugin i' = None.
Proof.
  destruct (load_settings_needs_test_entrypoint sample_environment sample_instance
              (world_with {[ [ "work"; ".rpdk-config" ] := Text "short" ]})
              (Text "short")
              [("typeName", JStr "Initech::TPS::Report");
               ("language", JStr "python37");
               ("runtime", JStr "python3.7");
               ("entrypoint", JNull)])
    as (tn & l & r & e & Htn & Hl & Hr & He & Hrun);
    [by vm_compute..|].
  injection Hl as <-. eexists. split; [exact Hrun|]. by split.
Defined.

(** A settings file that holds JSON which is not an object passes the
    validator, whose keywords bind objects only; the first subscript
    then raises [TypeError], and nothing is assigned. *)
Theorem load_settings_non_object env i w d raw :
  let path := settings_path (project i) in
  fs w !! path = Some d →
  json_load env d = Done raw →
  (∀ ms, raw ≠ JObj ms) →
  load_settings env (i, w)
  = (Thrown (Builtin TypeError),
     (i, logged (Log DEBUG "Loading project file '%s'" [APath path]) w)).
Proof.
  intros path Hfile Hload Hraw.
  assert (Hvalid : SETTINGS_VALIDATOR raw = true).
  { destruct raw; try done. by destruct (Hraw members). }
  rewrite (load_settings_validated _ _ _ _ _ Hfile Hload Hvalid).
  destruct raw; try done. by destruct (Hraw members).
Qed.

Lemma load_settings_non_object_witness :
  load_settings sample_environment
    (sample_instance, world_with {[ [ "work"; ".rpdk-config" ] := Text "list" ]})
  = (Thrown (Builtin TypeError),
     (sample_instance,
      logged (Log DEBUG "Loading project file '%s'" [APath ["work"; ".rpdk-config"]])
        (world_with {[ [ "work"; ".rpdk-config" ] := Text "list" ]}))).
Proof.
  apply (load_settings_non_object sample_environment sample_instance
           (world_with {[ [ "work"; ".rpdk-config" ] := Text "list" ]})
           (Text "list") (JArr [])); [by vm_compute | by vm_compute | done].
Defined.

Lemma load_settings_refuses_witness :
  load_settings sample_environment
    (sample_instance, world_with {[ [ "work"; ".rpdk-config" ] := Text "empty" ]})
  = (Thrown (InvalidProjectError "Project file '/work/.rpdk-config' is invalid" ValidationError),
     (sample_instance,
      logged (Log DEBUG "Project file '/work/.rpdk-config' is invalid"
                [AExcInfo (OtherError "ValidationError")])
        (logged (Log DEBUG "Loading project file '%s'" [APath ["work"; ".rpdk-config"]])
           (world_with {[ [ "work"; ".rpdk-config" ] := Text "empty" ]})))).
Proof.
  apply (load_settings_refuses sample_environment sample_instance
           (world_with {[ [ "work"; ".rpdk-config" ] := Text "empty" ]})
           (Text "empty")); [by vm_compute|]. by vm_compute.
Defined.

Lemma get_or_bind {B} ms k dflt (c : json → L B) s :
  (get_or (JObj ms) k dflt ≫= c) s = c (default dflt (member k ms)) s.
Proof. done. Qed.

Lemma load_settings_run env i w d ms tn l r e te :
  fs w !! settings_path (project i) = Some d →
  json_load env d = Done (JObj ms) →
  SETTINGS_VALIDATOR (JObj ms) = true →
  member "typeName" ms = Some (JStr tn) → member "language" ms = Some (JStr l) →
  member "runtime" ms = Some (JStr r) → member "entrypoint" ms = Some e →
  member "testEntrypoint" ms = Some te →
  load_plugin env (JStr l) = Done tt →
  load_settings env (i, w)
  = (Done tt,
     (Instance (set_type_name (project i) tn) (JStr l) (JStr r) e te
        (default (JObj []) (member "settings" ms)) (Some (JStr l)),
      logged (Log DEBUG "Loading project file '%s'" [APath (settings_path (project i))]) w)).
Proof.
  intros Hfile Hload Hvalid Htn Hl Hr He Hte Hplugin.
  rewrite (load_settings_validated _ _ _ _ _ Hfile Hload Hvalid).
  rewrite (assign_settings_prefix _ _ _ _ _ _ _ _ Htn Hl Hr He).
  rewrite (subscript_found _ _ _ _ _ Hte). lnorm.
  rewrite (subscript_found _ _ _ _ _ Hl).
  rewrite (answer_done _ _ _ tt Hplugin). lnorm.
  by rewrite get_or_bind.
Qed.

(** A settings file the validator accepts and that has [testEntrypoint]
    is loaded when the plugin of its language loads: the attributes are
    the members of the file, [settings] is an empty object when the file
    has none, the type name reads back as written with its three
    segments, and the runtime is one [write_settings] accepts. *)
Theorem load_settings_accepts env i w d ms te :
  let path := settings_path (project i) in
  fs w !! path = Some d →
  json_load env d = Done (JObj ms) →
  SETTINGS_VALIDATOR (JObj ms) = true →
  member "testEntrypoint" ms = Some te →
  (∀ l, member "language" ms = Some l → load_plugin env l = Done tt) →
  ∃ tn l r e x y z,
    member "typeName" ms = Some (JStr tn) ∧ member "language" ms = Some (JStr l)
    ∧ member "runtime" ms = Some (JStr r) ∧ member "entrypoint" ms = Some e
    ∧ let i' := Instance (set_type_name (project i) tn) (JStr l) (JStr r) e te
                  (default (JObj []) (member "settings" ms)) (Some (JStr l)) in
      let w' := logged (Log DEBUG "Loading project file '%s'" [APath path]) w in
      load_settings env (i, w) = (Done tt, (i', w'))
      ∧ type_name (project i') w' = (Ok tn, w')
      ∧ type_info (project i') = Some [x; y; z]
      ∧ invalid_runtime (runtime i') = Done false.
Proof.
  intros path Hfile Hload Hvalid Hte Hplugin.
  destruct (validated_fields ms Hvalid) as (tn & l & r & e & Htn & Hre & Hl & Hr & Hrt & He & _).
  destruct (type_name_segments tn Hre)
    as (x & y & z & tail & _ & _ & Hsplit & _).
  exists tn, l, r, e, x, y, (z +:+ tail). do 4 (split; [done|]).
  cbv zeta. split; [|split; [|split]].
  - by apply (load_settings_run env i w d ms tn l r e te); [..|apply Hplugin].
  - unfold type_name. cbn [project set_type_name type_info].
    by rewrite (join_split_pair ":" ":" (String.length tn) tn).
  - cbn [project set_type_name type_info]. by rewrite Hsplit.
  - cbn [runtime invalid_runtime]. by rewrite bool_decide_true.
Qed.

Lemma load_settings_accepts_witness :
  ∃ i' w',
    load_settings sample_environment
      (sample_instance, world_with {[ [ "work"; ".rpdk-config" ] := Text "settings" ]})
    = (Done tt, (i', w'))
    ∧ type_info (project i') = Some ["Initech"; "TPS"; "Report"]
    ∧ test_entrypoint i' = JStr "handlers.test_entrypoint".
Proof.
  destruct (load_settings_accepts sample_environment sample_instance
              (world_with {[ [ "work"; ".rpdk-config" ] := Text "settings" ]})
              (Text "settings")
              [("typeName", JStr "Initech::TPS::Report");
               ("language", JStr "python37");
               ("runtime", JStr "python3.7");
               ("entrypoint", JStr "handlers.resource");
               ("testEntrypoint", JStr "handlers.test_entrypoint");
               ("settings", JObj [])]
              (JStr "handlers.test_entrypoint"))
    as (tn & l & r & e & x & y & z & Htn & Hl & Hr & He & Hrun & _ & _ & _);
    [by vm_compute.. | by intros l [= <-] |].
  injection Htn as <-. eexists _, _. split; [exact Hrun|]. by split.
Defined.

(** [load_schema] on a project without type info (none, or an empty
    one) raises [InternalError] after a critical log record; it reads no
    file and assigns nothing. *)
Theorem load_schema_needs_settings env i w :
  no_type_info (project i) = true →
  load_schema env (i, w)
  = (Thrown (InternalError "Internal error (Must load settings first)"),
     (i, logged (Log CRITICAL "Internal error (Must load settings first)" []) w)).
Proof. intros H. unfold load_schema. lnorm. by rewrite H. Qed.

Lemma load_schema_needs_settings_witness :
  load_schema sample_environment (sample_instance, world_with ∅)
  = (Thrown (InternalError "Internal error (Must load settings first)"),
     (sample_instance,
      logged (Log CRITICAL "Internal error (Must load settings first)" [])
        (world_with ∅))).
Proof. by apply (load_schema_needs_settings sample_environment sample_instance). Defined.

(** [load] in a directory without a settings file raises
    [InvalidProjectError] with the hint to run [init], chained to the
    [FileNotFoundError]; the schema is not looked at and nothing is
    assigned. *)
Theorem load_without_settings_file env i w :
  let path := settings_path (project i) in
  let msg := "Project file not found. Have you run 'init'?" in
  fs w !! path = None →
  load env (i, w)
  = (Thrown (InvalidProjectError msg (Builtin FileNotFoundError)),
     (i, logged (Log DEBUG msg [AExcInfo FileNotFoundError])
           (logged (Log DEBUG "Loading project file '%s'" [APath path]) w))).
Proof.
  intros path msg Hfile. unfold load.
  assert (Hsettings : load_settings env (i, w)
            = (Thrown (Builtin FileNotFoundError),
               (i, logged (Log DEBUG "Loading project file '%s'" [APath path]) w))).
  { unfold load_settings. lnorm. fold path.
    erewrite lbind_fail; [reflexivity|].
    erewrite try_catch_passed; [reflexivity| |reflexivity].
    erewrite lbind_fail; [reflexivity|]. by apply open_r_missing. }
  erewrite lbind_fail; [reflexivity|].
  erewrite try_catch_caught; [| exact Hsettings | reflexivity].
  unfold _raise_invalid_project. by rewrite method_log.
Qed.

Lemma load_without_settings_file_witness :
  load sample_environment (sample_instance, world_with ∅)
  = (Thrown (InvalidProjectError "Project file not found. Have you run 'init'?"
             (Builtin FileNotFoundError)),
     (sample_instance,
      logged (Log DEBUG "Project file not found. Have you run 'init'?"
                [AExcInfo FileNotFoundError])
        (logged (Log DEBUG "Loading project file '%s'" [APath ["work"; ".rpdk-config"]])
           (world_with ∅)))).
Proof. by apply (load_without_settings_file sample_environment sample_instance). Defined.

Ltac lnorm_in H :=
  repeat (progress (rewrite ?lbind_assoc, ?method_log, ?get_self_bind, ?assign_bind,
                      ?lret_bind in H; cbv beta iota in H; cbn [fst snd] in H)).

Lemma write_settings_valid_run env i w :
  invalid_runtime (runtime i) = Done false →
  write_settings env (i, w)
  = let path := settings_path (project i) in
    let w1 := logged (Log DEBUG "Overwriting '%s'" [APath path]) w in
    match settings_document i with
    | Some document =>
        (Done tt, (i, with_fs (<[path := Text (json_dump env document +:+ newline)]> (fs w1)) w1))
    | None =>
        (Thrown (Builtin TypeError), (i, with_fs (<[path := Text EmptyString]> (fs w1)) w1))
    end.
Proof.
  intros Hr. unfold write_settings. lnorm.
  rewrite (answer_done _ _ _ false Hr). by destruct (settings_document i).
Qed.

(** When [write_settings] returns, the runtime is one of
    [LAMBDA_RUNTIMES], the project is as before, and the settings file
    holds the dumped document of the six attributes and a newline,
    whatever was there and whether or not overwriting is enabled; no
    other file is touched. *)
Theorem write_settings_returns env i w i' w' :
  write_settings env (i, w) = (Done tt, (i', w')) →
  ∃ r parts,
    runtime i = JStr r ∧ r ∈ LAMBDA_RUNTIMES ∧ type_info (project i) = Some parts
    ∧ i' = i
    ∧ fs w' = <[settings_path (project i) :=
                  Text (json_dump env
                          (JObj [("typeName", JStr (Str.join "::" parts));
                                 ("language", language i);
                                 ("runtime", runtime i);
                                 ("entrypoint", entrypoint i);
                                 ("testEntrypoint", test_entrypoint i);
                                 ("settings", settings i)]) +:+ newline)]> (fs w)
    ∧ log w' = log w ++ [Log DEBUG "Overwriting '%s'" [APath (settings_path (project i))]].
Proof.
  intros Hrun.
  destruct (invalid_runtime (runtime i)) as [[]|e|] eqn:Hr.
  - unfold write_settings in Hrun. lnorm_in Hrun.
    rewrite (answer_done _ _ _ true Hr) in Hrun.
    by destruct (log_scalar (runtime i)), (log_scalar (language i)).
  - rewrite (write_settings_valid_run _ _ _ Hr) in Hrun. cbv zeta in Hrun.
    unfold settings_document in Hrun.
    destruct (runtime i) as [| | |r| |] eqn:Hruntime; try done.
    injection Hr as Hr. apply negb_false_iff, bool_decide_eq_true_1 in Hr.
    destruct (type_info (project i)) as [parts|] eqn:Hparts; [|done].
    injection Hrun as <- <-. by exists r, parts.
  - unfold write_settings in Hrun. lnorm_in Hrun.
    by rewrite (answer_fail _ _ _ e Hr) in Hrun.
  - unfold write_settings in Hrun. lnorm_in Hrun.
    unfold answer, mbind, L_bind in Hrun. by rewrite Hr in Hrun.
Qed.

(** [write_settings] opens the settings file for writing before the
    document is built: on a project with a valid runtime and no type
    info the call raises [TypeError] and leaves the settings file
    empty, whatever it held. *)
Theorem write_settings_without_type_info env i w r :
  runtime i = JStr r → r ∈ LAMBDA_RUNTIMES → type_info (project i) = None →
  ∃ w',
    write_settings env (i, w) = (Thrown (Builtin TypeError), (i, w'))
    ∧ fs w' = <[settings_path (project i) := Text EmptyString]> (fs w).
Proof.
  intros Hr Hin Hparts.
  assert (Hvalid : invalid_runtime (runtime i) = Done false).
  { rewrite Hr. cbn [invalid_runtime]. by rewrite bool_decide_true. }
  rewrite (write_settings_valid_run _ _ _ Hvalid). cbv zeta.
  unfold settings_document. rewrite Hparts. by eexists.
Qed.

Lemma write_settings_without_type_info_witness :
  ∃ w',
    write_settings sample_environment
      (sample_instance, world_with {[ [ "work"; ".rpdk-config" ] := Text "settings" ]})
    = (Thrown (Builtin TypeError), (sample_instance, w'))
    ∧ fs w' !! [ "work"; ".rpdk-config" ] = Some (Text EmptyString).
Proof.
  destruct (write_settings_without_type_info sample_environment sample_instance
              (world_with {[ [ "work"; ".rpdk-config" ] := Text "settings" ]}) "noexec")
    as (w' & Hrun & Hfs); [done | apply (bool_decide_eq_true_1 _); by vm_compute | done |].
  exists w'. split; [exact Hrun|]. rewrite Hfs. apply lookup_insert_eq.
Defined.

Lemma write_settings_returns_witness :
  fs (write_settings sample_environment (loaded_instance, world_with ∅)).2.2
    !! ["work"; ".rpdk-config"]
  = Some (Text ("settings" +:+ newline)).
Proof.
  destruct (write_settings sample_environment (loaded_instance, world_with ∅))
    as [[[]|e|] [i' w']] eqn:Hrun; [| by vm_compute in Hrun..].
  destruct (write_settings_returns _ _ _ _ _ Hrun) as (r & parts & _ & _ & _ & _ & Hfs & _).
  cbn [snd]. rewrite Hfs. by rewrite lookup_insert_eq.
Defined.

(** Writing the settings and loading them again gives the project back:
    for a project whose type name matches the pattern, whose language is
    a string, whose runtime is a known one, whose entry points are
    strings or [None] and whose settings are a dict, [load_settings]
    after [write_settings] succeeds, reads the type name it wrote and
    leaves every other attribute as it was, with the plugin of the
    language loaded. *)
Theorem settings_round_trip env i w parts l r st :
  let tn := Str.join "::" parts in
  let path := settings_path (project i) in
  let document :=
    JObj [("typeName", JStr tn); ("language", JStr l); ("runtime", JStr r);
          ("entrypoint", entrypoint i); ("testEntrypoint", test_entrypoint i);
          ("settings", JObj st)] in
  type_info (project i) = Some parts → TYPE_NAME_REGEX tn = true →
  language i = JStr l → runtime i = JStr r → r ∈ LAMBDA_RUNTIMES →
  is_string_or_null (entrypoint i) = true →
  is_string_or_null (test_entrypoint i) = true →
  settings i = JObj st →
  json_load env (Text (json_dump env document +:+ newline)) = Done document →
  load_plugin env (JStr l) = Done tt →
  ∃ w',
    (write_settings env;; load_settings env) (i, w)
    = (Done tt, (set_plugin (Some (JStr l)) (set_project (set_type_name (project i) tn) i), w'))
    ∧ type_name (set_type_name (project i) tn) w' = (Ok tn, w')
    ∧ fs w' = <[path := Text (json_dump env document +:+ newline)]> (fs w).
Proof.
  intros tn path document Hparts Hre Hl Hr Hin He Hte Hst Hload Hplugin.
  assert (Hvalid : invalid_runtime (runtime i) = Done false).
  { rewrite Hr. cbn [invalid_runtime]. by rewrite bool_decide_true. }
  pose proof (write_settings_valid_run env i w Hvalid) as Hwrite. cbv zeta in Hwrite.
  unfold settings_document in Hwrite. rewrite Hparts, Hl, Hr, Hst in Hwrite.
  fold tn path document in Hwrite.
  set (w1 := logged (Log DEBUG "Overwriting '%s'" [APath path]) w) in Hwrite.
  set (w2 := with_fs (<[path := Text (json_dump env document +:+ newline)]> (fs w1)) w1) in Hwrite.
  assert (Hfile : fs w2 !! settings_path (project i)
                  = Some (Text (json_dump env document +:+ newline))).
  { apply lookup_insert_eq. }
  assert (Hdoc : SETTINGS_VALIDATOR document = true).
  { unfold document, SETTINGS_VALIDATOR. cbn.
    rewrite Hre, He, Hte. by rewrite bool_decide_true. }
  exists (logged (Log DEBUG "Loading project file '%s'" [APath path]) w2).
  split; [|split].
  - rewrite (lbind_done _ _ _ _ _ Hwrite).
    rewrite (load_settings_validated _ _ _ _ _ Hfile Hload Hdoc). unfold document.
    rewrite (assign_settings_prefix env _ tn l r (entrypoint i)) by done.
    rewrite (subscript_found _ "testEntrypoint" (test_entrypoint i)) by done. lnorm.
    rewrite (subscript_found _ "language" (JStr l)) by done.
    rewrite (answer_done _ _ _ tt Hplugin). lnorm.
    rewrite get_or_bind.
    destruct i as [p la ru en te se pl]. cbn in *. by subst.
  - unfold type_name, set_type_name. cbn [type_info].
    by rewrite (join_split_pair ":" ":" (String.length tn) tn).
  - done.
Qed.

Lemma settings_round_trip_witness :
  ∃ w',
    (write_settings sample_environment;; load_settings sample_environment)
      (loaded_instance, world_with ∅)
    = (Done tt, (loaded_instance, w'))
    ∧ fs w' = {[ ["work"; ".rpdk-config"] := Text ("settings" +:+ newline) ]}.
Proof.
  destruct (settings_round_trip sample_environment loaded_instance (world_with ∅)
              ["Initech"; "TPS"; "Report"] "python37" "python3.7" [])
    as (w' & Hrun & _ & Hfs);
    [done | by vm_compute | done | done | apply (bool_decide_eq_true_1 _); by vm_compute
    | done | done | done | by vm_compute | done |].
  exists w'. split; [exact Hrun | exact Hfs].
Defined.

(** [load] reports a schema it cannot read as an invalid project: with
    the settings loaded, a missing schema file gives "Resource
    specification not found." and a schema the loader refuses gives
    "Resource specification is invalid: " followed by the loader's text,
    each chained to its cause; the attributes read from the settings stay
    assigned. *)
Theorem load_reports_schema_errors env i w d ms tn l r e te msg cause :
  let path := settings_path (project i) in
  let spec := root (project i)
              ++ [Str.lower (Str.join "-" (split_pair ":" ":" tn)) +:+ ".json"] in
  fs w !! path = Some d →
  json_load env d = Done (JObj ms) →
  SETTINGS_VALIDATOR (JObj ms) = true →
  member "typeName" ms = Some (JStr tn) → member "language" ms = Some (JStr l) →
  member "runtime" ms = Some (JStr r) → member "entrypoint" ms = Some e →
  member "testEntrypoint" ms = Some te →
  load_plugin env (JStr l) = Done tt →
  match fs w !! spec with
  | None => cause = Builtin FileNotFoundError ∧ msg = "Resource specification not found."
  | Some f =>
      ∃ text, load_resource_spec env f = Thrown (SpecValidationError text)
              ∧ cause = SpecValidationError text
              ∧ msg = "Resource specification is invalid: " +:+ text
  end →
  load env (i, w)
  = (Thrown (InvalidProjectError msg cause),
     (Instance (set_type_name (project i) tn) (JStr l) (JStr r) e te
        (default (JObj []) (member "settings" ms)) (Some (JStr l)),
      logged (Log DEBUG msg [AExcInfo (as_exn cause)])
        (logged (Log INFO "Validating your resource specification..." [])
           (logged (Log DEBUG "Loading project file '%s'" [APath path]) w)))).
Proof.
  intros path spec Hfile Hload Hvalid Htn Hl Hr He Hte Hplugin Hspec.
  pose proof (load_settings_run env i w d ms tn l r e te Hfile Hload Hvalid Htn Hl Hr He
                Hte Hplugin) as Hsettings.
  fold path in Hsettings.
  set (i' := Instance _ _ _ _ _ _ _) in *. set (w1 := logged _ w) in *.
  unfold load.
  rewrite (lbind_done _ _ _ _ _ (try_catch_done _ _ _ _ _ Hsettings)). lnorm.
  set (w2 := logged _ w1).
  pose proof (split_pair_nonempty ":" ":" tn) as Hne.
  assert (Hpath : ∀ B (k : list string → L B), (method schema_path ≫= k) (i', w2) = k spec (i', w2)).
  { intros B k. unfold mbind at 1, L_bind, method. cbn [fst snd project i'].
    unfold schema_path, schema_filename, hypenated_name. by cbn [set_type_name type_info root]. }
  assert (Hguard : no_type_info (project i') = false).
  { unfold no_type_info. cbn [project i' set_type_name type_info].
    by destruct (split_pair ":" ":" tn). }
  assert (Hw2 : fs w2 = fs w) by done.
  destruct (fs w !! spec) as [f|] eqn:Hf.
  - destruct Hspec as (text & Hrefused & -> & ->).
    assert (Hschema : load_schema env (i', w2) = (Thrown (SpecValidationError text), (i', w2))).
    { unfold load_schema. lnorm. rewrite Hguard, Hpath.
      rewrite (lbind_done _ _ _ _ _ (open_r_found spec i' w2 f Hf)).
      by rewrite (answer_fail _ _ _ _ Hrefused). }
    erewrite try_catch_caught; [| exact Hschema | reflexivity].
    unfold _raise_invalid_project. by rewrite method_log.
  - destruct Hspec as [-> ->].
    assert (Hschema : load_schema env (i', w2) = (Thrown (Builtin FileNotFoundError), (i', w2))).
    { unfold load_schema. lnorm. rewrite Hguard, Hpath.
      by rewrite (lbind_fail _ _ _ _ _ (open_r_missing spec i' w2 Hf)). }
    erewrite try_catch_caught; [| exact Hschema | reflexivity].
    unfold _raise_invalid_project. by rewrite method_log.
Qed.

Lemma load_reports_schema_errors_witness :
  ∃ s',
    load sample_environment
      (sample_instance, world_with {[ [ "work"; ".rpdk-config" ] := Text "settings" ]})
    = (Thrown (InvalidProjectError "Resource specification not found."
               (Builtin FileNotFoundError)), s')
    ∧ type_info (project s'.1) = Some ["Initech"; "TPS"; "Report"].
Proof.
  eexists. split.
  - apply (load_reports_schema_errors sample_environment sample_instance
             (world_with {[ [ "work"; ".rpdk-config" ] := Text "settings" ]})
             (Text "settings")
             [("typeName", JStr "Initech::TPS::Report");
              ("language", JStr "python37");
              ("runtime", JStr "python3.7");
              ("entrypoint", JStr "handlers.resource");
              ("testEntrypoint", JStr "handlers.test_entrypoint");
              ("settings", JObj [])]
             "Initech::TPS::Report" "python37" "python3.7" (JStr "handlers.resource")
             (JStr "handlers.test_entrypoint")); by vm_compute.
  - done.
Defined.
